(** * GateKeeper data-plane transport: resiliency components and decorators

    A shallow embedding of the Go packages [models], [resiliency], [client]
    and [middleware] of the data-plane transport, and the properties of the
    retry policy, circuit breaker, rate limiter, bulkhead and decorator chain
    that the specification states about them, followed by further properties
    of the same code: the remaining methods of these components, the other
    decorators, the middleware hooks and the asynchronous helpers.

    Conventions of the embedding.
    - Go [int], [int64] and [time.Duration] are 64-bit signed integers: they
      are values of [Z], and every operation that can leave the 64-bit range
      is written with [Go.wrap64].
    - [time.Time] values produced by [time.Now()] are read through their
      monotonic clock reading, a number of nanoseconds; [time.Since] is the
      difference of two readings.
    - The [float64] values of the rate limiter are binary64 numbers, the
      two infinities and NaN ([float64.t]); every operation rounds its exact
      result to the nearest binary64 number, ties to even, and overflows to
      an infinity.  The sign of a zero is not kept.  Whether the product and
      the sum of [refill] are fused into one operation is left to the
      platform, as the Go language specification does.
    - The product of [GetDelay] is written with exact rationals ([Q]): that
      is the float64 result when the multiplier is a power of two and the
      product fits 53 bits.
    - The conversion of a float64 back to a 64-bit integer truncates, and
      what it yields outside the 64-bit range, for an infinity and for NaN is
      left to the platform, as the Go language specification does.
    - Mutable objects shared along a decorator chain live in an explicit
      [World] that every [Send] threads through. *)

From Stdlib Require Import ZArith QArith Qpower Qround Bool List String Lia Lqa DecimalString.
Import ListNotations.
Local Open Scope Z_scope.

(* ================================================================== *)
(** ** float64 *)

Module float64.

(** [2 ^ k] for any integer [k]. *)
Definition pow2 (k : Z) : Q := Qpower 2 k.

(** The integer part of the binary logarithm of a positive rational. *)
Definition ilog2 (x : Q) : Z :=
  let e0 := Z.log2 (Qnum x) - Z.log2 (Zpos (Qden x)) in
  if Qle_bool (pow2 e0) x then e0 else e0 - 1.

(** The nearest integer, the even one of two that are equally near. *)
Definition rne (x : Q) : Z :=
  let f := Qfloor x in
  match Qcompare (x - inject_Z f) (1 # 2) with
  | Lt => f
  | Gt => f + 1
  | Eq => if Z.even f then f else f + 1
  end.

(** The exponent of the last place of the binary64 numbers around a
    positive [x]: 53 significant bits, and no exponent below -1022. *)
Definition exponent (x : Q) : Z := Z.max (ilog2 x) (-1022) - 52.

(** The binary64 number nearest to a positive [x], were the exponent not
    bounded from above. *)
Definition round_pos (x : Q) : Q :=
  (inject_Z (rne (x / pow2 (exponent x))) * pow2 (exponent x))%Q.

(** Rounding to nearest, ties to even, as every float64 operation does. *)
Definition round64 (x : Q) : Q :=
  match Qcompare x 0 with
  | Eq => 0%Q
  | Gt => Qred (round_pos x)
  | Lt => Qred (- round_pos (- x))
  end.


(** A float64: a finite number, an infinity or a NaN.  The sign of a zero
    is not kept. *)
Inductive t : Type :=
| Finite (q : Q)
| PosInf
| NegInf
| NaN.

(** The largest finite binary64 number. *)
Definition MaxFloat64 : Q := inject_Z ((2 ^ 53 - 1) * 2 ^ 971).

Definition Qltb (x y : Q) : bool := negb (Qle_bool y x).

(** The float64 an operation gives when its exact result is [q]. *)
Definition of_Q (q : Q) : t :=
  let r := round64 q in
  if Qltb MaxFloat64 r then PosInf
  else if Qltb r (- MaxFloat64) then NegInf
  else Finite r.

(** [float64(n)] of an integer. *)
Definition of_int (n : Z) : t := of_Q (inject_Z n).

Definition opp (x : t) : t :=
  match x with
  | Finite q => Finite (- q)
  | PosInf => NegInf
  | NegInf => PosInf
  | NaN => NaN
  end.

Definition add (x y : t) : t :=
  match x, y with
  | NaN, _ | _, NaN => NaN
  | Finite a, Finite b => of_Q (a + b)
  | PosInf, NegInf | NegInf, PosInf => NaN
  | PosInf, _ | _, PosInf => PosInf
  | NegInf, _ | _, NegInf => NegInf
  end.

Definition sub (x y : t) : t := add x (opp y).

Definition mul (x y : t) : t :=
  match x, y with
  | NaN, _ | _, NaN => NaN
  | Finite a, Finite b => of_Q (a * b)
  | Finite a, PosInf | PosInf, Finite a =>
      match Qcompare a 0 with Eq => NaN | Gt => PosInf | Lt => NegInf end
  | Finite a, NegInf | NegInf, Finite a =>
      match Qcompare a 0 with Eq => NaN | Gt => NegInf | Lt => PosInf end
  | PosInf, PosInf | NegInf, NegInf => PosInf
  | PosInf, NegInf | NegInf, PosInf => NegInf
  end.

Definition div (x y : t) : t :=
  match x, y with
  | NaN, _ | _, NaN => NaN
  | Finite a, Finite b =>
      match Qcompare b 0 with
      | Eq => match Qcompare a 0 with Eq => NaN | Gt => PosInf | Lt => NegInf end
      | _ => of_Q (a / b)
      end
  | Finite _, PosInf | Finite _, NegInf => Finite 0
  | PosInf, Finite b => if Qle_bool 0 b then PosInf else NegInf
  | NegInf, Finite b => if Qle_bool 0 b then NegInf else PosInf
  | _, _ => NaN
  end.

(** [x*y + z] computed as one operation, with one rounding. *)
Definition fma (x y z : t) : t :=
  match x, y with
  | Finite a, Finite b =>
      match z with
      | Finite c => of_Q (a * b + c)
      | _ => z
      end
  | _, _ => add (mul x y) z
  end.

(** [<=], [<], [>=] and [>]: false as soon as an operand is a NaN. *)
Definition le (x y : t) : bool :=
  match x, y with
  | NaN, _ | _, NaN => false
  | Finite a, Finite b => Qle_bool a b
  | NegInf, _ | _, PosInf => true
  | _, _ => false
  end.

Definition lt (x y : t) : bool := le x y && negb (le y x).
Definition ge (x y : t) : bool := le y x.
Definition gt (x y : t) : bool := lt y x.

(** [x] is the finite number [q]. *)
Definition exactly (x : t) (q : Q) : Prop := exists r : Q, x = Finite r /\ r == q.

End float64.

(* ================================================================== *)
(** ** Go base types *)

Module Go.

Definition MinInt64 : Z := - 2 ^ 63.
Definition MaxInt64 : Z := 2 ^ 63 - 1.

Definition in_int64 (z : Z) : Prop := MinInt64 <= z <= MaxInt64.

Definition in_int64b (z : Z) : bool := (MinInt64 <=? z) && (z <=? MaxInt64).

(** Two's-complement wrap-around of 64-bit signed arithmetic. *)
Definition wrap64 (z : Z) : Z := (z + 2 ^ 63) mod 2 ^ 64 - 2 ^ 63.

(** [time.Duration] constants, in nanoseconds. *)
Definition Nanosecond : Z := 1.
Definition Millisecond : Z := 1000000.
Definition Second : Z := 1000000000.

(** A monotonic clock reading. *)
Definition Time : Type := Z.
Definition Duration : Type := Z.

(** [time.Since(t)] evaluated when the clock reads [now]. *)
Definition Since (now t : Time) : Duration := now - t.

(** [d.Seconds()]: whole seconds plus the fraction, as a float64. *)
Definition Seconds (d : Duration) : float64.t :=
  let sec := Z.quot d Second in
  let nsec := Z.rem d Second in
  float64.add (float64.of_int sec)
    (float64.div (float64.of_int nsec) (float64.Finite 1000000000)).

(** Truncation toward zero of a rational. *)
Definition truncate (x : Q) : Z := Z.quot (Qnum x) (Zpos (Qden x)).

(** Conversion of a float64 to int64 ([time.Duration(f)], [int64(f)]).
    In range the value is truncated toward zero.  Out of range the Go
    specification makes the result implementation-dependent: [overflow]
    is what the platform yields there. *)
Definition float64_to_int64 (overflow : Q -> Z) (x : Q) : Z :=
  let t := truncate x in
  if in_int64b t then t else overflow x.

(** On amd64 the conversion instruction yields the "integer indefinite"
    value, the smallest int64, for every out-of-range operand. *)
Definition amd64_overflow : Q -> Z := fun _ => MinInt64.

(** On arm64 the conversion saturates. *)
Definition arm64_overflow : Q -> Z :=
  fun x => if Qle_bool 0 x then MaxInt64 else MinInt64.

(** The same conversion of a float64 that can be an infinity or NaN:
    [convert] is what the platform yields for those and out of range. *)
Definition float64_to_Duration (convert : float64.t -> Z) (x : float64.t) : Duration :=
  match x with
  | float64.Finite q =>
      let t := truncate q in
      if in_int64b t then t else convert x
  | _ => convert x
  end.

(** On amd64: the smallest int64 in every such case. *)
Definition amd64_convert : float64.t -> Z := fun _ => MinInt64.

(** On arm64: saturation, and 0 for NaN. *)
Definition arm64_convert : float64.t -> Z :=
  fun x =>
    match x with
    | float64.Finite q => if Qle_bool 0 q then MaxInt64 else MinInt64
    | float64.PosInf => MaxInt64
    | float64.NegInf => MinInt64
    | float64.NaN => 0
    end.

(** [%d] of [fmt.Sprintf]. *)
Definition itoa (z : Z) : string := NilEmpty.string_of_int (Z.to_int z).

(** Why a context ends: [cancel()] was called, or its deadline passed. *)
Inductive Cause : Type := ByCancel | ByDeadline.

(** A [context.Context] as the transport observes it: the instant at which
    its [Done] channel is closed, if ever, and why. *)
Record Context : Type := {
  cancelAt : option Time;
  cause : Cause
}.

(** [context.Background()]: never done. *)
Definition Background : Context := {| cancelAt := None; cause := ByCancel |}.

(** Whether [<-ctx.Done()] is ready when the clock reads [now]. *)
Definition Done (ctx : Context) (now : Time) : bool :=
  match cancelAt ctx with
  | Some c => c <=? now
  | None => false
  end.

End Go.

(* ================================================================== *)
(** ** Requests, responses and errors (package models) *)

Module models.

Record Request : Type := {
  Method : string;
  URL : string;
  Ctx : Go.Context
}.

(** The [http.Response] as far as the transport looks at it. *)
Record HttpResponse : Type := {
  StatusCode : Z;
  Body : string
}.

Record Response : Type := {
  HttpResp : HttpResponse;
  RequestRef : Request
}.

(** Values of Go's [error] interface that reach the transport:
    - [ErrorString]: made by [errors.New];
    - [NetError]: a value that implements [net.Error], with the result of
      its [Timeout()] method ([url.Error], [net.OpError],
      [context.DeadlineExceeded]);
    - [HTTPError]: a pointer to a [models.HTTPError], with its fields [Request],
      [Response], [StatusCode], [Message] and [Err]. *)
#[warnings="-register-all"]
Inductive error : Type :=
| ErrorString (msg : string)
| NetError (msg : string) (timeout : bool)
| HTTPError (request : option Request) (response : option Response)
            (statusCode : Z) (message : string) (err : option error).

(** What a [Send] returns: the response and the error, either of which can
    be nil. *)
Definition Result : Type := (option Response * option error)%type.

(** [context.Canceled] is made by [errors.New]; [context.DeadlineExceeded]
    has [Timeout()] and [Temporary()] methods and so implements
    [net.Error]. *)
Definition Canceled : error := ErrorString "context canceled".
Definition DeadlineExceeded : error := NetError "context deadline exceeded" true.

(** [ctx.Err()] once the context is done. *)
Definition ctxErr (ctx : Go.Context) : error :=
  match Go.cause ctx with
  | Go.ByCancel => Canceled
  | Go.ByDeadline => DeadlineExceeded
  end.

(** [errors.As(err, &netErr)] for [netErr] of type [net.Error]: the first
    error of the [Unwrap] chain that implements [net.Error], given by the
    result of its [Timeout()] method. *)
Fixpoint As_netError (e : error) : option bool :=
  match e with
  | ErrorString _ => None
  | NetError _ t => Some t
  | HTTPError _ _ _ _ (Some inner) => As_netError inner
  | HTTPError _ _ _ _ None => None
  end.

End models.

Module HTTPError.
Import models.

(** The fields of a [models.HTTPError]. *)
Record t : Type := {
  Request : option models.Request;
  Response : option models.Response;
  StatusCode : Z;
  Message : string;
  Err : option error
}.

Definition to_error (e : t) : error :=
  HTTPError (Request e) (Response e) (StatusCode e) (Message e) (Err e).

(** The type assertion of [err] to a pointer to [models.HTTPError]. *)
Definition of_error (e : error) : option t :=
  match e with
  | HTTPError rq rs sc m er =>
      Some {| Request := rq; Response := rs; StatusCode := sc;
              Message := m; Err := er |}
  | _ => None
  end.

Definition IsTimeout (e : t) : bool :=
  match Err e with
  | None => false
  | Some inner =>
      match As_netError inner with
      | Some timeout => timeout
      | None => false
      end
  end.

Definition IsTemporary (e : t) : bool :=
  match Err e with
  | None =>
      if (StatusCode e >=? 500) && (StatusCode e <? 600) then true else false
  | Some _ =>
      if IsTimeout e then true
      else if (StatusCode e >=? 500) && (StatusCode e <? 600) then true
      else false
  end.

Definition IsClientError (e : t) : bool :=
  (StatusCode e >=? 400) && (StatusCode e <? 500).

Definition IsServerError (e : t) : bool :=
  (StatusCode e >=? 500) && (StatusCode e <? 600).

Definition IsNetworkError (e : t) : bool :=
  match Err e with
  | None => false
  | Some inner =>
      match As_netError inner with
      | Some _ => true
      | None => false
      end
  end.

Definition GetResponse (e : t) : option models.Response := Response e.

End HTTPError.

(* ================================================================== *)
(** ** RetryPolicy (package resiliency) *)

Module RetryPolicy.
Import models.

Record t : Type := {
  maxAttempts : Z;
  initialDelay : Go.Duration;
  maxDelay : Go.Duration;
  multiplier : Q;
  retryableErrors : list Z
}.

Definition NewRetryPolicy (maxAttempts : Z) : t :=
  {| maxAttempts := maxAttempts;
     initialDelay := 100 * Go.Millisecond;
     maxDelay := 30 * Go.Second;
     multiplier := 2;
     retryableErrors := [408; 429; 500; 502; 503; 504] |}.

Definition NewRetryPolicyWithConfig (maxAttempts : Z)
    (initialDelay maxDelay : Go.Duration) (multiplier : Q) : t :=
  {| maxAttempts := maxAttempts;
     initialDelay := initialDelay;
     maxDelay := maxDelay;
     multiplier := multiplier;
     retryableErrors := [408; 429; 500; 502; 503; 504] |}.

(** The loop over [rp.retryableErrors]. *)
Definition listed (rp : t) (code : Z) : bool :=
  existsb (fun c => code =? c) (retryableErrors rp).

Definition ShouldRetry (rp : t) (err : error) (attempt : Z) : bool :=
  if attempt >=? maxAttempts rp then false
  else
    match HTTPError.of_error err with
    | Some httpErr =>
        if HTTPError.IsTimeout httpErr || HTTPError.IsTemporary httpErr then true
        else if listed rp (HTTPError.StatusCode httpErr) then true
        else if HTTPError.IsClientError httpErr then false
        else if HTTPError.IsServerError httpErr then true
        else false
    | None => false
    end.

Section GetDelay.
(** What the platform yields for an out-of-range float64-to-int64
    conversion. *)
Variable overflow : Q -> Z.

Definition GetDelay (rp : t) (attempt : Z) : Go.Duration :=
  if attempt =? 0 then 0
  else
    let delay := (inject_Z (initialDelay rp)
                  * Qpower (multiplier rp) (Go.wrap64 (attempt - 1)))%Q in
    let delayDuration := Go.float64_to_int64 overflow delay in
    if delayDuration >? maxDelay rp then maxDelay rp else delayDuration.
End GetDelay.

Definition MaxAttempts (rp : t) : Z := maxAttempts rp.

Definition WithRetryableStatusCodes (rp : t) (codes : list Z) : t :=
  {| maxAttempts := maxAttempts rp;
     initialDelay := initialDelay rp;
     maxDelay := maxDelay rp;
     multiplier := multiplier rp;
     retryableErrors := codes |}.

End RetryPolicy.

(* ================================================================== *)
(** ** CircuitBreaker (package resiliency) *)

Module CircuitBreaker.
Import models.

(** [interfaces.CircuitState]; the breaker only ever stores these three
    constants. *)
Inductive CircuitState : Type := StateClosed | StateOpen | StateHalfOpen.

Record t : Type := {
  state : CircuitState;
  failureCount : Z;
  successCount : Z;
  lastFailureTime : Go.Time;
  lastSuccessTime : Go.Time;
  failureThreshold : Z;
  successThreshold : Z;
  timeout : Go.Duration
}.

Definition with_state (s : CircuitState) (cb : t) : t :=
  {| state := s; failureCount := failureCount cb; successCount := successCount cb;
     lastFailureTime := lastFailureTime cb; lastSuccessTime := lastSuccessTime cb;
     failureThreshold := failureThreshold cb; successThreshold := successThreshold cb;
     timeout := timeout cb |}.

Definition with_failureCount (n : Z) (cb : t) : t :=
  {| state := state cb; failureCount := n; successCount := successCount cb;
     lastFailureTime := lastFailureTime cb; lastSuccessTime := lastSuccessTime cb;
     failureThreshold := failureThreshold cb; successThreshold := successThreshold cb;
     timeout := timeout cb |}.

Definition with_successCount (n : Z) (cb : t) : t :=
  {| state := state cb; failureCount := failureCount cb; successCount := n;
     lastFailureTime := lastFailureTime cb; lastSuccessTime := lastSuccessTime cb;
     failureThreshold := failureThreshold cb; successThreshold := successThreshold cb;
     timeout := timeout cb |}.

Definition with_lastFailureTime (now : Go.Time) (cb : t) : t :=
  {| state := state cb; failureCount := failureCount cb; successCount := successCount cb;
     lastFailureTime := now; lastSuccessTime := lastSuccessTime cb;
     failureThreshold := failureThreshold cb; successThreshold := successThreshold cb;
     timeout := timeout cb |}.

Definition with_lastSuccessTime (now : Go.Time) (cb : t) : t :=
  {| state := state cb; failureCount := failureCount cb; successCount := successCount cb;
     lastFailureTime := lastFailureTime cb; lastSuccessTime := now;
     failureThreshold := failureThreshold cb; successThreshold := successThreshold cb;
     timeout := timeout cb |}.

(** The zero [time.Time] of the fresh breaker is read as 0. *)
Definition NewCircuitBreaker (failureThreshold : Z) (timeout : Go.Duration) : t :=
  {| state := StateClosed; failureCount := 0; successCount := 0;
     lastFailureTime := 0; lastSuccessTime := 0;
     failureThreshold := failureThreshold; successThreshold := 2;
     timeout := timeout |}.

(** [canExecute], with the reading of [time.Now()] it makes. *)
Definition canExecute (now : Go.Time) (cb : t) : bool * t :=
  match state cb with
  | StateClosed => (true, cb)
  | StateOpen =>
      if Go.Since now (lastFailureTime cb) >? timeout cb
      then (true, with_successCount 0 (with_state StateHalfOpen cb))
      else (false, cb)
  | StateHalfOpen => (true, cb)
  end.

Definition onFailure (now : Go.Time) (cb : t) : t :=
  let cb := with_failureCount (Go.wrap64 (failureCount cb + 1)) cb in
  let cb := with_lastFailureTime now cb in
  match state cb with
  | StateClosed =>
      if failureCount cb >=? failureThreshold cb
      then with_failureCount 0 (with_state StateOpen cb)
      else cb
  | StateHalfOpen =>
      with_successCount 0 (with_failureCount 0 (with_state StateOpen cb))
  | StateOpen => cb
  end.

Definition onSuccess (now : Go.Time) (cb : t) : t :=
  let cb := with_lastSuccessTime now cb in
  match state cb with
  | StateClosed => with_failureCount 0 cb
  | StateHalfOpen =>
      let cb := with_successCount (Go.wrap64 (successCount cb + 1)) cb in
      if successCount cb >=? successThreshold cb
      then with_successCount 0 (with_failureCount 0 (with_state StateClosed cb))
      else cb
  | StateOpen => cb
  end.

Definition recordResult (now : Go.Time) (err : option error) (cb : t) : t :=
  match err with
  | Some _ => onFailure now cb
  | None => onSuccess now cb
  end.

Definition State (cb : t) : CircuitState := state cb.

Definition Reset (cb : t) : t :=
  with_successCount 0 (with_failureCount 0 (with_state StateClosed cb)).

Definition Trip (now : Go.Time) (cb : t) : t :=
  with_successCount 0
    (with_failureCount 0 (with_lastFailureTime now (with_state StateOpen cb))).

Definition ErrOpen : error :=
  ErrorString "circuit breaker is open: request rejected".

Section Execute.
(** The breaker is an object of a larger state [W]: [now] reads the
    clock, [get] and [set] read and write the breaker. *)
Context {W : Type}.
Variable now : W -> Go.Time.
Variable get : W -> t.
Variable set : t -> W -> W.

Definition Execute (ctx : Go.Context) (fn : W -> Result * W) (w : W) : Result * W :=
  let '(admitted, cb) := canExecute (now w) (get w) in
  let w := set cb w in
  if negb admitted then ((None, Some ErrOpen), w)
  else
    let '((resp, err), w) := fn w in
    let w := set (recordResult (now w) err (get w)) w in
    ((resp, err), w).
End Execute.

End CircuitBreaker.

(* ================================================================== *)
(** ** RateLimiter (package resiliency) *)

Module RateLimiter.

Record t : Type := {
  rate : float64.t;
  burst : Z;
  tokens : float64.t;
  lastRefillTime : Go.Time
}.

Definition NewRateLimiter (now : Go.Time) (rate : float64.t) (burst : Z) : t :=
  {| rate := rate; burst := burst; tokens := float64.of_int burst; lastRefillTime := now |}.

Section Allow.
(** Whether the platform computes the product and the sum of [refill] as
    one fused operation, which the language allows. *)
Variable fused : bool.

Definition refill (now : Go.Time) (rl : t) : t :=
  let elapsed := Go.Seconds (Go.Since now (lastRefillTime rl)) in
  let tokens :=
    if fused then float64.fma elapsed (rate rl) (tokens rl)
    else
      let tokensToAdd := float64.mul elapsed (rate rl) in
      float64.add (tokens rl) tokensToAdd in
  let tokens :=
    if float64.gt tokens (float64.of_int (burst rl)) then float64.of_int (burst rl)
    else tokens in
  {| rate := rate rl; burst := burst rl; tokens := tokens; lastRefillTime := now |}.

Definition Allow (now : Go.Time) (rl : t) : bool * t :=
  let rl := refill now rl in
  if float64.ge (tokens rl) (float64.Finite 1)
  then (true, {| rate := rate rl; burst := burst rl;
                 tokens := float64.sub (tokens rl) (float64.Finite 1);
                 lastRefillTime := lastRefillTime rl |})
  else (false, rl).
End Allow.

End RateLimiter.

(* ================================================================== *)
(** ** Bulkhead (package resiliency) *)

Module Bulkhead.
Import models.

(** A buffered [chan struct{}]: how many elements it holds and its
    capacity. *)
Record chan : Type := { len : Z; cap : Z }.

Record t : Type := {
  semaphore : chan;
  maxConcurrency : Z;
  activeCount : Z
}.

Definition NewBulkhead (maxConcurrency : Z) : t :=
  let maxConcurrency := if maxConcurrency <=? 0 then 10 else maxConcurrency in
  {| semaphore := {| len := 0; cap := maxConcurrency |};
     maxConcurrency := maxConcurrency;
     activeCount := 0 |}.

(** [b.semaphore <- struct{}{}] followed by [atomic.AddInt64(&b.activeCount, 1)]. *)
Definition acquire (b : t) : t :=
  {| semaphore := {| len := len (semaphore b) + 1; cap := cap (semaphore b) |};
     maxConcurrency := maxConcurrency b;
     activeCount := Go.wrap64 (activeCount b + 1) |}.

(** The deferred [<-b.semaphore] followed by [atomic.AddInt64(&b.activeCount, -1)]. *)
Definition release (b : t) : t :=
  {| semaphore := {| len := len (semaphore b) - 1; cap := cap (semaphore b) |};
     maxConcurrency := maxConcurrency b;
     activeCount := Go.wrap64 (activeCount b - 1) |}.

Definition ErrFull : error :=
  ErrorString "bulkhead: maximum concurrency reached, request rejected".

(** How a call of the wrapped function, or of [Execute], ends: it returns,
    it panics, or it never returns. *)
Inductive Outcome : Type :=
| Returned (r : Result)
| Panicked (v : string)
| Blocked.

Section Execute.
Context {W : Type}.
Variable now : W -> Go.Time.
Variable get : W -> t.
Variable set : t -> W -> W.
(** The case the runtime takes when both the send on the semaphore and
    the receive from [ctx.Done()] are ready: [true] for the send. *)
Variable pick : bool.

Definition Execute (ctx : Go.Context) (fn : W -> Outcome * W) (w : W) : Outcome * W :=
  let b := get w in
  let sendReady := len (semaphore b) <? cap (semaphore b) in
  let doneReady := Go.Done ctx (now w) in
  if sendReady && (negb doneReady || pick) then
    let w := set (acquire b) w in
    let '(out, w) := fn w in
    match out with
    | Blocked => (Blocked, w)
    | _ =>
        (* the deferred function runs on return and on panic *)
        if len (semaphore (get w)) <=? 0 then (Blocked, w)
        else (out, set (release (get w)) w)
    end
  else if doneReady then (Returned (None, Some (ctxErr ctx)), w)
  else (Returned (None, Some ErrFull), w).
End Execute.

Definition ActiveRequests (b : t) : Z := activeCount b.

Definition MaxConcurrency (b : t) : Z := maxConcurrency b.

Definition AvailableSlots (b : t) : Z := Go.wrap64 (maxConcurrency b - ActiveRequests b).

End Bulkhead.

(* ================================================================== *)
(** ** The state a decorator chain runs in *)

Module runtime.

(** The clock, the number of network round trips made so far, and the
    circuit breaker the chain shares between its calls. *)
Record World : Type := {
  clock : Go.Time;
  roundTrips : Z;
  breaker : CircuitBreaker.t
}.

Definition set_clock (c : Go.Time) (w : World) : World :=
  {| clock := c; roundTrips := roundTrips w; breaker := breaker w |}.

Definition set_breaker (cb : CircuitBreaker.t) (w : World) : World :=
  {| clock := clock w; roundTrips := roundTrips w; breaker := cb |}.

(** What the Go scheduler decides: [lag] is the time by which every timer
    fires late, [pick] the case a [select] takes when the timer and
    [ctx.Done()] are ready at the same instant ([true] for the timer). *)
Record Scheduler : Type := {
  lag : Go.Duration;
  pick : bool
}.

End runtime.

(* ================================================================== *)
(** ** Interfaces (package interfaces) *)

Module interfaces.
Import models runtime.

(** [IHTTPClient], through its [Send] method. *)
Definition IHTTPClient : Type := Request -> World -> Result * World.

(** An [IRetryPolicy] value: the three methods of the policy behind it. *)
Record IRetryPolicy : Type := {
  ShouldRetry : error -> Z -> bool;
  GetDelay : Z -> Go.Duration;
  MaxAttempts : Z
}.

End interfaces.

(** A [*resiliency.RetryPolicy] as an [IRetryPolicy]. *)
Definition RetryPolicy_as_IRetryPolicy (overflow : Q -> Z) (rp : RetryPolicy.t)
  : interfaces.IRetryPolicy :=
  {| interfaces.ShouldRetry := RetryPolicy.ShouldRetry rp;
     interfaces.GetDelay := RetryPolicy.GetDelay overflow rp;
     interfaces.MaxAttempts := RetryPolicy.MaxAttempts rp |}.

(* ================================================================== *)
(** ** HTTPClient (package client) *)

Module HTTPClient.
Import models runtime.

(** How one network round trip ends: with an HTTP response, or with the
    error of [http.Client.Do]. *)
Inductive RoundTrip : Type :=
| Answer (resp : HttpResponse)
| Failure (err : error).

(** The [http.Client]: [Do] gives, for the timeout [Send] puts on the
    request context, the request, the number of earlier round trips and the
    instant the call starts, how the round trip ends and how long it takes. *)
Record http_Client : Type := {
  Do : Go.Duration -> Request -> Z -> Go.Time -> RoundTrip * Go.Duration
}.

Record t : Type := {
  httpClient : http_Client;
  timeout : Go.Duration
}.

(** [Send] for a non-nil request with a non-nil [HTTPRequest()]. *)
Definition Send (c : t) : interfaces.IHTTPClient := fun request w =>
  let '(trip, took) := Do (httpClient c) (timeout c) request (roundTrips w) (clock w) in
  let w := {| clock := clock w + Z.max 0 took;
              roundTrips := roundTrips w + 1;
              breaker := breaker w |} in
  match trip with
  | Failure err =>
      ((None,
        Some (HTTPError (Some request) None 0
                (Method request ++ " request failed") (Some err))), w)
  | Answer httpResp =>
      let resp := {| HttpResp := httpResp; RequestRef := request |} in
      if StatusCode httpResp >=? 400 then
        ((Some resp,
          Some (HTTPError (Some request) (Some resp) (StatusCode httpResp)
                  (Method request ++ " request returned error status "
                     ++ Go.itoa (StatusCode httpResp)) None)), w)
      else ((Some resp, None), w)
  end.

End HTTPClient.

(** [HTTPClient.Send] for every argument the interface type allows. *)
Module HTTPClientOps.
Import models runtime.

(** An [interfaces.IHTTPRequest] value as [Send] tells them apart: the nil
    interface, a request value whose [HTTPRequest()] is nil, and a request
    value whose [HTTPRequest()] is there. *)
Inductive IHTTPRequest : Type :=
| Nil
| WithoutHTTPRequest (request : Request)
| WithHTTPRequest (request : Request).

Definition ErrNilRequest : error :=
  HTTPError None None 0 "request cannot be nil" None.

Definition ErrNilHTTPRequest : error :=
  HTTPError None None 0 "invalid request: HTTPRequest is nil" None.

(** [Send]: the two guards, then the round trip. *)
Definition Send (c : HTTPClient.t) (request : IHTTPRequest) (w : World) : Result * World :=
  match request with
  | Nil => ((None, Some ErrNilRequest), w)
  | WithoutHTTPRequest _ => ((None, Some ErrNilHTTPRequest), w)
  | WithHTTPRequest request => HTTPClient.Send c request w
  end.

End HTTPClientOps.

(* ================================================================== *)
(** ** Decorators (package middleware) *)

Module RetryDecorator.
Import models runtime interfaces.

Record t : Type := {
  wrapped : IHTTPClient;
  policy : IRetryPolicy
}.

Definition NewRetryDecorator (wrapped : IHTTPClient) (policy : IRetryPolicy) : t :=
  {| wrapped := wrapped; policy := policy |}.

Definition ErrCancelled (request : Request) : error :=
  HTTPError (Some request) None 0 "request cancelled during retry"
    (Some (ctxErr (Ctx request))).

Definition ErrCancelledBackoff (request : Request) : error :=
  HTTPError (Some request) None 0 "request cancelled during retry backoff"
    (Some (ctxErr (Ctx request))).

Section Send.
Variable sched : Scheduler.

(** The [select] between [time.After(delay)] and [ctx.Done()]: whether the
    timer case is taken, and the world when the [select] returns.  A timer
    whose delay is zero or negative and a context that is already done are
    both ready when the [select] is reached, which then takes either case;
    otherwise the case that is ready first is taken. *)
Definition backoff (ctx : Go.Context) (delay : Go.Duration) (w : World) : bool * World :=
  let fire := clock w + Z.max 0 delay + lag sched in
  match Go.cancelAt ctx with
  | None => (true, set_clock fire w)
  | Some c =>
      let done := Z.max (clock w) c in
      if (c <=? clock w) && (delay <=? 0) then
        if pick sched then (true, set_clock fire w) else (false, set_clock done w)
      else if done <? fire then (false, set_clock done w)
      else if fire <? done then (true, set_clock fire w)
      else (pick sched, set_clock fire w)
  end.

(** The [for attempt := ...; attempt < MaxAttempts(); attempt++] loop,
    entered at [attempt] with [lastErr]; [fuel] bounds the iterations
    left.  The increment cannot overflow: it is made only while [attempt]
    is below [MaxAttempts()], an [int]. *)
Fixpoint loop (d : t) (request : Request) (fuel : nat) (attempt : Z)
    (lastErr : option error) (w : World) : Result * World :=
  match fuel with
  | O => ((None, lastErr), w)
  | S fuel =>
      if attempt <? MaxAttempts (policy d) then
        if Go.Done (Ctx request) (clock w) then
          ((None, Some (ErrCancelled request)), w)
        else
          let '((resp, err), w) := wrapped d request w in
          match err with
          | None => ((resp, None), w)
          | Some e =>
              if negb (ShouldRetry (policy d) e attempt) then
                ((None, Some e), w)
              else
                let delay := GetDelay (policy d) attempt in
                let '(fired, w) := backoff (Ctx request) delay w in
                if fired then loop d request fuel (attempt + 1) (Some e) w
                else ((None, Some (ErrCancelledBackoff request)), w)
          end
      else ((None, lastErr), w)
  end.

(** The loop runs at most [MaxAttempts()] times. *)
Definition Send (d : t) : IHTTPClient := fun request w =>
  loop d request (Z.to_nat (MaxAttempts (policy d))) 0 None w.
End Send.

End RetryDecorator.

Module CircuitBreakerDecorator.
Import models runtime interfaces.

(** The decorator holds the wrapped client; its circuit breaker is the one
    of the world. *)
Record t : Type := {
  wrapped : IHTTPClient
}.

Definition NewCircuitBreakerDecorator (wrapped : IHTTPClient) : t :=
  {| wrapped := wrapped |}.

Definition Send (d : t) : IHTTPClient := fun request w =>
  CircuitBreaker.Execute clock breaker set_breaker (Ctx request)
    (fun w => wrapped d request w) w.

End CircuitBreakerDecorator.

(* ================================================================== *)
(** ** Runs of the components used in the statements *)

Module runs.
Import models.

(** One recorded result: when it is recorded, and the error of the call. *)
Definition Recorded : Type := (Go.Time * option error)%type.

(** [recordResult] applied to a sequence of results, oldest first. *)
Definition record_all (evs : list Recorded) (cb : CircuitBreaker.t) : CircuitBreaker.t :=
  fold_left (fun cb ev => CircuitBreaker.recordResult (fst ev) (snd ev) cb) evs cb.

(** The number of failures at the end of a sequence of results, back to
    the last success. *)
Definition streak (evs : list Recorded) : Z :=
  fold_left (fun n ev => match snd ev with Some _ => n + 1 | None => 0 end) evs 0.

(** [canExecute] at each of the instants, earliest first: the answers and
    the breaker left behind. *)
Fixpoint check_all (instants : list Go.Time) (cb : CircuitBreaker.t)
    : list bool * CircuitBreaker.t :=
  match instants with
  | [] => ([], cb)
  | now :: rest =>
      let '(ok, cb) := CircuitBreaker.canExecute now cb in
      let '(oks, cb) := check_all rest cb in
      (ok :: oks, cb)
  end.

(** [Allow] called at each of the instants, earliest first. *)
Fixpoint allow_all (fused : bool) (instants : list Go.Time) (rl : RateLimiter.t)
    : list bool * RateLimiter.t :=
  match instants with
  | [] => ([], rl)
  | now :: rest =>
      let '(ok, rl) := RateLimiter.Allow fused now rl in
      let '(oks, rl) := allow_all fused rest rl in
      (ok :: oks, rl)
  end.

(** Instants that never go back, starting at [t0]. *)
Fixpoint nondecreasing (t0 : Go.Time) (instants : list Go.Time) : Prop :=
  match instants with
  | [] => True
  | t1 :: rest => t0 <= t1 /\ nondecreasing t1 rest
  end.

(** A bulkhead with the clock, as the state [Bulkhead.Execute] runs in. *)
Definition Cell : Type := (Bulkhead.t * Go.Time)%type.
Definition cell_now (c : Cell) : Go.Time := snd c.
Definition cell_get (c : Cell) : Bulkhead.t := fst c.
Definition cell_set (b : Bulkhead.t) (c : Cell) : Cell := (b, snd c).

(** The error [HTTPClient.Send] makes for a round trip answered with an
    error status. *)
Definition status_error (request : Request) (r : HttpResponse) : HTTPError.t :=
  {| HTTPError.Request := Some request;
     HTTPError.Response := Some {| HttpResp := r; RequestRef := request |};
     HTTPError.StatusCode := StatusCode r;
     HTTPError.Message := Method request ++ " request returned error status "
                            ++ Go.itoa (StatusCode r);
     HTTPError.Err := None |}.

(** The world after a round trip that took [took]. *)
Definition after_trip (took : Go.Duration) (w : runtime.World) : runtime.World :=
  {| runtime.clock := runtime.clock w + Z.max 0 took;
     runtime.roundTrips := runtime.roundTrips w + 1;
     runtime.breaker := runtime.breaker w |}.

(** The world after a backoff of [delay] that no cancellation interrupts. *)
Definition after_backoff (sched : runtime.Scheduler) (delay : Go.Duration)
    (w : runtime.World) : runtime.World :=
  runtime.set_clock (runtime.clock w + Z.max 0 delay + runtime.lag sched) w.

End runs.

(* ================================================================== *)
(** ** Concrete requests, errors and transports *)

Module scenarios.
Import models.

Definition get : Request :=
  {| Method := "GET"; URL := "http://upstream/health"; Ctx := Go.Background |}.

(** A connection that is refused: a network error that is no timeout, as
    [HTTPClient.Send] reports it. *)
Definition refused : HTTPError.t :=
  {| HTTPError.Request := Some get; HTTPError.Response := None;
     HTTPError.StatusCode := 0; HTTPError.Message := "GET request failed";
     HTTPError.Err := Some (NetError "dial tcp: connection refused" false) |}.

(** A 404 answer whose error also wraps a timeout. *)
Definition timed_out_404 : HTTPError.t :=
  {| HTTPError.Request := Some get; HTTPError.Response := None;
     HTTPError.StatusCode := 404; HTTPError.Message := "GET request failed";
     HTTPError.Err := Some (NetError "i/o timeout" true) |}.

(** Work done under a bulkhead slot: it takes one nanosecond and returns
    without a response or an error. *)
Definition held : runs.Cell -> Bulkhead.Outcome * runs.Cell :=
  fun c => (Bulkhead.Returned (None, None), (fst c, snd c + 1)).

(** Work that panics while it holds a slot. *)
Definition crash : runs.Cell -> Bulkhead.Outcome * runs.Cell :=
  fun c => (Bulkhead.Panicked "boom", (fst c, snd c + 1)).

(** [Bulkhead.Execute] on a bulkhead with the clock, under
    [context.Background()]. *)
Definition guarded (fn : runs.Cell -> Bulkhead.Outcome * runs.Cell)
  : runs.Cell -> Bulkhead.Outcome * runs.Cell :=
  Bulkhead.Execute runs.cell_now runs.cell_get runs.cell_set true Go.Background fn.

(** An HTTP client whose every round trip takes 5 ms and is answered with
    the given status. *)
Definition answering (status : Z) : HTTPClient.t :=
  {| HTTPClient.httpClient :=
       {| HTTPClient.Do := fun _ _ _ _ =>
            (HTTPClient.Answer {| StatusCode := status; Body := "" |},
             5 * Go.Millisecond) |};
     HTTPClient.timeout := 30 * Go.Second |}.

(** An HTTP client whose every connection is refused after 1 ms. *)
Definition refusing : HTTPClient.t :=
  {| HTTPClient.httpClient :=
       {| HTTPClient.Do := fun _ _ _ _ =>
            (HTTPClient.Failure (NetError "dial tcp: connection refused" false),
             Go.Millisecond) |};
     HTTPClient.timeout := 30 * Go.Second |}.

(** An HTTP client whose every round trip times out after 50 ms. *)
Definition timing_out : HTTPClient.t :=
  {| HTTPClient.httpClient :=
       {| HTTPClient.Do := fun _ _ _ _ =>
            (HTTPClient.Failure (NetError "i/o timeout" true), 50 * Go.Millisecond) |};
     HTTPClient.timeout := 50 * Go.Millisecond |}.

(** A world at instant 0, before any round trip, with a fresh breaker
    [circuitBreaker(2, 1s)]. *)
Definition fresh : runtime.World :=
  {| runtime.clock := 0; runtime.roundTrips := 0;
     runtime.breaker := CircuitBreaker.NewCircuitBreaker 2 Go.Second |}.

(** Timers fire 1 ms late. *)
Definition late : runtime.Scheduler :=
  {| runtime.lag := Go.Millisecond; runtime.pick := true |}.

(** [retry(maxAttempts)] around the client. *)
Definition retry (maxAttempts : Z) (c : HTTPClient.t) : interfaces.IHTTPClient :=
  RetryDecorator.Send late
    (RetryDecorator.NewRetryDecorator (HTTPClient.Send c)
       (RetryPolicy_as_IRetryPolicy Go.amd64_overflow
          (RetryPolicy.NewRetryPolicy maxAttempts))).

(** [retry(maxAttempts)] around the circuit breaker around the client. *)
Definition retry_breaker (maxAttempts : Z) (c : HTTPClient.t) : interfaces.IHTTPClient :=
  RetryDecorator.Send late
    (RetryDecorator.NewRetryDecorator
       (CircuitBreakerDecorator.Send
          (CircuitBreakerDecorator.NewCircuitBreakerDecorator (HTTPClient.Send c)))
       (RetryPolicy_as_IRetryPolicy Go.amd64_overflow
          (RetryPolicy.NewRetryPolicy maxAttempts))).

End scenarios.

(* ================================================================== *)
(** ** More of the retry policy *)

Module RetryPolicyOps.

(** [rp.retryableErrors = append(rp.retryableErrors, code)]. *)
Definition AddRetryableStatusCode (rp : RetryPolicy.t) (code : Z) : RetryPolicy.t :=
  {| RetryPolicy.maxAttempts := RetryPolicy.maxAttempts rp;
     RetryPolicy.initialDelay := RetryPolicy.initialDelay rp;
     RetryPolicy.maxDelay := RetryPolicy.maxDelay rp;
     RetryPolicy.multiplier := RetryPolicy.multiplier rp;
     RetryPolicy.retryableErrors := RetryPolicy.retryableErrors rp ++ [code] |}.

End RetryPolicyOps.

(* ================================================================== *)
(** ** Sequential use of one circuit breaker *)

Module breaker_runs.
Import models.

(** The breaker with the clock: the state [CircuitBreaker.Execute] runs in
    when nothing else is shared. *)
Definition Cell : Type := (CircuitBreaker.t * Go.Time)%type.
Definition cell_now (c : Cell) : Go.Time := snd c.
Definition cell_get (c : Cell) : CircuitBreaker.t := fst c.
Definition cell_set (cb : CircuitBreaker.t) (c : Cell) : Cell := (cb, snd c).

(** One call through the breaker: the instant it starts, how long the
    wrapped function takes, and what the function returns. *)
Record Call : Type := {
  start : Go.Time;
  took : Go.Duration;
  outcome : Result
}.

(** The wrapped function of a call: it leaves the breaker alone, lets
    [took] pass and returns [outcome]. *)
Definition work (call : Call) : Cell -> Result * Cell :=
  fun c => (outcome call, (fst c, snd c + Z.max 0 (took call))).

(** [Execute] for one call, on the breaker. *)
Definition execute (call : Call) (cb : CircuitBreaker.t) : Result * CircuitBreaker.t :=
  let '(r, c) := CircuitBreaker.Execute cell_now cell_get cell_set Go.Background
                   (work call) (cb, start call) in
  (r, fst c).

(** The calls of a run, one after the other, oldest first. *)
Definition execute_all (calls : list Call) (cb : CircuitBreaker.t) : CircuitBreaker.t :=
  fold_left (fun cb call => snd (execute call cb)) calls cb.

(** What a breaker keeps in sequential use: closed, [successCount] is 0 and
    [failureCount] is below the threshold (or 0); open, both counters are 0;
    half-open, [failureCount] is 0 and [successCount] is below its threshold
    (or 0). *)
Definition counters_inv (cb : CircuitBreaker.t) : Prop :=
  match CircuitBreaker.state cb with
  | CircuitBreaker.StateClosed =>
      CircuitBreaker.successCount cb = 0
      /\ 0 <= CircuitBreaker.failureCount cb
      /\ (CircuitBreaker.failureCount cb < CircuitBreaker.failureThreshold cb
          \/ CircuitBreaker.failureCount cb = 0)
  | CircuitBreaker.StateOpen =>
      CircuitBreaker.failureCount cb = 0 /\ CircuitBreaker.successCount cb = 0
  | CircuitBreaker.StateHalfOpen =>
      CircuitBreaker.failureCount cb = 0
      /\ 0 <= CircuitBreaker.successCount cb
      /\ (CircuitBreaker.successCount cb < CircuitBreaker.successThreshold cb
          \/ CircuitBreaker.successCount cb = 0)
  end.

(** Two breakers that gate alike: the same state, counters, thresholds and
    timeout; the time stamps may differ. *)
Definition same_gate (a b : CircuitBreaker.t) : Prop :=
  CircuitBreaker.state a = CircuitBreaker.state b
  /\ CircuitBreaker.failureCount a = CircuitBreaker.failureCount b
  /\ CircuitBreaker.successCount a = CircuitBreaker.successCount b
  /\ CircuitBreaker.failureThreshold a = CircuitBreaker.failureThreshold b
  /\ CircuitBreaker.successThreshold a = CircuitBreaker.successThreshold b
  /\ CircuitBreaker.timeout a = CircuitBreaker.timeout b.

End breaker_runs.

(* ================================================================== *)
(** ** Response (package models) *)

Module Response.

(** The status predicates of a [models.Response] whose [HttpResp] is not
    nil, as it is in every response [HTTPClient.Send] makes. *)
Definition StatusCode (r : models.Response) : Z :=
  models.StatusCode (models.HttpResp r).

Definition IsSuccess (r : models.Response) : bool :=
  (StatusCode r >=? 200) && (StatusCode r <? 300).

Definition IsError (r : models.Response) : bool := StatusCode r >=? 400.

Definition IsClientError (r : models.Response) : bool :=
  (StatusCode r >=? 400) && (StatusCode r <? 500).

Definition IsServerError (r : models.Response) : bool := StatusCode r >=? 500.

End Response.

(* ================================================================== *)
(** ** Requests sent one after the other through a client *)

Module chain_runs.
Import models runtime.

(** [client.Send] for each of the requests in turn: the results, oldest
    first, and the world left behind. *)
Fixpoint send_all (client : interfaces.IHTTPClient) (requests : list Request)
    (w : World) : list Result * World :=
  match requests with
  | [] => ([], w)
  | request :: rest =>
      let '(r, w) := client request w in
      let '(rs, w) := send_all client rest w in
      (r :: rs, w)
  end.

(** A result that holds both a response and an error. *)
Definition response_and_error (r : Result) : Prop :=
  exists resp e, r = (Some resp, Some e).

End chain_runs.

(* ================================================================== *)
(** ** Asynchronous helpers (package middleware) *)

Module async.
Import models runtime.

(** [interfaces.AsyncResult]. *)
Record AsyncResult : Type := {
  Request : option models.Request;
  Response : option models.Response;
  Error : option error;
  Duration : Go.Duration
}.

(** A request builder of a pipeline: from the previous response, nil at
    first, to the next request, which can be nil. *)
Definition Builder : Type := option models.Response -> option models.Request.

Definition ErrNilRequest : error :=
  HTTPError None None 0 "pipeline: request builder returned nil" None.

(** The goroutine of [Pipeline], entered with [prevResp] before the
    builders that are left: the one result it sends on the channel before
    the channel is closed. *)
Fixpoint steps (client : interfaces.IHTTPClient) (requestBuilders : list Builder)
    (prevResp : option models.Response) (w : World) : AsyncResult * World :=
  match requestBuilders with
  | [] =>
      ({| Request := None; Response := prevResp; Error := None; Duration := 0 |}, w)
  | builder :: rest =>
      match builder prevResp with
      | None =>
          ({| Request := None; Response := None; Error := Some ErrNilRequest;
              Duration := 0 |}, w)
      | Some request =>
          let start := clock w in
          let '((resp, err), w) := client request w in
          let duration := Go.Since (clock w) start in
          match err with
          | Some e =>
              ({| Request := Some request; Response := resp; Error := Some e;
                  Duration := duration |}, w)
          | None => steps client rest resp w
          end
      end
  end.

Definition Pipeline (client : interfaces.IHTTPClient) (requestBuilders : list Builder)
    (w : World) : AsyncResult * World :=
  steps client requestBuilders None w.

(** What a receive from the [results] channel of [FanOut] gives: the next
    result that arrives, or, when every result has been received, nothing
    for ever: no goroutine is left to send and the channel is never
    closed. *)
Inductive Received : Type :=
| Got (r : AsyncResult)
| Forever.

(** The receiving loop of [FanOut] with [n] iterations left, over the
    results in the order in which the goroutines send them, and the final
    receive after the loop. *)
Fixpoint fan_in (n : nat) (arrivals : list AsyncResult) : Received :=
  match n with
  | O =>
      match arrivals with
      | r :: _ => Got r
      | [] => Forever
      end
  | S n =>
      match arrivals with
      | r :: rest =>
          match Error r with
          | None => Got r
          | Some _ => fan_in n rest
          end
      | [] => Forever
      end
  end.

(** [FanOut] for the given requests, when the results of their goroutines
    arrive in the order [arrivals]. *)
Definition FanOut (requests : list models.Request) (arrivals : list AsyncResult) : Received :=
  fan_in (List.length requests) arrivals.

End async.

(* ================================================================== *)
(** ** Contexts that carry values *)

Module context.

(** The values the middlewares store in a context. *)
Inductive any : Type :=
| TimeOf (t : Go.Time)
| StringOf (s : string).

(** A context with the values put in it by [context.WithValue], the latest
    first. *)
Record t : Type := {
  base : Go.Context;
  values : list (string * any)
}.

Definition WithValue (ctx : t) (key : string) (val : any) : t :=
  {| base := base ctx; values := (key, val) :: values ctx |}.

Fixpoint lookup (key : string) (vs : list (string * any)) : option any :=
  match vs with
  | [] => None
  | (k, v) :: rest => if String.eqb k key then Some v else lookup key rest
  end.

(** [ctx.Value(key)]. *)
Definition Value (ctx : t) (key : string) : option any := lookup key (values ctx).

End context.

(* ================================================================== *)
(** ** Middleware hooks (packages interfaces and middleware) *)

Module middleware.
Import models.

Section Hooks.
(** The state the hooks and the wrapped client run in. *)
Context {S : Type}.

(** [interfaces.IMiddleware]. *)
Record IMiddleware : Type := {
  Before : context.t -> Request -> S -> (context.t * option error) * S;
  After : context.t -> Request -> option Response -> option error -> S -> option error * S
}.

(** The loop of [MiddlewareChain.Before]. *)
Fixpoint chain_before (middlewares : list IMiddleware) (ctx : context.t)
    (request : Request) (s : S) : (context.t * option error) * S :=
  match middlewares with
  | [] => ((ctx, None), s)
  | mw :: rest =>
      let '((ctx, err), s) := Before mw ctx request s in
      match err with
      | Some e => ((ctx, Some e), s)
      | None => chain_before rest ctx request s
      end
  end.

(** The loop of [MiddlewareChain.After], over the middlewares from the last
    to the first. *)
Fixpoint chain_after (reversed : list IMiddleware) (ctx : context.t)
    (request : Request) (response : option Response) (err : option error) (s : S)
    : option error * S :=
  match reversed with
  | [] => (None, s)
  | mw :: rest =>
      let '(mwErr, s) := After mw ctx request response err s in
      match mwErr with
      | Some e => (Some e, s)
      | None => chain_after rest ctx request response err s
      end
  end.

(** The first loop of [MiddlewareDecorator.Send]: the context the hooks
    build, or the error of the first hook that fails. *)
Fixpoint before_hooks (middlewares : list IMiddleware) (ctx : context.t)
    (request : Request) (s : S) : (context.t * option error) * S :=
  match middlewares with
  | [] => ((ctx, None), s)
  | mw :: rest =>
      let '((newCtx, err), s) := Before mw ctx request s in
      match err with
      | Some e => ((ctx, Some e), s)
      | None => before_hooks rest newCtx request s
      end
  end.

(** The second loop of [MiddlewareDecorator.Send]: an error of a hook is
    printed and dropped. *)
Fixpoint after_hooks (middlewares : list IMiddleware) (ctx : context.t)
    (request : Request) (response : option Response) (err : option error) (s : S) : S :=
  match middlewares with
  | [] => s
  | mw :: rest =>
      let '(_, s) := After mw ctx request response err s in
      after_hooks rest ctx request response err s
  end.

End Hooks.

Arguments IMiddleware : clear implicits.

End middleware.

Module MiddlewareChain.
Import models middleware.

Section Chain.
Context {S : Type}.

Record t : Type := {
  middlewares : list (IMiddleware S)
}.

Definition NewMiddlewareChain (middlewares : list (IMiddleware S)) : t :=
  {| middlewares := middlewares |}.

Definition Before (mc : t) (ctx : context.t) (request : Request) (s : S)
    : (context.t * option error) * S :=
  chain_before (middlewares mc) ctx request s.

Definition After (mc : t) (ctx : context.t) (request : Request)
    (response : option Response) (err : option error) (s : S) : option error * S :=
  chain_after (rev (middlewares mc)) ctx request response err s.

Definition Add (mc : t) (mw : IMiddleware S) : t :=
  {| middlewares := middlewares mc ++ [mw] |}.

End Chain.

Arguments t : clear implicits.

End MiddlewareChain.

Module MiddlewareDecorator.
Import models middleware.

Section Send.
Context {S : Type}.

Record t : Type := {
  wrapped : Request -> S -> Result * S;
  middlewares : list (IMiddleware S)
}.

Definition NewMiddlewareDecorator (wrapped : Request -> S -> Result * S)
    (middlewares : list (IMiddleware S)) : t :=
  {| wrapped := wrapped; middlewares := middlewares |}.

(** [Send] for a request whose context carries the values [vals]. *)
Definition Send (d : t) (vals : list (string * context.any)) (request : Request) (s : S)
    : Result * S :=
  let ctx := {| context.base := Ctx request; context.values := vals |} in
  let '((ctx, failed), s) := before_hooks (middlewares d) ctx request s in
  match failed with
  | Some e => ((None, Some e), s)
  | None =>
      let '((resp, err), s) := wrapped d request s in
      let s := after_hooks (middlewares d) ctx request resp err s in
      ((resp, err), s)
  end.

End Send.

Arguments t : clear implicits.

End MiddlewareDecorator.

Module MetricsMiddleware.
Import models.

(** The counters; the middleware takes no lock, so it is read here in
    sequential use. *)
Record t : Type := {
  totalRequests : Z;
  successCount : Z;
  errorCount : Z;
  totalDuration : Go.Duration
}.

Definition NewMetricsMiddleware : t :=
  {| totalRequests := 0; successCount := 0; errorCount := 0; totalDuration := 0 |}.

Section Hooks.
(** The middleware is an object of a larger state [S]: [now] reads the
    clock, [get] and [set] read and write the counters. *)
Context {S : Type}.
Variable now : S -> Go.Time.
Variable get : S -> t.
Variable set : t -> S -> S.

Definition Before (ctx : context.t) (request : Request) (s : S)
    : (context.t * option error) * S :=
  ((context.WithValue ctx "metrics_start" (context.TimeOf (now s)), None), s).

Definition After (ctx : context.t) (request : Request) (response : option Response)
    (err : option error) (s : S) : option error * S :=
  match context.Value ctx "metrics_start" with
  | Some (context.TimeOf startTime) =>
      let duration := Go.Since (now s) startTime in
      let mm := get s in
      let total := Go.wrap64 (totalRequests mm + 1) in
      let spent := Go.wrap64 (totalDuration mm + duration) in
      let mm :=
        match err with
        | Some _ =>
            {| totalRequests := total; successCount := successCount mm;
               errorCount := Go.wrap64 (errorCount mm + 1); totalDuration := spent |}
        | None =>
            {| totalRequests := total; successCount := Go.wrap64 (successCount mm + 1);
               errorCount := errorCount mm; totalDuration := spent |}
        end in
      (None, set mm s)
  | _ => (None, s)
  end.

Definition as_IMiddleware : middleware.IMiddleware S :=
  {| middleware.Before := Before; middleware.After := After |}.

End Hooks.

Record MetricsData : Type := {
  TotalRequests : Z;
  SuccessCount : Z;
  ErrorCount : Z;
  TotalDuration : Go.Duration;
  AverageDuration : Go.Duration;
  SuccessRate : Q
}.

Definition GetMetrics (mm : t) : MetricsData :=
  let avgDuration :=
    if totalRequests mm >? 0 then Z.quot (totalDuration mm) (totalRequests mm) else 0 in
  let successRate :=
    if totalRequests mm >? 0
    then (inject_Z (successCount mm) / inject_Z (totalRequests mm) * 100)%Q
    else 0%Q in
  {| TotalRequests := totalRequests mm;
     SuccessCount := successCount mm;
     ErrorCount := errorCount mm;
     TotalDuration := totalDuration mm;
     AverageDuration := avgDuration;
     SuccessRate := successRate |}.

End MetricsMiddleware.

(* ================================================================== *)
(** ** Requests sent one after the other under the metrics middleware *)

Module metrics_runs.
Import models.

(** The counters of the middleware beside the world of the client. *)
Definition State : Type := (MetricsMiddleware.t * runtime.World)%type.
Definition state_now (s : State) : Go.Time := runtime.clock (snd s).
Definition state_get (s : State) : MetricsMiddleware.t := fst s.
Definition state_set (mm : MetricsMiddleware.t) (s : State) : State := (mm, snd s).

(** A client of the world, run in the state; it leaves the counters
    alone. *)
Definition lift (client : interfaces.IHTTPClient) : Request -> State -> Result * State :=
  fun request s =>
    let '(r, w) := client request (snd s) in
    (r, (fst s, w)).

(** The metrics middleware as the one middleware around the client. *)
Definition metered (client : interfaces.IHTTPClient) : MiddlewareDecorator.t State :=
  MiddlewareDecorator.NewMiddlewareDecorator (lift client)
    [MetricsMiddleware.as_IMiddleware state_now state_get state_set].

(** [Send] for each of the requests in turn; [vals] gives the values the
    context of a request carries. *)
Fixpoint send_all (d : MiddlewareDecorator.t State)
    (vals : Request -> list (string * context.any)) (requests : list Request)
    (s : State) : list Result * State :=
  match requests with
  | [] => ([], s)
  | request :: rest =>
      let '(r, s) := MiddlewareDecorator.Send d (vals request) request s in
      let '(rs, s) := send_all d vals rest s in
      (r :: rs, s)
  end.

(** How many of the results carry an error. *)
Definition failures (results : list Result) : Z :=
  Z.of_nat (List.length (filter (fun r => match snd r with Some _ => true | None => false end)
                           results)).

End metrics_runs.

(* ================================================================== *)
(** ** More of the rate limiter *)

Module RateLimiterOps.
Import models.

(** How [Wait] stands after some turns of its loop: the caller is
    admitted, the context ended first, or the loop is still running. *)
Inductive Waited : Type :=
| Allowed
| Cancelled (err : error)
| Waiting.

Section Wait.
(** Whether the platform fuses the product and the sum of [refill], and
    what it yields for the conversion to a duration of a float64 that is out
    of the 64-bit range, an infinity or NaN. *)
Variable fused : bool.
Variable convert : float64.t -> Z.
Variable sched : runtime.Scheduler.

Definition calculateWaitTime (now : Go.Time) (rl : RateLimiter.t)
    : Go.Duration * RateLimiter.t :=
  let rl := RateLimiter.refill fused now rl in
  if float64.ge (RateLimiter.tokens rl) (float64.Finite 1) then (0, rl)
  else
    let tokensNeeded := float64.sub (float64.Finite 1) (RateLimiter.tokens rl) in
    let secondsToWait := float64.div tokensNeeded (RateLimiter.rate rl) in
    (Go.float64_to_Duration convert
       (float64.mul secondsToWait (float64.of_int Go.Second)), rl).

(** The [select] between [ctx.Done()] and [time.After(waitTime)]: whether
    the timer case is taken, and the instant at which the [select]
    returns.  A timer whose wait is zero or negative and a context that is
    already done are both ready when the [select] is reached, which then
    takes either case; otherwise the case that is ready first is taken. *)
Definition sleep (ctx : Go.Context) (waitTime : Go.Duration) (now : Go.Time)
    : bool * Go.Time :=
  let fire := now + Z.max 0 waitTime + runtime.lag sched in
  match Go.cancelAt ctx with
  | None => (true, fire)
  | Some c =>
      let done := Z.max now c in
      if (c <=? now) && (waitTime <=? 0) then
        if runtime.pick sched then (true, fire) else (false, done)
      else if done <? fire then (false, done)
      else if fire <? done then (true, fire)
      else (runtime.pick sched, fire)
  end.

(** The loop of [Wait], entered when the clock reads [now]; [fuel] bounds
    the turns.  Time passes only in the [select]. *)
Fixpoint Wait (fuel : nat) (ctx : Go.Context) (now : Go.Time) (rl : RateLimiter.t)
    : Waited * (RateLimiter.t * Go.Time) :=
  match fuel with
  | O => (Waiting, (rl, now))
  | S fuel =>
      let '(ok, rl) := RateLimiter.Allow fused now rl in
      if ok then (Allowed, (rl, now))
      else
        let '(waitTime, rl) := calculateWaitTime now rl in
        let '(fired, now) := sleep ctx waitTime now in
        if fired then Wait fuel ctx now rl
        else (Cancelled (ctxErr ctx), (rl, now))
  end.

End Wait.

End RateLimiterOps.

Module RateLimiterDecorator.
Import models runtime interfaces.

(** The decorator holds the wrapped client; its rate limiter stands beside
    the world. *)
Record t : Type := {
  wrapped : IHTTPClient
}.

Definition NewRateLimiterDecorator (wrapped : IHTTPClient) : t :=
  {| wrapped := wrapped |}.

Definition ErrCancelled (request : Request) : error :=
  HTTPError (Some request) None 0 "request cancelled before rate limiting"
    (Some (ctxErr (Ctx request))).

Definition ErrRateLimit (request : Request) (err : error) : error :=
  HTTPError (Some request) None 0 "rate limit exceeded" (Some err).

Section Send.
Variable fused : bool.
Variable convert : float64.t -> Z.
Variable sched : Scheduler.

(** [Send], with [fuel] turns for the loop of [Wait]; no result while that
    loop is still running. *)
Definition Send (fuel : nat) (d : t) (request : Request)
    (s : RateLimiter.t * World) : option Result * (RateLimiter.t * World) :=
  let '(rl, w) := s in
  if Go.Done (Ctx request) (clock w) then
    (Some (None, Some (ErrCancelled request)), (rl, w))
  else
    match RateLimiterOps.Wait fused convert sched fuel (Ctx request) (clock w) rl with
    | (RateLimiterOps.Allowed, (rl, now)) =>
        let '(r, w) := wrapped d request (set_clock now w) in
        (Some r, (rl, w))
    | (RateLimiterOps.Cancelled err, (rl, now)) =>
        (Some (None, Some (ErrRateLimit request err)), (rl, set_clock now w))
    | (RateLimiterOps.Waiting, (rl, now)) => (None, (rl, set_clock now w))
    end.

End Send.

End RateLimiterDecorator.

(* ================================================================== *)
(** ** LoggingDecorator (package middleware) *)

Module LoggingDecorator.
Import models runtime interfaces.

Record t : Type := {
  wrapped : IHTTPClient
}.


(** How [Send] ends: it returns, or it panics. *)
Inductive Outcome : Type :=
| Returned (r : Result)
| Panicked (v : string).

(** [Send], without the lines it prints.  With a nil error it prints
    [resp.StatusCode()], which panics on a nil response. *)
Definition Send (d : t) (request : Request) (w : World) : Outcome * World :=
  let '((resp, err), w) := wrapped d request w in
  match err with
  | Some _ => (Returned (resp, err), w)
  | None =>
      match resp with
      | Some _ => (Returned (resp, err), w)
      | None => (Panicked "runtime error: invalid memory address or nil pointer dereference", w)
      end
  end.

End LoggingDecorator.

(* ================================================================== *)
(** ** Response handlers (SendWithHandler) *)

Module handlers.
Import models runtime interfaces.

Section Handlers.
(** The values a handler makes of a response. *)
Context {V : Type}.

(** [interfaces.IResponseHandler], for handlers that keep no state. *)
Record IResponseHandler : Type := {
  Handle : option Response -> option V * option error;
  HandleError : option Response -> option error;
  CanHandle : option Response -> bool
}.

Definition ErrCannotHandle (request : Request) (resp : option Response) : error :=
  HTTPError (Some request) resp 0 "handler cannot process this response" None.

(** [HTTPClient.SendWithHandler] for a handler that is not nil. *)
Definition HTTPClient_SendWithHandler (c : HTTPClient.t) (request : Request)
    (handler : IResponseHandler) (w : World) : (option V * option error) * World :=
  let '((resp, err), w) := HTTPClient.Send c request w in
  match err with
  | Some e =>
      match resp with
      | Some _ =>
          if CanHandle handler resp then
            match HandleError handler resp with
            | Some handlerErr => ((None, Some handlerErr), w)
            | None => ((None, Some e), w)
            end
          else ((None, Some e), w)
      | None => ((None, Some e), w)
      end
  | None =>
      if negb (CanHandle handler resp) then
        ((None, Some (ErrCannotHandle request resp)), w)
      else (Handle handler resp, w)
  end.

(** [CircuitBreakerDecorator.SendWithHandler] for a handler that is not
    nil; the other decorators have the same method around their own
    [Send]. *)
Definition CircuitBreakerDecorator_SendWithHandler (d : CircuitBreakerDecorator.t)
    (request : Request) (handler : IResponseHandler) (w : World)
    : (option V * option error) * World :=
  let '((resp, err), w) := CircuitBreakerDecorator.Send d request w in
  match err with
  | Some e => ((None, Some e), w)
  | None => (Handle handler resp, w)
  end.

End Handlers.

Arguments IResponseHandler : clear implicits.

End handlers.

(* ================================================================== *)
(** ** Invariants of the runs *)

(** What holds of a breaker that has only recorded results since it was
    made: it is closed with [failureCount] the current streak, which is
    below the threshold unless it is 0, or it is open. *)
Definition recorded_inv (threshold : Z) (evs : list runs.Recorded) (cb : CircuitBreaker.t) : Prop :=
  CircuitBreaker.failureThreshold cb = threshold
  /\ match CircuitBreaker.state cb with
     | CircuitBreaker.StateClosed =>
         CircuitBreaker.failureCount cb = runs.streak evs
         /\ (runs.streak evs < threshold \/ runs.streak evs = 0)
     | CircuitBreaker.StateOpen => True
     | CircuitBreaker.StateHalfOpen => False
     end.

(** What holds of a rate limiter made at [t0] with a finite rate that is
    not negative and a burst between 0 and 2^53, under a clock that never goes
    back: the configuration is unchanged, the last refill is neither before
    [t0] nor in the future, and the tokens are a binary64 number between 0 and
    [burst]. *)
Definition limiter_inv (rate : Q) (burst : Z) (t0 now : Go.Time) (rl : RateLimiter.t) : Prop :=
  RateLimiter.rate rl = float64.Finite rate
  /\ RateLimiter.burst rl = burst
  /\ t0 <= RateLimiter.lastRefillTime rl <= now
  /\ exists t : Q,
       RateLimiter.tokens rl = float64.Finite t
       /\ (0 <= t)%Q /\ (t <= inject_Z burst)%Q /\ (float64.round64 t == t)%Q.

(** The tokens a refill reaches before the cap: a binary64 number that is
    not negative, or the positive infinity. *)
Definition grown (x : float64.t) : Prop :=
  x = float64.PosInf
  \/ exists s : Q, x = float64.Finite s /\ (0 <= s)%Q /\ (float64.round64 s == s)%Q.

(* ================================================================== *)
(** * Properties *)

(** ** Integer helpers *)

Lemma wrap64_id (z : Z) : Go.in_int64 z -> Go.wrap64 z = z.
Proof.
  unfold Go.in_int64, Go.wrap64, Go.MinInt64, Go.MaxInt64. intros H.
  rewrite Z.mod_small; lia.
Qed.

Lemma in_int64b_true (z : Z) : Go.in_int64b z = true <-> Go.in_int64 z.
Proof.
  unfold Go.in_int64b, Go.in_int64.
  rewrite andb_true_iff, !Z.leb_le. tauto.
Qed.

Lemma truncate_inject_Z (z : Z) : Go.truncate (inject_Z z) = z.
Proof. unfold Go.truncate. simpl. apply Z.quot_1_r. Qed.

(** ** HTTPError and RetryPolicy.ShouldRetry *)

Lemma of_error_to_error (e : HTTPError.t) :
  HTTPError.of_error (HTTPError.to_error e) = Some e.
Proof. destruct e; reflexivity. Qed.

Lemma IsTimeout_IsNetworkError (e : HTTPError.t) :
  HTTPError.IsTimeout e = true -> HTTPError.IsNetworkError e = true.
Proof.
  unfold HTTPError.IsTimeout, HTTPError.IsNetworkError.
  destruct (HTTPError.Err e) as [inner|]; [|discriminate].
  destruct (models.As_netError inner); [reflexivity|discriminate].
Qed.

Lemma IsTemporary_not_timeout (e : HTTPError.t) :
  HTTPError.IsTimeout e = false ->
  HTTPError.IsTemporary e = HTTPError.IsServerError e.
Proof.
  unfold HTTPError.IsTemporary, HTTPError.IsServerError. intros Ht.
  destruct (HTTPError.Err e); [rewrite Ht|];
    destruct ((HTTPError.StatusCode e >=? 500) && (HTTPError.StatusCode e <? 600));
    reflexivity.
Qed.

Lemma client_not_server (e : HTTPError.t) :
  HTTPError.IsClientError e = true -> HTTPError.IsServerError e = false.
Proof.
  unfold HTTPError.IsClientError, HTTPError.IsServerError.
  rewrite andb_true_iff, andb_false_iff. intros [_ H]. left. lia.
Qed.

(** An attempt below the limit, on an error that is not a timeout, is
    retried exactly for the 5xx and the listed status codes. *)
Lemma ShouldRetry_not_timeout (rp : RetryPolicy.t) (e : HTTPError.t) (attempt : Z) :
  attempt < RetryPolicy.maxAttempts rp ->
  HTTPError.IsTimeout e = false ->
  RetryPolicy.ShouldRetry rp (HTTPError.to_error e) attempt
    = HTTPError.IsServerError e || RetryPolicy.listed rp (HTTPError.StatusCode e).
Proof.
  intros Hlt Ht. unfold RetryPolicy.ShouldRetry.
  replace (attempt >=? RetryPolicy.maxAttempts rp) with false by lia.
  rewrite of_error_to_error, Ht, (IsTemporary_not_timeout e Ht). simpl.
  destruct (HTTPError.IsServerError e) eqn:Hs; simpl; [reflexivity|].
  destruct (RetryPolicy.listed rp (HTTPError.StatusCode e)); [reflexivity|].
  destruct (HTTPError.IsClientError e); reflexivity.
Qed.

Lemma ShouldRetry_timeout (rp : RetryPolicy.t) (e : HTTPError.t) (attempt : Z) :
  attempt < RetryPolicy.maxAttempts rp ->
  HTTPError.IsTimeout e = true ->
  RetryPolicy.ShouldRetry rp (HTTPError.to_error e) attempt = true.
Proof.
  intros Hlt Ht. unfold RetryPolicy.ShouldRetry.
  replace (attempt >=? RetryPolicy.maxAttempts rp) with false by lia.
  rewrite of_error_to_error, Ht. reflexivity.
Qed.

Lemma ShouldRetry_server (rp : RetryPolicy.t) (e : HTTPError.t) (attempt : Z) :
  attempt < RetryPolicy.maxAttempts rp ->
  HTTPError.IsServerError e = true ->
  RetryPolicy.ShouldRetry rp (HTTPError.to_error e) attempt = true.
Proof.
  intros Hlt Hs. destruct (HTTPError.IsTimeout e) eqn:Ht.
  - now apply ShouldRetry_timeout.
  - rewrite ShouldRetry_not_timeout, Hs by assumption. reflexivity.
Qed.

(** An error that is no [HTTPError] is never retried. *)
Lemma ShouldRetry_ErrorString (rp : RetryPolicy.t) (msg : string) (attempt : Z) :
  RetryPolicy.ShouldRetry rp (models.ErrorString msg) attempt = false.
Proof.
  unfold RetryPolicy.ShouldRetry.
  destruct (attempt >=? RetryPolicy.maxAttempts rp); reflexivity.
Qed.

(** C3, as stated, fails: a network error that is not a timeout is not
    retried although the attempt is below [maxAttempts]. *)
Lemma ShouldRetry_network_error_refuted :
  ~ (forall (rp : RetryPolicy.t) (e : HTTPError.t) (attempt : Z),
        HTTPError.IsTimeout e = true \/ HTTPError.IsNetworkError e = true ->
        attempt < RetryPolicy.maxAttempts rp ->
        RetryPolicy.ShouldRetry rp (HTTPError.to_error e) attempt = true).
Proof.
  intros H.
  specialize (H (RetryPolicy.NewRetryPolicy 3) scenarios.refused 0).
  assert (Hf : RetryPolicy.ShouldRetry (RetryPolicy.NewRetryPolicy 3)
                 (HTTPError.to_error scenarios.refused) 0 = false) by reflexivity.
  rewrite H in Hf; [discriminate | right; reflexivity | reflexivity].
Qed.

(** C3, amended: below [maxAttempts] every timeout is retried; an error that
    is not a timeout, network error or not, is retried exactly when its
    status code is 5xx or listed in the retryable set; so a 4xx error that is
    not a timeout is retried only when its status code is listed. *)
Theorem ShouldRetry_by_class (rp : RetryPolicy.t) (e : HTTPError.t) (attempt : Z) :
  attempt < RetryPolicy.maxAttempts rp ->
  (HTTPError.IsTimeout e = true ->
     RetryPolicy.ShouldRetry rp (HTTPError.to_error e) attempt = true)
  /\ (HTTPError.IsTimeout e = false ->
        RetryPolicy.ShouldRetry rp (HTTPError.to_error e) attempt
          = HTTPError.IsServerError e || RetryPolicy.listed rp (HTTPError.StatusCode e))
  /\ (HTTPError.IsClientError e = true -> HTTPError.IsTimeout e = false ->
        RetryPolicy.ShouldRetry rp (HTTPError.to_error e) attempt = true ->
        RetryPolicy.listed rp (HTTPError.StatusCode e) = true).
Proof.
  intros Hlt. split; [|split].
  - now apply ShouldRetry_timeout.
  - now apply ShouldRetry_not_timeout.
  - intros Hc Ht Hr.
    rewrite ShouldRetry_not_timeout, (client_not_server e Hc) in Hr by assumption.
    exact Hr.
Qed.

Lemma ShouldRetry_by_class_witness :
  RetryPolicy.ShouldRetry (RetryPolicy.NewRetryPolicy 3)
    (HTTPError.to_error scenarios.timed_out_404) 2 = true.
Proof.
  apply (proj1 (ShouldRetry_by_class (RetryPolicy.NewRetryPolicy 3) scenarios.timed_out_404 2
                  ltac:(reflexivity))).
  reflexivity.
Defined.

(** ** RetryPolicy.GetDelay *)

Lemma GetDelay_zero (overflow : Q -> Z) (rp : RetryPolicy.t) :
  RetryPolicy.GetDelay overflow rp 0 = 0.
Proof. reflexivity. Qed.

(** While the product fits a 64-bit integer the delay is the capped,
    truncated product, on every platform. *)
Lemma GetDelay_in_range (overflow : Q -> Z) (rp : RetryPolicy.t) (attempt : Z) :
  0 <= attempt < Go.MaxInt64 ->
  Go.in_int64 (Go.truncate (inject_Z (RetryPolicy.initialDelay rp)
                            * Qpower (RetryPolicy.multiplier rp) attempt)) ->
  RetryPolicy.GetDelay overflow rp (attempt + 1)
    = Z.min (RetryPolicy.maxDelay rp)
        (Go.truncate (inject_Z (RetryPolicy.initialDelay rp)
                      * Qpower (RetryPolicy.multiplier rp) attempt)).
Proof.
  intros H0 Hr. unfold RetryPolicy.GetDelay, Go.float64_to_int64.
  replace (attempt + 1 =? 0) with false by lia.
  replace (attempt + 1 - 1) with attempt by lia.
  rewrite (wrap64_id attempt)
    by (unfold Go.in_int64, Go.MinInt64, Go.MaxInt64 in *; lia).
  apply in_int64b_true in Hr. rewrite Hr.
  destruct (Z.gtb_spec (Go.truncate (inject_Z (RetryPolicy.initialDelay rp)
                                     * Qpower (RetryPolicy.multiplier rp) attempt))
              (RetryPolicy.maxDelay rp)); lia.
Qed.

(** C4: [GetDelay] converts the product to a duration before it caps it.
    With the default policy and 40 attempts, the product for attempt 37,
    10^8 * 2^37 ns, is above the largest int64; on amd64 its conversion is the
    smallest int64, which the cap lets through, where the capped product is
    the 30 s of [maxDelay]. *)
Theorem GetDelay_overflow_amd64 :
  37 < RetryPolicy.maxAttempts (RetryPolicy.NewRetryPolicy 40)
  /\ RetryPolicy.GetDelay Go.amd64_overflow (RetryPolicy.NewRetryPolicy 40) (37 + 1)
       = Go.MinInt64
  /\ Z.min (RetryPolicy.maxDelay (RetryPolicy.NewRetryPolicy 40))
       (Go.truncate (inject_Z (RetryPolicy.initialDelay (RetryPolicy.NewRetryPolicy 40))
                     * Qpower (RetryPolicy.multiplier (RetryPolicy.NewRetryPolicy 40)) 37))
       = 30 * Go.Second.
Proof. repeat split. Qed.

(** ** CircuitBreaker: recorded results *)

Lemma record_all_snoc (evs : list runs.Recorded) (ev : runs.Recorded) (cb : CircuitBreaker.t) :
  runs.record_all (evs ++ [ev]) cb
    = CircuitBreaker.recordResult (fst ev) (snd ev) (runs.record_all evs cb).
Proof. unfold runs.record_all. now rewrite fold_left_app. Qed.

Lemma streak_snoc (evs : list runs.Recorded) (ev : runs.Recorded) :
  runs.streak (evs ++ [ev])
    = match snd ev with Some _ => runs.streak evs + 1 | None => 0 end.
Proof. unfold runs.streak. now rewrite fold_left_app. Qed.

Lemma streak_nonneg (evs : list runs.Recorded) : 0 <= runs.streak evs.
Proof.
  induction evs as [|ev evs IH] using rev_ind; [reflexivity|].
  rewrite streak_snoc. destruct (snd ev); lia.
Qed.

Lemma recordResult_threshold (now : Go.Time) (err : option models.error) (cb : CircuitBreaker.t) :
  CircuitBreaker.failureThreshold (CircuitBreaker.recordResult now err cb)
    = CircuitBreaker.failureThreshold cb.
Proof.
  destruct cb as [st fc sc lf ls ft stt tm], err; simpl;
    unfold CircuitBreaker.onFailure, CircuitBreaker.onSuccess; simpl;
    destruct st; simpl; try reflexivity.
  - destruct (Go.wrap64 (fc + 1) >=? ft); reflexivity.
  - destruct (Go.wrap64 (sc + 1) >=? stt); reflexivity.
Qed.

Lemma recorded_inv_step (threshold : Z) (evs : list runs.Recorded) (ev : runs.Recorded)
    (cb : CircuitBreaker.t) :
  Go.in_int64 threshold ->
  recorded_inv threshold evs cb ->
  recorded_inv threshold (evs ++ [ev])
    (CircuitBreaker.recordResult (fst ev) (snd ev) cb).
Proof.
  intros Hth [Hft Hst]. split; [now rewrite recordResult_threshold|].
  rewrite streak_snoc. pose proof (streak_nonneg evs) as Hs.
  destruct cb as [st fc sc lf ls ft stt tm]. simpl in *. subst ft.
  destruct st; [| |contradiction].
  - destruct Hst as [Hfc Hlt]. subst fc.
    destruct (snd ev) as [e|]; simpl; unfold CircuitBreaker.onFailure; simpl.
    + rewrite wrap64_id
        by (unfold Go.in_int64, Go.MinInt64, Go.MaxInt64 in *; lia).
      destruct (Z.geb_spec (runs.streak evs + 1) threshold); simpl; [trivial|].
      split; [reflexivity | lia].
    + split; [reflexivity | lia].
  - destruct (snd ev); simpl; trivial.
Qed.

Lemma recorded_inv_all (threshold : Z) (timeout : Go.Duration) (evs : list runs.Recorded) :
  Go.in_int64 threshold ->
  recorded_inv threshold evs
    (runs.record_all evs (CircuitBreaker.NewCircuitBreaker threshold timeout)).
Proof.
  intros Hth. induction evs as [|ev evs IH] using rev_ind.
  - split; [reflexivity|]. simpl. split; [reflexivity | now right].
  - rewrite record_all_snoc. now apply recorded_inv_step.
Qed.

(** C5: a breaker made closed records a sequence of results.  As long as it
    is closed, recording one more result opens it exactly when that result is
    a failure and the failures since the last success, this one included,
    reach [failureThreshold]: never below it, and with a threshold of at least
    1 at exactly the threshold-th failure in a row.  On opening
    [failureCount] is 0, and a success recorded while closed leaves the
    breaker closed with [failureCount] 0. *)
Theorem CircuitBreaker_opens_at_threshold
    (threshold : Z) (timeout : Go.Duration)
    (evs : list runs.Recorded) (ev : runs.Recorded) :
  Go.in_int64 threshold ->
  CircuitBreaker.state
    (runs.record_all evs (CircuitBreaker.NewCircuitBreaker threshold timeout))
    = CircuitBreaker.StateClosed ->
  let cb' := runs.record_all (evs ++ [ev])
               (CircuitBreaker.NewCircuitBreaker threshold timeout) in
  (CircuitBreaker.state cb' = CircuitBreaker.StateOpen
     <-> snd ev <> None /\ threshold <= runs.streak (evs ++ [ev]))
  /\ (CircuitBreaker.state cb' <> CircuitBreaker.StateOpen ->
        CircuitBreaker.state cb' = CircuitBreaker.StateClosed)
  /\ (1 <= threshold -> CircuitBreaker.state cb' = CircuitBreaker.StateOpen ->
        runs.streak (evs ++ [ev]) = threshold)
  /\ (CircuitBreaker.state cb' = CircuitBreaker.StateOpen ->
        CircuitBreaker.failureCount cb' = 0)
  /\ (snd ev = None ->
        CircuitBreaker.state cb' = CircuitBreaker.StateClosed
        /\ CircuitBreaker.failureCount cb' = 0).
Proof.
  intros Hth Hclosed cb'. subst cb'. rewrite record_all_snoc, streak_snoc.
  pose proof (recorded_inv_all threshold timeout evs Hth) as [Hft Hst].
  pose proof (streak_nonneg evs) as Hs.
  destruct (runs.record_all evs (CircuitBreaker.NewCircuitBreaker threshold timeout))
    as [st fc sc lf ls ft stt tm].
  simpl in *. subst st ft. destruct Hst as [Hfc Hlt]. subst fc.
  destruct (snd ev) as [e|]; simpl; unfold CircuitBreaker.onFailure; simpl.
  - rewrite wrap64_id
      by (unfold Go.in_int64, Go.MinInt64, Go.MaxInt64 in *; lia).
    destruct (Z.geb_spec (runs.streak evs + 1) threshold); simpl.
    + repeat split; try congruence; try lia.
    + repeat split; try congruence; try lia.
  - repeat split; try congruence. intros [Hne _]. congruence.
Qed.

Lemma CircuitBreaker_opens_at_threshold_witness :
  CircuitBreaker.state
    (runs.record_all
       ([(10, Some CircuitBreaker.ErrOpen); (20, None); (30, Some CircuitBreaker.ErrOpen)]
          ++ [(40, Some CircuitBreaker.ErrOpen)])
       (CircuitBreaker.NewCircuitBreaker 2 Go.Second))
    = CircuitBreaker.StateOpen.
Proof.
  apply (proj1 (CircuitBreaker_opens_at_threshold 2 Go.Second
                  [(10, Some CircuitBreaker.ErrOpen); (20, None);
                   (30, Some CircuitBreaker.ErrOpen)]
                  (40, Some CircuitBreaker.ErrOpen)
                  ltac:(unfold Go.in_int64, Go.MinInt64, Go.MaxInt64; lia)
                  ltac:(reflexivity))).
  split; [discriminate | reflexivity].
Defined.

(** A failure that opens the breaker stamps [lastFailureTime] with the
    instant it is recorded and leaves [failureCount] at 0. *)
Lemma onFailure_opens (now : Go.Time) (cb : CircuitBreaker.t) :
  CircuitBreaker.state cb <> CircuitBreaker.StateOpen ->
  CircuitBreaker.state (CircuitBreaker.onFailure now cb) = CircuitBreaker.StateOpen ->
  CircuitBreaker.lastFailureTime (CircuitBreaker.onFailure now cb) = now
  /\ CircuitBreaker.failureCount (CircuitBreaker.onFailure now cb) = 0.
Proof.
  destruct cb as [st fc sc lf ls ft stt tm]. unfold CircuitBreaker.onFailure. simpl.
  destruct st; simpl; intros Hne Hopen; try congruence.
  - destruct (Go.wrap64 (fc + 1) >=? ft); simpl in *; [now split | discriminate].
  - now split.
Qed.

(** ** CircuitBreaker: admission while open *)

Lemma canExecute_open_early (now : Go.Time) (cb : CircuitBreaker.t) :
  CircuitBreaker.state cb = CircuitBreaker.StateOpen ->
  Go.Since now (CircuitBreaker.lastFailureTime cb) <= CircuitBreaker.timeout cb ->
  CircuitBreaker.canExecute now cb = (false, cb).
Proof.
  intros Hs Hle. unfold CircuitBreaker.canExecute. rewrite Hs.
  destruct (Z.gtb_spec (Go.Since now (CircuitBreaker.lastFailureTime cb))
              (CircuitBreaker.timeout cb)); [lia | reflexivity].
Qed.

Lemma canExecute_open_late (now : Go.Time) (cb : CircuitBreaker.t) :
  CircuitBreaker.state cb = CircuitBreaker.StateOpen ->
  CircuitBreaker.timeout cb < Go.Since now (CircuitBreaker.lastFailureTime cb) ->
  CircuitBreaker.canExecute now cb
    = (true, CircuitBreaker.with_successCount 0
               (CircuitBreaker.with_state CircuitBreaker.StateHalfOpen cb)).
Proof.
  intros Hs Hlt. unfold CircuitBreaker.canExecute. rewrite Hs.
  destruct (Z.gtb_spec (Go.Since now (CircuitBreaker.lastFailureTime cb))
              (CircuitBreaker.timeout cb)); [reflexivity | lia].
Qed.

Lemma check_all_open_early (instants : list Go.Time) (cb : CircuitBreaker.t) :
  CircuitBreaker.state cb = CircuitBreaker.StateOpen ->
  Forall (fun now => Go.Since now (CircuitBreaker.lastFailureTime cb)
                       <= CircuitBreaker.timeout cb) instants ->
  runs.check_all instants cb = (map (fun _ => false) instants, cb).
Proof.
  intros Hs Hall. induction Hall as [|now rest Hnow _ IH]; [reflexivity|].
  simpl. rewrite canExecute_open_early, IH by assumption. reflexivity.
Qed.

(** C6: once the breaker is open, every admission check made while no more
    than [timeout] has passed since [lastFailureTime] answers false and
    leaves the breaker as it is; the first check made after more than
    [timeout] has passed answers true and leaves the breaker half-open with
    [successCount] 0 and nothing else changed. *)
Theorem canExecute_open_until_timeout
    (cb : CircuitBreaker.t) (early : list Go.Time) (late : Go.Time) :
  CircuitBreaker.state cb = CircuitBreaker.StateOpen ->
  Forall (fun now => Go.Since now (CircuitBreaker.lastFailureTime cb)
                       <= CircuitBreaker.timeout cb) early ->
  CircuitBreaker.timeout cb < Go.Since late (CircuitBreaker.lastFailureTime cb) ->
  runs.check_all (early ++ [late]) cb
    = (map (fun _ => false) early ++ [true],
       CircuitBreaker.with_successCount 0
         (CircuitBreaker.with_state CircuitBreaker.StateHalfOpen cb))
  /\ CircuitBreaker.state (snd (runs.check_all (early ++ [late]) cb))
       = CircuitBreaker.StateHalfOpen
  /\ CircuitBreaker.successCount (snd (runs.check_all (early ++ [late]) cb)) = 0.
Proof.
  intros Hs Hearly Hlate.
  assert (H : runs.check_all (early ++ [late]) cb
              = (map (fun _ => false) early ++ [true],
                 CircuitBreaker.with_successCount 0
                   (CircuitBreaker.with_state CircuitBreaker.StateHalfOpen cb))).
  { induction Hearly as [|now rest Hnow _ IH].
    - simpl. now rewrite canExecute_open_late.
    - simpl. rewrite canExecute_open_early by assumption.
      simpl in IH. now rewrite IH. }
  rewrite H. repeat split.
Qed.

Lemma canExecute_open_until_timeout_witness :
  runs.check_all ([150; 1100] ++ [1101])
    (CircuitBreaker.onFailure 100
       (CircuitBreaker.onFailure 90 (CircuitBreaker.NewCircuitBreaker 2 1000)))
  = ([false; false; true],
     CircuitBreaker.with_successCount 0
       (CircuitBreaker.with_state CircuitBreaker.StateHalfOpen
          (CircuitBreaker.onFailure 100
             (CircuitBreaker.onFailure 90 (CircuitBreaker.NewCircuitBreaker 2 1000))))).
Proof.
  apply (proj1 (canExecute_open_until_timeout
                  (CircuitBreaker.onFailure 100
                     (CircuitBreaker.onFailure 90 (CircuitBreaker.NewCircuitBreaker 2 1000)))
                  [150; 1100] 1101
                  ltac:(reflexivity)
                  ltac:(repeat constructor; vm_compute; discriminate)
                  ltac:(reflexivity))).
Defined.

(** ** float64: rounding *)

Section Rounding.
Import float64.
Local Open Scope Q_scope.

Lemma pow2_pos k : 0 < pow2 k.
Proof. unfold pow2. apply Qpower_0_lt. reflexivity. Qed.

Lemma pow2_add a b : pow2 (a + b) == pow2 a * pow2 b.
Proof. unfold pow2. apply Qpower_plus. discriminate. Qed.

Lemma pow2_sub a b : pow2 (a - b) == pow2 a / pow2 b.
Proof. unfold pow2. apply Qpower_minus. discriminate. Qed.

Lemma pow2_lt a b : (a < b)%Z -> pow2 a < pow2 b.
Proof. intros H. unfold pow2. apply Qpower_lt_compat_l; [exact H | reflexivity]. Qed.

Lemma pow2_le a b : (a <= b)%Z -> pow2 a <= pow2 b.
Proof. intros H. unfold pow2. apply Qpower_le_compat_l; [exact H | discriminate]. Qed.

Lemma pow2_lt_inv a b : pow2 a < pow2 b -> (a < b)%Z.
Proof. intros H. apply (Qpower_lt_compat_l_inv 2); [exact H | reflexivity]. Qed.

Lemma pow2_Z n : (0 <= n)%Z -> pow2 n == inject_Z (2 ^ n).
Proof. intros H. unfold pow2. rewrite Zpower_Qpower by exact H. reflexivity. Qed.

Lemma Qdiv_lt_cross (n d A B : Z) :
  (0 < d)%Z -> (0 < B)%Z -> (n * B < A * d)%Z ->
  inject_Z n / inject_Z d < inject_Z A / inject_Z B.
Proof.
  intros Hd HB H.
  assert (Hd' : 0 < inject_Z d) by (rewrite <- (Zlt_Qlt 0); exact Hd).
  assert (HB' : 0 < inject_Z B) by (rewrite <- (Zlt_Qlt 0); exact HB).
  apply Qlt_shift_div_l; [exact HB'|].
  assert (E : inject_Z n / inject_Z d * inject_Z B == (inject_Z n * inject_Z B) / inject_Z d).
  { field. intros E0. rewrite E0 in Hd'. discriminate. }
  rewrite E. apply Qlt_shift_div_r; [exact Hd'|].
  rewrite <- !inject_Z_mult, <- Zlt_Qlt. exact H.
Qed.

Lemma Qdiv_le_cross (n d A B : Z) :
  (0 < d)%Z -> (0 < B)%Z -> (n * B <= A * d)%Z ->
  inject_Z n / inject_Z d <= inject_Z A / inject_Z B.
Proof.
  intros Hd HB H.
  assert (Hd' : 0 < inject_Z d) by (rewrite <- (Zlt_Qlt 0); exact Hd).
  assert (HB' : 0 < inject_Z B) by (rewrite <- (Zlt_Qlt 0); exact HB).
  apply Qle_shift_div_l; [exact HB'|].
  assert (E : inject_Z n / inject_Z d * inject_Z B == (inject_Z n * inject_Z B) / inject_Z d).
  { field. intros E0. rewrite E0 in Hd'. discriminate. }
  rewrite E. apply Qle_shift_div_r; [exact Hd'|].
  rewrite <- !inject_Z_mult, <- Zle_Qle. exact H.
Qed.

Lemma ilog2_spec x : 0 < x -> pow2 (ilog2 x) <= x /\ x < pow2 (ilog2 x + 1).
Proof.
  intros Hx. destruct x as [n d].
  assert (Hn : (0 < n)%Z) by (unfold Qlt in Hx; simpl in Hx; lia).
  pose proof (Z.log2_spec n Hn) as [Hn1 Hn2].
  pose proof (Z.log2_spec (Zpos d) (Pos2Z.is_pos d)) as [Hd1 Hd2].
  pose proof (Z.log2_nonneg n) as Ha. pose proof (Z.log2_nonneg (Zpos d)) as Hb.
  set (a := Z.log2 n) in *. set (b := Z.log2 (Zpos d)) in *.
  assert (Pa : (0 < 2 ^ a)%Z) by (apply Z.pow_pos_nonneg; lia).
  assert (Pb : (0 < 2 ^ b)%Z) by (apply Z.pow_pos_nonneg; lia).
  assert (Lo : pow2 (a - (b + 1)) <= n # d).
  { rewrite pow2_sub, Qmake_Qdiv, !pow2_Z by lia.
    assert (Pb1 : (0 < 2 ^ (b + 1))%Z) by (apply Z.pow_pos_nonneg; lia).
    apply Qdiv_le_cross; [exact Pb1 | lia |]. unfold Z.succ in *. nia. }
  assert (Hi : n # d < pow2 (a + 1 - b)).
  { rewrite pow2_sub, Qmake_Qdiv, !pow2_Z by lia.
    apply Qdiv_lt_cross; [lia | exact Pb |]. unfold Z.succ in *. nia. }
  unfold ilog2. cbn [Qnum Qden]. fold a b.
  destruct (Qle_bool (pow2 (a - b)) (n # d)) eqn:E.
  - apply Qle_bool_iff in E. split; [exact E|].
    replace (a - b + 1)%Z with (a + 1 - b)%Z by lia. exact Hi.
  - split.
    + replace (a - b - 1)%Z with (a - (b + 1))%Z by lia. exact Lo.
    + replace (a - b - 1 + 1)%Z with (a - b)%Z by lia.
      apply Qnot_le_lt. intros H. apply Qle_bool_iff in H. congruence.
Qed.

Lemma ilog2_unique x e : pow2 e <= x -> x < pow2 (e + 1) -> ilog2 x = e.
Proof.
  intros H1 H2.
  assert (Hx : 0 < x) by (eapply Qlt_le_trans; [apply (pow2_pos e) | exact H1]).
  destruct (ilog2_spec x Hx) as [S1 S2].
  assert ((ilog2 x < e + 1)%Z) by (apply pow2_lt_inv; eapply Qle_lt_trans; eauto).
  assert ((e < ilog2 x + 1)%Z) by (apply pow2_lt_inv; eapply Qle_lt_trans; eauto).
  lia.
Qed.

Lemma ilog2_mono x y : 0 < x -> x <= y -> (ilog2 x <= ilog2 y)%Z.
Proof.
  intros Hx Hxy.
  assert (Hy : 0 < y) by (eapply Qlt_le_trans; eauto).
  destruct (ilog2_spec x Hx) as [S1 _]. destruct (ilog2_spec y Hy) as [_ S2].
  assert ((ilog2 x < ilog2 y + 1)%Z).
  { apply pow2_lt_inv. eapply Qle_lt_trans; [exact S1|]. eapply Qle_lt_trans; eauto. }
  lia.
Qed.

Lemma exponent_mono x y : 0 < x -> x <= y -> (exponent x <= exponent y)%Z.
Proof. intros Hx Hxy. pose proof (ilog2_mono x y Hx Hxy). unfold exponent. lia. Qed.

Lemma rne_cases x :
  (rne x = Qfloor x /\ x - inject_Z (Qfloor x) <= 1 # 2) \/
  (rne x = (Qfloor x + 1)%Z /\ 1 # 2 <= x - inject_Z (Qfloor x)).
Proof.
  unfold rne. destruct (Qcompare_spec (x - inject_Z (Qfloor x)) (1 # 2)) as [E|E|E].
  - destruct (Z.even (Qfloor x)); [left | right]; (split; [reflexivity|]);
      rewrite E; apply Qle_refl.
  - left. split; [reflexivity | apply Qlt_le_weak; exact E].
  - right. split; [reflexivity | apply Qlt_le_weak; exact E].
Qed.

Lemma rne_mono x y : x <= y -> (rne x <= rne y)%Z.
Proof.
  intros Hxy. pose proof (Qfloor_resp_le x y Hxy) as Hf.
  destruct (Z.eq_dec (Qfloor x) (Qfloor y)) as [E|N].
  - unfold rne. rewrite <- E.
    assert (Hr : x - inject_Z (Qfloor x) <= y - inject_Z (Qfloor x)) by lra.
    destruct (Qcompare_spec (x - inject_Z (Qfloor x)) (1 # 2)) as [E1|E1|E1];
    destruct (Qcompare_spec (y - inject_Z (Qfloor x)) (1 # 2)) as [E2|E2|E2];
    destruct (Z.even (Qfloor x)); try lia; exfalso; lra.
  - destruct (rne_cases x) as [[-> _]|[-> _]]; destruct (rne_cases y) as [[-> _]|[-> _]]; lia.
Qed.

Lemma rne_Z n : rne (inject_Z n) = n.
Proof.
  unfold rne. rewrite Qfloor_Z.
  destruct (Qcompare_spec (inject_Z n - inject_Z n) (1 # 2)) as [E|E|E];
    [exfalso; lra | reflexivity | exfalso; lra].
Qed.

Lemma rne_comp x y : x == y -> rne x = rne y.
Proof.
  intros E. apply Z.le_antisymm; apply rne_mono; rewrite E; apply Qle_refl.
Qed.

Lemma rne_nonneg x : 0 <= x -> (0 <= rne x)%Z.
Proof. intros H. rewrite <- (rne_Z 0). apply rne_mono. exact H. Qed.

Lemma round_pos_nonneg x : 0 < x -> 0 <= round_pos x.
Proof.
  intros Hx. unfold round_pos. apply Qmult_le_0_compat.
  - rewrite <- (Zle_Qle 0). apply rne_nonneg.
    apply Qle_shift_div_l; [apply pow2_pos|]. lra.
  - apply Qlt_le_weak, pow2_pos.
Qed.

Lemma round_pos_ge x :
  0 < x -> (-1022 <= ilog2 x)%Z -> pow2 (ilog2 x) <= round_pos x.
Proof.
  intros Hx He. destruct (ilog2_spec x Hx) as [S1 _].
  unfold round_pos, exponent. rewrite Z.max_l by lia.
  set (e := ilog2 x) in *.
  assert (H52 : (2 ^ 52 <= rne (x / pow2 (e - 52)))%Z).
  { rewrite <- (rne_Z (2 ^ 52)). apply rne_mono.
    apply Qle_shift_div_l; [apply pow2_pos|].
    rewrite <- pow2_Z by lia. rewrite <- pow2_add.
    replace (52 + (e - 52))%Z with e by lia. exact S1. }
  assert (E : pow2 e == inject_Z (2 ^ 52) * pow2 (e - 52)).
  { rewrite <- pow2_Z by lia. rewrite <- pow2_add.
    replace (52 + (e - 52))%Z with e by lia. reflexivity. }
  rewrite E. apply Qmult_le_compat_r; [|apply Qlt_le_weak, pow2_pos].
  rewrite <- Zle_Qle. exact H52.
Qed.

Lemma round_pos_le x :
  0 < x -> round_pos x <= pow2 (Z.max (ilog2 x) (-1022) + 1).
Proof.
  intros Hx. destruct (ilog2_spec x Hx) as [_ S2].
  unfold round_pos, exponent.
  set (E := Z.max (ilog2 x) (-1022)).
  assert (HE : x <= pow2 (E + 1)).
  { apply Qlt_le_weak. eapply Qlt_le_trans; [exact S2|]. apply pow2_le. lia. }
  assert (H53 : (rne (x / pow2 (E - 52)) <= 2 ^ 53)%Z).
  { rewrite <- (rne_Z (2 ^ 53)). apply rne_mono.
    apply Qle_shift_div_r; [apply pow2_pos|].
    rewrite <- pow2_Z by lia. rewrite <- pow2_add.
    replace (53 + (E - 52))%Z with (E + 1)%Z by lia. exact HE. }
  assert (Eq : pow2 (E + 1) == inject_Z (2 ^ 53) * pow2 (E - 52)).
  { rewrite <- pow2_Z by lia. rewrite <- pow2_add.
    replace (53 + (E - 52))%Z with (E + 1)%Z by lia. reflexivity. }
  rewrite Eq. apply Qmult_le_compat_r; [|apply Qlt_le_weak, pow2_pos].
  rewrite <- Zle_Qle. exact H53.
Qed.

Lemma round_pos_mono x y : 0 < x -> x <= y -> round_pos x <= round_pos y.
Proof.
  intros Hx Hxy.
  assert (Hy : 0 < y) by (eapply Qlt_le_trans; eauto).
  pose proof (ilog2_mono x y Hx Hxy) as Hl.
  destruct (Z.eq_dec (exponent x) (exponent y)) as [E|N].
  - unfold round_pos. rewrite E.
    apply Qmult_le_compat_r; [|apply Qlt_le_weak, pow2_pos].
    rewrite <- Zle_Qle. apply rne_mono.
    apply Qle_shift_div_l; [apply pow2_pos|].
    assert (Ey : x / pow2 (exponent y) * pow2 (exponent y) == x).
    { field. intros E0. pose proof (pow2_pos (exponent y)) as P. rewrite E0 in P. discriminate. }
    rewrite Ey. exact Hxy.
  - unfold exponent in N.
    eapply Qle_trans; [apply round_pos_le; exact Hx|].
    eapply Qle_trans; [|apply round_pos_ge; [exact Hy | lia]].
    apply pow2_le. lia.
Qed.

Lemma round64_mono x y : x <= y -> round64 x <= round64 y.
Proof.
  intros Hxy. unfold round64.
  destruct (Qcompare_spec x 0) as [Ex|Ex|Ex]; destruct (Qcompare_spec y 0) as [Ey|Ey|Ey];
    rewrite ?Qred_correct; try (exfalso; lra); try apply Qle_refl.
  - apply round_pos_nonneg. exact Ey.
  - assert (H : 0 <= round_pos (- x)) by (apply round_pos_nonneg; lra). lra.
  - assert (H : round_pos (- y) <= round_pos (- x)) by (apply round_pos_mono; lra). lra.
  - assert (H : 0 <= round_pos (- x)) by (apply round_pos_nonneg; lra).
    assert (H' : 0 <= round_pos y) by (apply round_pos_nonneg; lra). lra.
  - apply round_pos_mono; assumption.
Qed.

Lemma round64_canonical x : Qred (round64 x) = round64 x.
Proof.
  unfold round64. destruct (Qcompare x 0); [reflexivity | |];
    apply Qred_complete, Qred_correct.
Qed.

Lemma round64_comp x y : x == y -> round64 x = round64 y.
Proof.
  intros E. rewrite <- (round64_canonical x), <- (round64_canonical y).
  apply Qred_complete. apply Qle_antisym; apply round64_mono; rewrite E; apply Qle_refl.
Qed.

Lemma round64_0 : round64 0 = 0.
Proof. reflexivity. Qed.

Lemma round64_nonneg x : 0 <= x -> 0 <= round64 x.
Proof. intros H. rewrite <- round64_0. apply round64_mono. exact H. Qed.

Lemma round64_opp x : round64 (- x) == - round64 x.
Proof.
  unfold round64.
  destruct (Qcompare_spec x 0) as [Ex|Ex|Ex]; destruct (Qcompare_spec (- x) 0) as [Ey|Ey|Ey];
    rewrite ?Qred_correct; try (exfalso; lra); try reflexivity.
  - ring.
  - assert (E : round_pos (- - x) == round_pos x).
    { apply Qle_antisym; apply round_pos_mono; lra. }
    rewrite E. reflexivity.
Qed.

(** A positive number on the grid of its own exponent is a binary64
    number. *)
Lemma round64_on_grid x m j :
  0 < x -> x == inject_Z m * pow2 j -> (exponent x <= j)%Z -> round64 x == x.
Proof.
  intros Hx E Hj. unfold round64.
  apply Qgt_alt in Hx. rewrite Hx. rewrite Qred_correct.
  unfold round_pos. set (k := exponent x) in *.
  assert (Ek : x / pow2 k == inject_Z (m * 2 ^ (j - k))).
  { rewrite inject_Z_mult, <- pow2_Z by lia. rewrite pow2_sub, E.
    field. intros E0. pose proof (pow2_pos k) as P. rewrite E0 in P. discriminate. }
  rewrite (rne_comp _ _ Ek), rne_Z.
  rewrite inject_Z_mult, <- pow2_Z by lia. rewrite pow2_sub, E.
  field. intros E0. pose proof (pow2_pos k) as P. rewrite E0 in P. discriminate.
Qed.

Lemma round64_Z_pos n : (0 < n <= 2 ^ 53)%Z -> round64 (inject_Z n) == inject_Z n.
Proof.
  intros Hn.
  assert (Hx : 0 < inject_Z n) by (rewrite <- (Zlt_Qlt 0); lia).
  destruct (Z.eq_dec n (2 ^ 53)) as [E|N].
  - subst n. reflexivity.
  - apply (round64_on_grid _ n 0); [exact Hx | unfold pow2; simpl; ring |].
    destruct (ilog2_spec _ Hx) as [S1 _].
    assert ((ilog2 (inject_Z n) < 53)%Z).
    { apply pow2_lt_inv. eapply Qle_lt_trans; [exact S1|].
      rewrite pow2_Z by lia. rewrite <- Zlt_Qlt. lia. }
    unfold exponent. lia.
Qed.

Lemma round64_Z n : (- 2 ^ 53 <= n <= 2 ^ 53)%Z -> round64 (inject_Z n) == inject_Z n.
Proof.
  intros Hn. destruct (Z.lt_trichotomy n 0) as [H|[H|H]].
  - assert (E : inject_Z n == - inject_Z (- n)) by (rewrite inject_Z_opp; ring).
    rewrite (round64_comp _ _ E), round64_opp, round64_Z_pos by lia.
    rewrite inject_Z_opp. ring.
  - subst n. reflexivity.
  - apply round64_Z_pos. lia.
Qed.

Lemma round_pos_idem x : 0 < x -> round64 (round_pos x) == round_pos x.
Proof.
  intros Hx. pose proof (round_pos_nonneg x Hx) as H0.
  destruct (Qlt_le_dec 0 (round_pos x)) as [Hy|Hy].
  2:{ assert (E : round_pos x == 0) by lra. rewrite (round64_comp _ _ E), E. reflexivity. }
  pose proof (round_pos_le x Hx) as Hle.
  set (E := Z.max (ilog2 x) (-1022)) in *.
  destruct (Qlt_le_dec (round_pos x) (pow2 (E + 1))) as [Hlt|Hge].
  - apply (round64_on_grid _ (rne (x / pow2 (exponent x))) (exponent x));
      [exact Hy | reflexivity |].
    destruct (ilog2_spec _ Hy) as [S1 _].
    assert ((ilog2 (round_pos x) < E + 1)%Z).
    { apply pow2_lt_inv. eapply Qle_lt_trans; eauto. }
    unfold exponent. subst E. lia.
  - assert (Eq : round_pos x == pow2 (E + 1)) by lra.
    apply (round64_on_grid _ 1 (E + 1)); [exact Hy | rewrite Eq; ring |].
    assert (El : ilog2 (round_pos x) = (E + 1)%Z).
    { apply ilog2_unique; rewrite Eq; [apply Qle_refl | apply pow2_lt; lia]. }
    unfold exponent. rewrite El. lia.
Qed.

Lemma round64_idem x : round64 (round64 x) = round64 x.
Proof.
  transitivity (Qred (round64 (round64 x))); [symmetry; apply round64_canonical|].
  transitivity (Qred (round64 x)); [|apply round64_canonical].
  apply Qred_complete.
  unfold round64 at 2 3.
  destruct (Qcompare_spec x 0) as [Ex|Ex|Ex].
  - reflexivity.
  - rewrite (round64_comp _ _ (Qred_correct _)), Qred_correct.
    rewrite round64_opp, round_pos_idem by lra. reflexivity.
  - rewrite (round64_comp _ _ (Qred_correct _)), Qred_correct.
    apply round_pos_idem. exact Ex.
Qed.

(** Taking one from a binary64 number between 1 and 2^53 is exact. *)
Lemma round64_minus_one x :
  round64 x == x -> 1 <= x -> x <= inject_Z (2 ^ 53) -> round64 (x - 1) == x - 1.
Proof.
  intros Hr H1 H53.
  assert (Hx : 0 < x) by lra.
  destruct (Qlt_le_dec 0 (x - 1)) as [Hz|Hz].
  2:{ assert (E : x - 1 == 0) by lra. rewrite (round64_comp _ _ E), E. reflexivity. }
  destruct (Qlt_le_dec x (inject_Z (2 ^ 53))) as [Hlt|Hge].
  - assert (Hk : (exponent x <= 0)%Z).
    { destruct (ilog2_spec _ Hx) as [S1 _].
      assert ((ilog2 x < 53)%Z).
      { apply pow2_lt_inv. eapply Qle_lt_trans; [exact S1|]. rewrite pow2_Z by lia. exact Hlt. }
      unfold exponent. lia. }
    set (k := exponent x) in *.
    assert (Ex : x == inject_Z (rne (x / pow2 k)) * pow2 k).
    { rewrite <- Hr at 1. unfold round64. apply Qgt_alt in Hx. rewrite Hx.
      rewrite Qred_correct. reflexivity. }
    apply (round64_on_grid _ (rne (x / pow2 k) - 2 ^ (- k)) k); [exact Hz | |].
    + unfold Z.sub. rewrite inject_Z_plus, inject_Z_opp, <- pow2_Z by lia.
      rewrite Qmult_plus_distr_l, <- Ex.
      assert (E1 : - pow2 (- k) * pow2 k == - 1).
      { setoid_replace (- pow2 (- k) * pow2 k) with (- (pow2 (- k) * pow2 k)) by ring.
        rewrite <- pow2_add. replace (- k + k)%Z with 0%Z by lia. reflexivity. }
      rewrite E1. ring.
    + apply exponent_mono; [exact Hz | lra].
  - assert (E : x - 1 == inject_Z (2 ^ 53 - 1)).
    { assert (Ex : x == inject_Z (2 ^ 53)) by (apply Qle_antisym; assumption).
      rewrite Ex. vm_compute. reflexivity. }
    rewrite (round64_comp _ _ E), E. apply round64_Z. lia.
Qed.

End Rounding.

(** ** float64: operations *)

Section Float64.
Import float64.
Local Open Scope Q_scope.

Lemma Qltb_true (x y : Q) : Qltb x y = true <-> x < y.
Proof.
  unfold Qltb. rewrite negb_true_iff. split.
  - intros H. apply Qnot_le_lt. intros Hle. apply Qle_bool_iff in Hle. congruence.
  - intros H. destruct (Qle_bool y x) eqn:E; [|reflexivity].
    apply Qle_bool_iff in E. apply Qlt_not_le in H. contradiction.
Qed.

Lemma Qltb_false (x y : Q) : Qltb x y = false <-> y <= x.
Proof. unfold Qltb. rewrite negb_false_iff. apply Qle_bool_iff. Qed.

Lemma of_Q_comp (q q' : Q) : q == q' -> of_Q q = of_Q q'.
Proof. intros E. unfold of_Q. rewrite (round64_comp _ _ E). reflexivity. Qed.

Lemma round64_MaxFloat64 : round64 MaxFloat64 == MaxFloat64.
Proof. vm_compute. reflexivity. Qed.

Lemma of_Q_finite (q : Q) :
  - MaxFloat64 <= q -> q <= MaxFloat64 -> of_Q q = Finite (round64 q).
Proof.
  intros Hlo Hhi. unfold of_Q.
  pose proof (round64_mono _ _ Hhi) as H1. rewrite round64_MaxFloat64 in H1.
  pose proof (round64_mono _ _ Hlo) as H2.
  rewrite round64_opp, round64_MaxFloat64 in H2.
  apply Qltb_false in H1. apply Qltb_false in H2. rewrite H1, H2. reflexivity.
Qed.

Lemma MaxFloat64_pos : 0 < MaxFloat64.
Proof. reflexivity. Qed.

Lemma of_Q_nonneg (q : Q) :
  0 <= q -> of_Q q = PosInf \/ (of_Q q = Finite (round64 q) /\ 0 <= round64 q).
Proof.
  intros Hq. pose proof (round64_nonneg q Hq) as Hr. unfold of_Q.
  destruct (Qltb MaxFloat64 (round64 q)); [now left|]. right.
  assert (H : Qltb (round64 q) (- MaxFloat64) = false).
  { apply Qltb_false. pose proof MaxFloat64_pos. lra. }
  rewrite H. now split.
Qed.

(** The integers up to 2^53 are binary64 numbers. *)
Lemma of_int_exact (n : Z) :
  (- 2 ^ 53 <= n <= 2 ^ 53)%Z ->
  of_int n = Finite (round64 (inject_Z n)) /\ round64 (inject_Z n) == inject_Z n.
Proof.
  intros Hn. split; [|now apply round64_Z].
  assert (Hb : inject_Z (2 ^ 53) <= MaxFloat64) by (vm_compute; discriminate).
  assert (H1 : inject_Z n <= inject_Z (2 ^ 53)) by (rewrite <- Zle_Qle; lia).
  assert (H2 : inject_Z (- 2 ^ 53) <= inject_Z n) by (rewrite <- Zle_Qle; lia).
  assert (H3 : inject_Z (- 2 ^ 53) == - inject_Z (2 ^ 53)) by reflexivity.
  apply of_Q_finite; lra.
Qed.

Lemma round64_le_Z (q : Q) (n : Z) :
  round64 (inject_Z n) == inject_Z n -> q <= inject_Z n -> round64 q <= inject_Z n.
Proof. intros E H. rewrite <- E. now apply round64_mono. Qed.

(** An elapsed time that is not negative and fits a duration is a finite
    number of seconds that is not negative. *)
Lemma Seconds_finite (d : Go.Duration) :
  (0 <= d <= Go.MaxInt64)%Z -> exists e : Q, Go.Seconds d = Finite e /\ 0 <= e.
Proof.
  intros Hd. unfold Go.Seconds.
  assert (Hq : (0 <= Z.quot d Go.Second <= 2 ^ 63)%Z).
  { split; [apply Z.quot_pos; unfold Go.Second; lia|].
    apply Z.quot_le_upper_bound; [reflexivity|].
    unfold Go.MaxInt64, Go.Second in *. lia. }
  assert (Hr : (0 <= Z.rem d Go.Second <= 2 ^ 30)%Z).
  { pose proof (Z.rem_bound_pos d Go.Second ltac:(lia) ltac:(reflexivity)) as H.
    unfold Go.Second in *. lia. }
  set (sec := Z.quot d Go.Second) in *. set (nsec := Z.rem d Go.Second) in *.
  assert (B63 : inject_Z (2 ^ 63) <= MaxFloat64) by (vm_compute; discriminate).
  assert (B64 : inject_Z (2 ^ 64) <= MaxFloat64) by (vm_compute; discriminate).
  assert (R63 : round64 (inject_Z (2 ^ 63)) == inject_Z (2 ^ 63)) by (vm_compute; reflexivity).
  assert (R30 : round64 (inject_Z (2 ^ 30)) == inject_Z (2 ^ 30)) by (vm_compute; reflexivity).
  assert (R1 : round64 1 == 1) by (vm_compute; reflexivity).
  pose proof MaxFloat64_pos as Mpos.
  assert (Hs0 : 0 <= inject_Z sec) by (rewrite <- (Zle_Qle 0); lia).
  assert (Hs1 : inject_Z sec <= inject_Z (2 ^ 63)) by (rewrite <- Zle_Qle; lia).
  assert (Hn0 : 0 <= inject_Z nsec) by (rewrite <- (Zle_Qle 0); lia).
  assert (Hn1 : inject_Z nsec <= inject_Z (2 ^ 30)) by (rewrite <- Zle_Qle; lia).
  unfold of_int.
  rewrite (of_Q_finite (inject_Z sec)) by lra.
  rewrite (of_Q_finite (inject_Z nsec)) by (assert (inject_Z (2 ^ 30) <= MaxFloat64)
                                             by (vm_compute; discriminate); lra).
  pose proof (round64_nonneg _ Hs0) as Hs0'.
  pose proof (round64_le_Z _ _ R63 Hs1) as Hs1'.
  pose proof (round64_nonneg _ Hn0) as Hn0'.
  pose proof (round64_le_Z _ _ R30 Hn1) as Hn1'.
  remember (round64 (inject_Z sec)) as s. remember (round64 (inject_Z nsec)) as n.
  unfold div. change (Qcompare 1000000000 0) with Gt. cbv iota.
  assert (Hf0 : 0 <= n / 1000000000).
  { apply Qle_shift_div_l; [reflexivity | lra]. }
  assert (Hf1 : n / 1000000000 <= inject_Z (2 ^ 30)).
  { apply Qle_shift_div_r; [reflexivity|].
    assert (inject_Z (2 ^ 30) <= inject_Z (2 ^ 30) * 1000000000)
      by (vm_compute; discriminate). lra. }
  rewrite (of_Q_finite (n / 1000000000)) by (assert (inject_Z (2 ^ 30) <= MaxFloat64)
                                               by (vm_compute; discriminate); lra).
  pose proof (round64_nonneg _ Hf0) as Hf0'.
  pose proof (round64_le_Z _ _ R30 Hf1) as Hf1'.
  remember (round64 (n / 1000000000)) as f.
  unfold add.
  assert (H30 : inject_Z (2 ^ 63) + inject_Z (2 ^ 30) <= inject_Z (2 ^ 64))
    by (vm_compute; discriminate).
  rewrite (of_Q_finite (s + f)) by lra.
  eexists. split; [reflexivity|]. apply round64_nonneg. lra.
Qed.

End Float64.

Section Comparisons.
Import float64.
Local Open Scope Q_scope.

Lemma le_Finite (a b : Q) : le (Finite a) (Finite b) = true <-> a <= b.
Proof. simpl. apply Qle_bool_iff. Qed.

Lemma ge_Finite (a b : Q) : ge (Finite a) (Finite b) = true <-> b <= a.
Proof. unfold ge. apply le_Finite. Qed.

Lemma ge_Finite_false (a b : Q) : ge (Finite a) (Finite b) = false <-> a < b.
Proof.
  unfold ge. simpl. split.
  - intros H. apply Qnot_le_lt. intros Hle. apply Qle_bool_iff in Hle. congruence.
  - intros H. destruct (Qle_bool b a) eqn:E; [|reflexivity].
    apply Qle_bool_iff in E. apply Qlt_not_le in H. contradiction.
Qed.

Lemma gt_Finite (a b : Q) : gt (Finite a) (Finite b) = true <-> b < a.
Proof.
  unfold gt, lt. simpl. rewrite andb_true_iff, negb_true_iff. split.
  - intros [_ H]. apply Qnot_le_lt. intros Hle. apply Qle_bool_iff in Hle. congruence.
  - intros H. split; [apply Qle_bool_iff; now apply Qlt_le_weak|].
    destruct (Qle_bool a b) eqn:E; [|reflexivity].
    apply Qle_bool_iff in E. apply Qlt_not_le in H. contradiction.
Qed.

Lemma gt_Finite_false (a b : Q) : gt (Finite a) (Finite b) = false <-> a <= b.
Proof.
  split.
  - intros H. apply Qnot_lt_le. intros Hlt. apply gt_Finite in Hlt. congruence.
  - intros H. destruct (gt (Finite a) (Finite b)) eqn:E; [|reflexivity].
    apply gt_Finite in E. apply Qlt_not_le in E. contradiction.
Qed.

End Comparisons.

(** ** RateLimiter *)

Section Limiter.
Import float64.
Variable fused : bool.
Variable rate : Q.
Variable burst : Z.
Hypothesis rate_nonneg : (0 <= rate)%Q.
Hypothesis burst_range : 0 <= burst <= 2 ^ 53.

Lemma of_Q_grown (q : Q) : (0 <= q)%Q -> grown (of_Q q).
Proof.
  intros Hq. destruct (of_Q_nonneg q Hq) as [H | [H H0]]; [now left|].
  right. exists (round64 q). split; [exact H|]. split; [exact H0|].
  rewrite round64_idem. reflexivity.
Qed.

Lemma refill_sum (e t : Q) :
  (0 <= e)%Q -> (0 <= t)%Q ->
  grown (if fused then fma (Finite e) (Finite rate) (Finite t)
         else add (Finite t) (mul (Finite e) (Finite rate))).
Proof.
  intros He Ht.
  assert (Hp : (0 <= e * rate)%Q) by (now apply Qmult_le_0_compat).
  destruct fused.
  - simpl. apply of_Q_grown. lra.
  - unfold mul. destruct (of_Q_nonneg _ Hp) as [H | [H H0]]; rewrite H.
    + now left.
    + unfold add. apply of_Q_grown. lra.
Qed.

Lemma cap_tokens (sum : float64.t) :
  grown sum ->
  exists c : Q,
    (if gt sum (of_int burst) then of_int burst else sum) = Finite c
    /\ (0 <= c)%Q /\ (c <= inject_Z burst)%Q /\ (round64 c == c)%Q.
Proof.
  intros Hsum.
  destruct (of_int_exact burst ltac:(lia)) as [HB Hb]. rewrite HB.
  assert (Hb0 : (0 <= inject_Z burst)%Q) by (rewrite <- (Zle_Qle 0); lia).
  assert (Hcap : exists c : Q,
             Finite (round64 (inject_Z burst)) = Finite c
             /\ (0 <= c)%Q /\ (c <= inject_Z burst)%Q /\ (round64 c == c)%Q).
  { exists (round64 (inject_Z burst)). split; [reflexivity|].
    rewrite round64_idem. rewrite Hb. repeat split; try assumption; apply Qle_refl. }
  destruct Hsum as [-> | (s & -> & Hs0 & Hsr)].
  - exact Hcap.
  - destruct (gt (Finite s) (Finite (round64 (inject_Z burst)))) eqn:E; [exact Hcap|].
    apply gt_Finite_false in E. rewrite Hb in E.
    exists s. repeat split; assumption.
Qed.

Lemma refill_inv (t0 now now' : Go.Time) (rl : RateLimiter.t) :
  now <= now' -> now' - t0 <= Go.MaxInt64 ->
  limiter_inv rate burst t0 now rl ->
  limiter_inv rate burst t0 now' (RateLimiter.refill fused now' rl).
Proof.
  intros Hnow Hfit (Hr & Hb & Hl & t & Ht & Ht0 & Ht1 & Htr).
  destruct (Seconds_finite (Go.Since now' (RateLimiter.lastRefillTime rl))
              ltac:(unfold Go.Since; lia)) as (e & He & He0).
  pose proof (cap_tokens _ (refill_sum e t He0 Ht0)) as (c & Hc & Hc0 & Hc1 & Hcr).
  unfold limiter_inv, RateLimiter.refill. cbn [RateLimiter.rate RateLimiter.burst
    RateLimiter.tokens RateLimiter.lastRefillTime].
  rewrite He, Hr, Hb, Ht.
  split; [reflexivity|]. split; [reflexivity|]. split; [lia|].
  exists c. split; [|repeat split; assumption].
  destruct fused; exact Hc.
Qed.

(** What [Allow] does with the tokens of the refill. *)
Lemma Allow_takes_one (now : Go.Time) (rl : RateLimiter.t) (c : Q) :
  RateLimiter.tokens (RateLimiter.refill fused now rl) = Finite c ->
  (c <= inject_Z burst)%Q -> (round64 c == c)%Q ->
  ((1 <= c)%Q ->
     fst (RateLimiter.Allow fused now rl) = true
     /\ RateLimiter.tokens (snd (RateLimiter.Allow fused now rl))
        = Finite (round64 (c + - 1))
     /\ (round64 (c + - 1) == c - 1)%Q)
  /\ ((c < 1)%Q ->
        RateLimiter.Allow fused now rl = (false, RateLimiter.refill fused now rl)).
Proof.
  intros Hc Hc1 Hcr. unfold RateLimiter.Allow. rewrite Hc. split; intros H.
  - pose proof H as Hge. apply ge_Finite in Hge. rewrite Hge.
    cbn [fst snd RateLimiter.tokens].
    assert (Hex : (round64 (c + - 1) == c - 1)%Q).
    { assert (E : (c + - 1 == c - 1)%Q) by ring. rewrite (round64_comp _ _ E).
      apply round64_minus_one; [exact Hcr | exact H |].
      apply Qle_trans with (inject_Z burst); [exact Hc1|]. rewrite <- Zle_Qle. lia. }
    split; [reflexivity|]. split; [|exact Hex].
    unfold sub, opp, add.
    assert (B : (inject_Z (2 ^ 53) <= MaxFloat64)%Q) by (vm_compute; discriminate).
    assert (Hc53 : (c <= inject_Z (2 ^ 53))%Q).
    { apply Qle_trans with (inject_Z burst); [exact Hc1|]. rewrite <- Zle_Qle. lia. }
    pose proof MaxFloat64_pos.
    apply of_Q_finite; lra.
  - apply ge_Finite_false in H. rewrite H. reflexivity.
Qed.

Lemma Allow_inv (t0 now now' : Go.Time) (rl : RateLimiter.t) :
  now <= now' -> now' - t0 <= Go.MaxInt64 ->
  limiter_inv rate burst t0 now rl ->
  limiter_inv rate burst t0 now' (snd (RateLimiter.Allow fused now' rl)).
Proof.
  intros Hnow Hfit Hinv.
  pose proof (refill_inv t0 now now' rl Hnow Hfit Hinv)
    as (Hr & Hb & Hl & c & Hc & Hc0 & Hc1 & Hcr).
  destruct (Allow_takes_one now' rl c Hc Hc1 Hcr) as [Hyes Hno].
  destruct (Qlt_le_dec c 1) as [Hlt | Hge].
  - rewrite (Hno Hlt). cbn [snd].
    split; [exact Hr|]. split; [exact Hb|]. split; [exact Hl|].
    exists c. repeat split; assumption.
  - destruct (Hyes Hge) as (_ & Htk & Hex).
    unfold RateLimiter.Allow in Htk |- *. rewrite Hc in Htk |- *.
    pose proof Hge as Hge'. apply ge_Finite in Hge'. rewrite Hge' in Htk |- *.
    cbn [snd RateLimiter.tokens] in Htk. cbn [snd].
    unfold limiter_inv. cbn [RateLimiter.rate RateLimiter.burst RateLimiter.tokens
      RateLimiter.lastRefillTime].
    split; [exact Hr|]. split; [exact Hb|]. split; [exact Hl|].
    exists (round64 (c + - 1)). split; [exact Htk|].
    rewrite round64_idem. rewrite Hex. repeat split; lra.
Qed.

Lemma NewRateLimiter_inv (t0 : Go.Time) :
  limiter_inv rate burst t0 t0 (RateLimiter.NewRateLimiter t0 (Finite rate) burst).
Proof.
  destruct (of_int_exact burst ltac:(lia)) as [HB Hb].
  unfold limiter_inv. simpl. rewrite HB.
  split; [reflexivity|]. split; [reflexivity|]. split; [lia|].
  exists (round64 (inject_Z burst)). split; [reflexivity|].
  rewrite round64_idem, Hb. repeat split; try apply Qle_refl.
  rewrite <- (Zle_Qle 0). lia.
Qed.

End Limiter.

Lemma last_cons_default (x : Go.Time) (l : list Go.Time) (d d' : Go.Time) :
  last (x :: l) d = last (x :: l) d'.
Proof.
  revert x. induction l as [|y l IH]; intros x; [reflexivity|].
  change (last (y :: l) d = last (y :: l) d'). apply IH.
Qed.

Lemma nondecreasing_last (l : list Go.Time) :
  forall t : Go.Time, runs.nondecreasing t l -> t <= last l t.
Proof.
  induction l as [|t1 rest IH]; intros t H; [simpl; lia|].
  destruct H as [Hle H]. specialize (IH t1 H).
  destruct rest as [|t2 rest]; [simpl; lia|].
  change (t <= last (t2 :: rest) t). rewrite (last_cons_default t2 rest t t1). lia.
Qed.

Lemma allow_all_inv (fused : bool) (rate : Q) (burst : Z) (t0 : Go.Time)
    (instants : list Go.Time) :
  (0 <= rate)%Q -> 0 <= burst <= 2 ^ 53 ->
  forall (now : Go.Time) (rl : RateLimiter.t),
    runs.nondecreasing now instants ->
    last instants now - t0 <= Go.MaxInt64 ->
    limiter_inv rate burst t0 now rl ->
    limiter_inv rate burst t0 (last instants now) (snd (runs.allow_all fused instants rl)).
Proof.
  intros Hrate Hburst. induction instants as [|t1 rest IH]; intros now rl Hnd Hfit Hinv.
  - exact Hinv.
  - destruct Hnd as [Hle Hnd]. simpl.
    pose proof (nondecreasing_last rest t1 Hnd) as Hlast.
    assert (Elast : last (t1 :: rest) now = last rest t1).
    { destruct rest as [|t2 rest]; [reflexivity|].
      change (last (t2 :: rest) now = last (t2 :: rest) t1). apply last_cons_default. }
    rewrite Elast in Hfit.
    pose proof (Allow_inv fused rate burst Hrate Hburst t0 now t1 rl Hle ltac:(lia) Hinv)
      as Hinv1.
    destruct (RateLimiter.Allow fused t1 rl) as [ok rl1]. simpl in Hinv1.
    specialize (IH t1 rl1 Hnd Hfit Hinv1).
    destruct (runs.allow_all fused rest rl1) as [oks rl2]. simpl in *.
    destruct rest as [|t2 rest]; [assumption|].
    now rewrite (last_cons_default t2 rest now t1).
Qed.

Lemma nondecreasing_app (t0 now : Go.Time) (instants : list Go.Time) :
  runs.nondecreasing t0 (instants ++ [now]) ->
  runs.nondecreasing t0 instants /\ last instants t0 <= now.
Proof.
  revert t0. induction instants as [|t1 rest IH]; intros t0 H.
  - simpl in *. split; [trivial | tauto].
  - simpl in H. destruct H as [Hle H]. destruct (IH t1 H) as [Hnd Hlast].
    split; [split; assumption|]. simpl.
    destruct rest as [|t2 rest]; [assumption|].
    now rewrite (last_cons_default t2 rest t0 t1).
Qed.

(** The tokens of a refill: the sum, capped. *)
Lemma refill_tokens (fused : bool) (now : Go.Time) (rl : RateLimiter.t) :
  let elapsed := Go.Seconds (Go.Since now (RateLimiter.lastRefillTime rl)) in
  let sum := if fused
             then float64.fma elapsed (RateLimiter.rate rl) (RateLimiter.tokens rl)
             else float64.add (RateLimiter.tokens rl)
                    (float64.mul elapsed (RateLimiter.rate rl)) in
  RateLimiter.tokens (RateLimiter.refill fused now rl)
  = if float64.gt sum (float64.of_int (RateLimiter.burst rl))
    then float64.of_int (RateLimiter.burst rl) else sum.
Proof. destruct fused; reflexivity. Qed.

(** C7, as stated, fails: with a negative rate a refill takes tokens away,
    and after ten seconds a limiter made with rate -1 and burst 5 holds -5
    tokens, whether the platform fuses the product and the sum or not. *)
Lemma RateLimiter_tokens_negative_rate :
  ~ (forall (fused : bool) (rate : float64.t) (burst : Z) (t0 now : Go.Time),
        t0 <= now ->
        float64.le (float64.Finite 0)
          (RateLimiter.tokens
             (snd (RateLimiter.Allow fused now
                     (RateLimiter.NewRateLimiter t0 rate burst)))) = true).
Proof.
  intros H.
  specialize (H false (float64.Finite (-1)) 5 0 (10 * Go.Second) ltac:(discriminate)).
  vm_compute in H. discriminate H.
Qed.

(** C7, amended: for a finite rate that is not negative, a burst between 0
    and 2^53 (which float64 holds exactly) and a clock that never goes back
    and has not run for longer than a duration can hold, in every state a
    limiter reaches through [Allow] the tokens are between 0 and [burst]; the
    next [Allow] first refills them by the float64 product of elapsed seconds
    and rate, capped at [burst], then answers true and takes exactly one token
    when at least one is there, and otherwise answers false and takes none;
    the tokens stay between 0 and [burst]. *)
Theorem RateLimiter_tokens_within_burst
    (fused : bool) (rate : Q) (burst : Z) (t0 : Go.Time) (instants : list Go.Time)
    (now : Go.Time) :
  (0 <= rate)%Q -> 0 <= burst <= 2 ^ 53 ->
  runs.nondecreasing t0 (instants ++ [now]) ->
  now - t0 <= Go.MaxInt64 ->
  let rl := snd (runs.allow_all fused instants
                   (RateLimiter.NewRateLimiter t0 (float64.Finite rate) burst)) in
  let elapsed := Go.Seconds (Go.Since now (RateLimiter.lastRefillTime rl)) in
  let sum := if fused
             then float64.fma elapsed (float64.Finite rate) (RateLimiter.tokens rl)
             else float64.add (RateLimiter.tokens rl)
                    (float64.mul elapsed (float64.Finite rate)) in
  let full := float64.of_int burst in
  let filled := RateLimiter.tokens (RateLimiter.refill fused now rl) in
  let left := RateLimiter.tokens (snd (RateLimiter.Allow fused now rl)) in
  float64.exactly full (inject_Z burst)
  /\ (float64.le (float64.Finite 0) (RateLimiter.tokens rl) = true
      /\ float64.le (RateLimiter.tokens rl) full = true)
  /\ (float64.gt sum full = false -> filled = sum)
  /\ (float64.gt sum full = true -> filled = full)
  /\ (float64.ge filled (float64.Finite 1) = true ->
        fst (RateLimiter.Allow fused now rl) = true
        /\ exists f : Q, float64.exactly filled f /\ float64.exactly left (f - 1))
  /\ (float64.ge filled (float64.Finite 1) = false ->
        RateLimiter.Allow fused now rl = (false, RateLimiter.refill fused now rl))
  /\ (float64.le (float64.Finite 0) left = true /\ float64.le left full = true).
Proof.
  intros Hrate Hburst Hnd Hfit rl elapsed sum full filled left.
  destruct (nondecreasing_app t0 now instants Hnd) as [Hnd' Hlast].
  pose proof (allow_all_inv fused rate burst t0 instants Hrate Hburst t0 _ Hnd'
                ltac:(lia) (NewRateLimiter_inv rate burst Hburst t0)) as Hinv.
  fold rl in Hinv.
  pose proof (refill_inv fused rate burst Hrate Hburst t0 _ now rl Hlast Hfit Hinv)
    as (_ & _ & _ & c & Hc & Hc0 & Hc1 & Hcr).
  pose proof (Allow_inv fused rate burst Hrate Hburst t0 _ now rl Hlast Hfit Hinv)
    as (_ & _ & _ & a & Ha & Ha0 & Ha1 & _).
  destruct (Allow_takes_one fused burst Hburst now rl c Hc Hc1 Hcr) as [Hyes Hno].
  destruct Hinv as (Hr & Hb & Hl & t & Ht & Ht0 & Ht1 & Htr).
  destruct (of_int_exact burst ltac:(lia)) as [HB HBq].
  pose proof (refill_tokens fused now rl) as Hfill. cbv zeta in Hfill.
  rewrite Hr, Hb in Hfill. fold elapsed sum full filled in Hfill.
  fold filled in Hc. fold left in Ha.
  assert (Hle : forall x : Q, (x <= inject_Z burst)%Q ->
                  float64.le (float64.Finite x) full = true).
  { intros x Hx. unfold full. rewrite HB. apply le_Finite. now rewrite HBq. }
  split; [exists (float64.round64 (inject_Z burst)); split; assumption|].
  split; [rewrite Ht; split; [now apply le_Finite | now apply Hle]|].
  split; [intros H; now rewrite Hfill, H|].
  split; [intros H; now rewrite Hfill, H|].
  split; [|split].
  - rewrite Hc. intros H. apply ge_Finite in H.
    destruct (Hyes H) as (Hok & Htk & Hex).
    split; [exact Hok|]. exists c. split; [exists c; split; reflexivity|].
    exists (float64.round64 (c + - 1)). split; assumption.
  - rewrite Hc. intros H. apply ge_Finite_false in H. exact (Hno H).
  - rewrite Ha. split; [now apply le_Finite | now apply Hle].
Qed.

Lemma RateLimiter_tokens_within_burst_witness :
  fst (RateLimiter.Allow false (3 * Go.Second)
         (snd (runs.allow_all false [0; 0; Go.Second]
                 (RateLimiter.NewRateLimiter 0 (float64.Finite (1 # 2)) 2)))) = true.
Proof.
  refine (proj1 (proj1 (proj2 (proj2 (proj2 (proj2
            (RateLimiter_tokens_within_burst false (1 # 2) 2 0 [0; 0; Go.Second]
               (3 * Go.Second) _ _ _ _))))) _)).
  - discriminate.
  - vm_compute. split; discriminate.
  - vm_compute. intuition discriminate.
  - vm_compute. discriminate.
  - vm_compute. reflexivity.
Defined.

(** ** Bulkhead *)

Lemma iter_acquire_semaphore (k : nat) (b : Bulkhead.t) :
  Bulkhead.semaphore (Nat.iter k Bulkhead.acquire b)
    = {| Bulkhead.len := Bulkhead.len (Bulkhead.semaphore b) + Z.of_nat k;
         Bulkhead.cap := Bulkhead.cap (Bulkhead.semaphore b) |}.
Proof.
  induction k as [|k IH].
  - simpl. destruct (Bulkhead.semaphore b). simpl. f_equal. lia.
  - change (Nat.iter (S k) Bulkhead.acquire b)
      with (Bulkhead.acquire (Nat.iter k Bulkhead.acquire b)).
    unfold Bulkhead.acquire at 1. simpl. rewrite IH. simpl. f_equal. lia.
Qed.

(** Releasing after acquiring gives the bulkhead back. *)
Lemma release_acquire (b : Bulkhead.t) :
  Go.in_int64 (Bulkhead.activeCount b) ->
  Bulkhead.release (Bulkhead.acquire b) = b.
Proof.
  intros Hr. destruct b as [[l c] m a]. unfold Bulkhead.release, Bulkhead.acquire.
  simpl in *. f_equal.
  - f_equal. lia.
  - destruct (Z.eq_dec a Go.MaxInt64) as [->|Hne]; [reflexivity|].
    rewrite (wrap64_id (a + 1))
      by (unfold Go.in_int64, Go.MinInt64, Go.MaxInt64 in *; lia).
    replace (a + 1 - 1) with a by lia. now apply wrap64_id.
Qed.

Section BulkheadExecute.
Context {W : Type}.
Variable now : W -> Go.Time.
Variable get : W -> Bulkhead.t.
Variable set : Bulkhead.t -> W -> W.
Variable pick : bool.

(** With every slot taken the call is turned away at once, whatever the
    wrapped function is: the state is the one the call found. *)
Lemma Execute_full (ctx : Go.Context) (fn : W -> Bulkhead.Outcome * W) (w : W) :
  Bulkhead.cap (Bulkhead.semaphore (get w)) <= Bulkhead.len (Bulkhead.semaphore (get w)) ->
  Bulkhead.Execute now get set pick ctx fn w
    = (Bulkhead.Returned
         (None, Some (if Go.Done ctx (now w) then models.ctxErr ctx else Bulkhead.ErrFull)),
       w).
Proof.
  intros Hfull. unfold Bulkhead.Execute.
  replace (Bulkhead.len (Bulkhead.semaphore (get w))
             <? Bulkhead.cap (Bulkhead.semaphore (get w))) with false by lia.
  simpl. destruct (Go.Done ctx (now w)); reflexivity.
Qed.

(** With a free slot and the send chosen, the wrapped function runs with
    the slot taken and the deferred release follows it. *)
Lemma Execute_admitted (ctx : Go.Context) (fn : W -> Bulkhead.Outcome * W) (w : W) :
  Bulkhead.len (Bulkhead.semaphore (get w)) < Bulkhead.cap (Bulkhead.semaphore (get w)) ->
  Go.Done ctx (now w) = false \/ pick = true ->
  Bulkhead.Execute now get set pick ctx fn w
    = let '(out, w') := fn (set (Bulkhead.acquire (get w)) w) in
      match out with
      | Bulkhead.Blocked => (Bulkhead.Blocked, w')
      | _ =>
          if Bulkhead.len (Bulkhead.semaphore (get w')) <=? 0 then (Bulkhead.Blocked, w')
          else (out, set (Bulkhead.release (get w')) w')
      end.
Proof.
  intros Hfree Hpick. unfold Bulkhead.Execute.
  replace (Bulkhead.len (Bulkhead.semaphore (get w))
             <? Bulkhead.cap (Bulkhead.semaphore (get w))) with true by lia.
  replace (negb (Go.Done ctx (now w)) || pick) with true
    by (destruct Hpick as [-> | ->]; [reflexivity | now rewrite orb_true_r]).
  reflexivity.
Qed.

(** C8: when every slot of the bulkhead is taken, [Execute] answers at once,
    without running the wrapped function and without touching the state:
    with the capacity error, or, when the caller's context is already done,
    with that context's error.  When the call is admitted, the wrapped
    function runs with the slot taken, and whether it returns or panics the
    slot is given back afterwards: the bulkhead [Execute] leaves is the one
    the function left with one slot fewer taken and one call fewer counted,
    so that it is the bulkhead the call found when the function kept its
    hands off it. *)
Theorem Bulkhead_Execute_rejects_when_full
    (ctx : Go.Context) (fn : W -> Bulkhead.Outcome * W) (w : W)
    (out : Bulkhead.Outcome) (w' : W) :
  fn (set (Bulkhead.acquire (get w)) w) = (out, w') ->
  (Bulkhead.cap (Bulkhead.semaphore (get w)) <= Bulkhead.len (Bulkhead.semaphore (get w)) ->
     (Go.Done ctx (now w) = false ->
        Bulkhead.Execute now get set pick ctx fn w
          = (Bulkhead.Returned (None, Some Bulkhead.ErrFull), w))
     /\ (Go.Done ctx (now w) = true ->
           Bulkhead.Execute now get set pick ctx fn w
             = (Bulkhead.Returned (None, Some (models.ctxErr ctx)), w)))
  /\ (Bulkhead.len (Bulkhead.semaphore (get w)) < Bulkhead.cap (Bulkhead.semaphore (get w)) ->
      Go.Done ctx (now w) = false \/ pick = true ->
      out <> Bulkhead.Blocked ->
      0 < Bulkhead.len (Bulkhead.semaphore (get w')) ->
      Bulkhead.Execute now get set pick ctx fn w
        = (out, set (Bulkhead.release (get w')) w')
      /\ Bulkhead.len (Bulkhead.semaphore (Bulkhead.acquire (get w)))
         = Bulkhead.len (Bulkhead.semaphore (get w)) + 1
      /\ Bulkhead.semaphore (Bulkhead.release (get w'))
         = {| Bulkhead.len := Bulkhead.len (Bulkhead.semaphore (get w')) - 1;
              Bulkhead.cap := Bulkhead.cap (Bulkhead.semaphore (get w')) |}
      /\ Bulkhead.activeCount (Bulkhead.release (get w'))
         = Go.wrap64 (Bulkhead.activeCount (get w') - 1)
      /\ Bulkhead.maxConcurrency (Bulkhead.release (get w'))
         = Bulkhead.maxConcurrency (get w')
      /\ (get w' = Bulkhead.acquire (get w) ->
          Go.in_int64 (Bulkhead.activeCount (get w)) ->
          Bulkhead.release (get w') = get w)).
Proof.
  intros Hfn. split.
  - intros Hfull. rewrite (Execute_full ctx fn w Hfull).
    split; intros ->; reflexivity.
  - intros Hfree Hpick Hout Hlen.
    rewrite (Execute_admitted ctx fn w Hfree Hpick), Hfn.
    replace (Bulkhead.len (Bulkhead.semaphore (get w')) <=? 0) with false by lia.
    split; [destruct out; [reflexivity | reflexivity | contradiction]|].
    split; [reflexivity|]. split; [reflexivity|]. split; [reflexivity|].
    split; [reflexivity|].
    intros Hsame Hrange. rewrite Hsame. apply release_acquire. exact Hrange.
Qed.

End BulkheadExecute.

(** Two calls hold the two slots of a bulkhead; the third is turned away
    with the capacity error and its work does not run (the clock does not
    move); the two slots are free again afterwards. *)
Lemma Bulkhead_third_call_rejected :
  scenarios.guarded (scenarios.guarded (scenarios.guarded scenarios.held))
    (Bulkhead.NewBulkhead 2, 0)
  = (Bulkhead.Returned (None, Some Bulkhead.ErrFull), (Bulkhead.NewBulkhead 2, 0)).
Proof. reflexivity. Qed.

Lemma Bulkhead_Execute_rejects_when_full_witness :
  scenarios.guarded scenarios.crash (Bulkhead.acquire (Bulkhead.NewBulkhead 2), 0)
  = (Bulkhead.Panicked "boom", (Bulkhead.acquire (Bulkhead.NewBulkhead 2), 1))
  /\ Bulkhead.release (Bulkhead.acquire (Bulkhead.acquire (Bulkhead.NewBulkhead 2)))
     = Bulkhead.acquire (Bulkhead.NewBulkhead 2).
Proof.
  pose proof (proj2 (Bulkhead_Execute_rejects_when_full
                       runs.cell_now runs.cell_get runs.cell_set true Go.Background
                       scenarios.crash (Bulkhead.acquire (Bulkhead.NewBulkhead 2), 0)
                       (Bulkhead.Panicked "boom")
                       (Bulkhead.acquire (Bulkhead.acquire (Bulkhead.NewBulkhead 2)), 1)
                       ltac:(reflexivity))
                ltac:(vm_compute; reflexivity) ltac:(left; reflexivity)
                ltac:(discriminate) ltac:(vm_compute; reflexivity))
    as (HExecute & _ & _ & _ & _ & Hback).
  split.
  - exact HExecute.
  - apply Hback; [reflexivity | vm_compute; split; discriminate].
Defined.

(** C10: for every [maxConcurrency] that is zero or negative [NewBulkhead]
    makes, without an error, a bulkhead whose [MaxConcurrency] is 10 and whose
    semaphore has 10 free slots: with fewer than 10 calls in flight the next
    call is admitted and its function runs with one more slot taken; with 10
    in flight it is turned away. *)
Theorem NewBulkhead_defaults_to_ten (maxConcurrency : Z) :
  maxConcurrency <= 0 ->
  Bulkhead.MaxConcurrency (Bulkhead.NewBulkhead maxConcurrency) = 10
  /\ Bulkhead.semaphore (Bulkhead.NewBulkhead maxConcurrency)
       = {| Bulkhead.len := 0; Bulkhead.cap := 10 |}
  /\ (forall (inFlight : nat) (pick : bool) (t : Go.Time)
             (fn : runs.Cell -> Bulkhead.Outcome * runs.Cell),
        (inFlight < 10)%nat ->
        Bulkhead.Execute runs.cell_now runs.cell_get runs.cell_set pick Go.Background fn
          (Nat.iter inFlight Bulkhead.acquire (Bulkhead.NewBulkhead maxConcurrency), t)
        = let '(out, c) :=
              fn (Nat.iter (S inFlight) Bulkhead.acquire
                    (Bulkhead.NewBulkhead maxConcurrency), t) in
          match out with
          | Bulkhead.Blocked => (Bulkhead.Blocked, c)
          | _ =>
              if Bulkhead.len (Bulkhead.semaphore (fst c)) <=? 0 then (Bulkhead.Blocked, c)
              else (out, (Bulkhead.release (fst c), snd c))
          end)
  /\ (forall (pick : bool) (t : Go.Time) (fn : runs.Cell -> Bulkhead.Outcome * runs.Cell),
        Bulkhead.Execute runs.cell_now runs.cell_get runs.cell_set pick Go.Background fn
          (Nat.iter 10 Bulkhead.acquire (Bulkhead.NewBulkhead maxConcurrency), t)
        = (Bulkhead.Returned (None, Some Bulkhead.ErrFull),
           (Nat.iter 10 Bulkhead.acquire (Bulkhead.NewBulkhead maxConcurrency), t))).
Proof.
  intros Hle.
  assert (Hnew : Bulkhead.NewBulkhead maxConcurrency = Bulkhead.NewBulkhead 0).
  { unfold Bulkhead.NewBulkhead. replace (maxConcurrency <=? 0) with true by lia.
    reflexivity. }
  rewrite Hnew. split; [reflexivity|]. split; [reflexivity|]. split.
  - intros inFlight pick t fn Hlt.
    rewrite Execute_admitted.
    + reflexivity.
    + unfold runs.cell_get. simpl fst. rewrite iter_acquire_semaphore. simpl. lia.
    + left. reflexivity.
  - intros pick t fn. rewrite Execute_full; [reflexivity|].
    vm_compute. discriminate.
Qed.

Lemma NewBulkhead_defaults_to_ten_witness :
  Bulkhead.MaxConcurrency (Bulkhead.NewBulkhead (-3)) = 10.
Proof.
  apply (proj1 (NewBulkhead_defaults_to_ten (-3) ltac:(discriminate))).
Defined.

(** ** HTTPClient.Send *)

Lemma Done_never (ctx : Go.Context) (now : Go.Time) :
  Go.cancelAt ctx = None -> Go.Done ctx now = false.
Proof. intros H. unfold Go.Done. now rewrite H. Qed.

(** A round trip answered with a status of 400 or more: the response comes
    back together with an [HTTPError] that holds it. *)
Lemma HTTPClient_Send_error_status (c : HTTPClient.t) (request : models.Request)
    (w : runtime.World) (r : models.HttpResponse) (took : Go.Duration) :
  HTTPClient.Do (HTTPClient.httpClient c) (HTTPClient.timeout c) request
    (runtime.roundTrips w) (runtime.clock w) = (HTTPClient.Answer r, took) ->
  400 <= models.StatusCode r ->
  HTTPClient.Send c request w
    = ((Some {| models.HttpResp := r; models.RequestRef := request |},
        Some (models.HTTPError (Some request)
                (Some {| models.HttpResp := r; models.RequestRef := request |})
                (models.StatusCode r)
                (models.Method request ++ " request returned error status "
                   ++ Go.itoa (models.StatusCode r)) None)),
       {| runtime.clock := runtime.clock w + Z.max 0 took;
          runtime.roundTrips := runtime.roundTrips w + 1;
          runtime.breaker := runtime.breaker w |}).
Proof.
  intros HDo Hst. unfold HTTPClient.Send. rewrite HDo.
  replace (models.StatusCode r >=? 400) with true by lia. reflexivity.
Qed.

(** ** RetryDecorator.Send: one turn of the loop *)

Section RetryLoop.
Variable sched : runtime.Scheduler.
Variable d : RetryDecorator.t.
Variable request : models.Request.

Lemma loop_exit (fuel : nat) (attempt : Z) (lastErr : option models.error)
    (w : runtime.World) :
  interfaces.MaxAttempts (RetryDecorator.policy d) <= attempt ->
  RetryDecorator.loop sched d request fuel attempt lastErr w = ((None, lastErr), w).
Proof.
  intros Hge. destruct fuel; simpl; [reflexivity|].
  replace (attempt <? interfaces.MaxAttempts (RetryDecorator.policy d)) with false by lia.
  reflexivity.
Qed.

Lemma loop_success (fuel : nat) (attempt : Z) (lastErr : option models.error)
    (w w1 : runtime.World) (resp : option models.Response) :
  attempt < interfaces.MaxAttempts (RetryDecorator.policy d) ->
  Go.Done (models.Ctx request) (runtime.clock w) = false ->
  RetryDecorator.wrapped d request w = ((resp, None), w1) ->
  RetryDecorator.loop sched d request (S fuel) attempt lastErr w = ((resp, None), w1).
Proof.
  intros Hlt Hdone Hw. simpl.
  replace (attempt <? interfaces.MaxAttempts (RetryDecorator.policy d)) with true by lia.
  now rewrite Hdone, Hw.
Qed.

Lemma loop_give_up (fuel : nat) (attempt : Z) (lastErr : option models.error)
    (w w1 : runtime.World) (resp : option models.Response) (e : models.error) :
  attempt < interfaces.MaxAttempts (RetryDecorator.policy d) ->
  Go.Done (models.Ctx request) (runtime.clock w) = false ->
  RetryDecorator.wrapped d request w = ((resp, Some e), w1) ->
  interfaces.ShouldRetry (RetryDecorator.policy d) e attempt = false ->
  RetryDecorator.loop sched d request (S fuel) attempt lastErr w = ((None, Some e), w1).
Proof.
  intros Hlt Hdone Hw Hno. simpl.
  replace (attempt <? interfaces.MaxAttempts (RetryDecorator.policy d)) with true by lia.
  now rewrite Hdone, Hw, Hno.
Qed.

Lemma loop_again (fuel : nat) (attempt : Z) (lastErr : option models.error)
    (w w1 : runtime.World) (resp : option models.Response) (e : models.error) :
  attempt < interfaces.MaxAttempts (RetryDecorator.policy d) ->
  Go.cancelAt (models.Ctx request) = None ->
  RetryDecorator.wrapped d request w = ((resp, Some e), w1) ->
  interfaces.ShouldRetry (RetryDecorator.policy d) e attempt = true ->
  RetryDecorator.loop sched d request (S fuel) attempt lastErr w
    = RetryDecorator.loop sched d request fuel (attempt + 1) (Some e)
        (runtime.set_clock
           (runtime.clock w1
              + Z.max 0 (interfaces.GetDelay (RetryDecorator.policy d) attempt)
              + runtime.lag sched) w1).
Proof.
  intros Hlt Hctx Hw Hyes. simpl.
  replace (attempt <? interfaces.MaxAttempts (RetryDecorator.policy d)) with true by lia.
  rewrite (Done_never _ _ Hctx), Hw, Hyes. simpl.
  unfold RetryDecorator.backoff. now rewrite Hctx.
Qed.

(** Whenever the decorator returns an error, the response it returns with
    it is nil. *)
Lemma loop_error_drops_response (fuel : nat) :
  forall (attempt : Z) (lastErr : option models.error) (w : runtime.World),
    snd (fst (RetryDecorator.loop sched d request fuel attempt lastErr w)) <> None ->
    fst (fst (RetryDecorator.loop sched d request fuel attempt lastErr w)) = None.
Proof.
  induction fuel as [|fuel IH]; intros attempt lastErr w; simpl; [reflexivity|].
  destruct (attempt <? interfaces.MaxAttempts (RetryDecorator.policy d)); [|reflexivity].
  destruct (Go.Done (models.Ctx request) (runtime.clock w)); [reflexivity|].
  destruct (RetryDecorator.wrapped d request w) as [[resp [e|]] w1].
  - destruct (interfaces.ShouldRetry (RetryDecorator.policy d) e attempt); simpl;
      [|reflexivity].
    destruct (RetryDecorator.backoff sched (models.Ctx request) _ w1) as [[|] w2];
      [apply IH | reflexivity].
  - simpl. congruence.
Qed.

(** One turn of the loop, written out. *)
Lemma loop_unfold (fuel : nat) (attempt : Z) (lastErr : option models.error)
    (w : runtime.World) :
  RetryDecorator.loop sched d request (S fuel) attempt lastErr w
  = if attempt <? interfaces.MaxAttempts (RetryDecorator.policy d) then
      if Go.Done (models.Ctx request) (runtime.clock w) then
        ((None, Some (RetryDecorator.ErrCancelled request)), w)
      else
        let '((resp, err), w) := RetryDecorator.wrapped d request w in
        match err with
        | None => ((resp, None), w)
        | Some e =>
            if negb (interfaces.ShouldRetry (RetryDecorator.policy d) e attempt) then
              ((None, Some e), w)
            else
              let delay := interfaces.GetDelay (RetryDecorator.policy d) attempt in
              let '(fired, w) := RetryDecorator.backoff sched (models.Ctx request) delay w in
              if fired then
                RetryDecorator.loop sched d request fuel (attempt + 1) (Some e) w
              else ((None, Some (RetryDecorator.ErrCancelledBackoff request)), w)
        end
    else ((None, lastErr), w).
Proof. reflexivity. Qed.

(** The bound on the iterations is never what ends the loop: with the
    attempts that are left as fuel, more fuel changes nothing. *)
Lemma loop_fuel (fuel : nat) :
  forall (attempt : Z) (lastErr : option models.error) (w : runtime.World),
    (Z.to_nat (interfaces.MaxAttempts (RetryDecorator.policy d) - attempt) <= fuel)%nat ->
    RetryDecorator.loop sched d request (S fuel) attempt lastErr w
      = RetryDecorator.loop sched d request fuel attempt lastErr w.
Proof.
  induction fuel as [|fuel IH]; intros attempt lastErr w Hfuel.
  - rewrite !loop_exit by lia. reflexivity.
  - rewrite (loop_unfold (S fuel)), (loop_unfold fuel).
    destruct (Z.ltb_spec attempt (interfaces.MaxAttempts (RetryDecorator.policy d)));
      [|reflexivity].
    destruct (Go.Done (models.Ctx request) (runtime.clock w)); [reflexivity|].
    destruct (RetryDecorator.wrapped d request w) as [[resp [e|]] w1]; [|reflexivity].
    destruct (negb (interfaces.ShouldRetry (RetryDecorator.policy d) e attempt));
      [reflexivity|].
    cbv zeta.
    destruct (RetryDecorator.backoff sched (models.Ctx request) _ w1) as [[|] w2];
      [|reflexivity].
    apply IH. lia.
Qed.

(** Everything the loop can return: a success of the wrapped client,
    unchanged; an error of the wrapped client, unchanged, with a nil
    response; one of the decorator's two cancellation errors; or, when no
    attempt is made, the error it was entered with. *)
Lemma loop_results (fuel : nat) :
  forall (attempt : Z) (lastErr : option models.error) (w w' : runtime.World)
         (resp : option models.Response) (err : option models.error),
    RetryDecorator.loop sched d request fuel attempt lastErr w = ((resp, err), w') ->
    (err = None /\ exists wk, RetryDecorator.wrapped d request wk = ((resp, None), w'))
    \/ (resp = None /\ exists wk wk' r e,
          RetryDecorator.wrapped d request wk = ((r, Some e), wk') /\ err = Some e)
    \/ (resp = None /\ err = Some (RetryDecorator.ErrCancelled request))
    \/ (resp = None /\ err = Some (RetryDecorator.ErrCancelledBackoff request))
    \/ (resp = None /\ err = lastErr /\ w' = w).
Proof.
  induction fuel as [|fuel IH]; intros attempt lastErr w w' resp err H.
  - simpl in H. inversion H; subst. now repeat right.
  - rewrite loop_unfold in H.
    destruct (attempt <? interfaces.MaxAttempts (RetryDecorator.policy d));
      [|inversion H; subst; now repeat right].
    destruct (Go.Done (models.Ctx request) (runtime.clock w));
      [inversion H; subst; right; right; left; now split|].
    destruct (RetryDecorator.wrapped d request w) as [[r [e|]] w1] eqn:Hw.
    + destruct (negb (interfaces.ShouldRetry (RetryDecorator.policy d) e attempt)).
      * inversion H; subst. right; left. split; [reflexivity|].
        now exists w, w', r, e.
      * cbv zeta in H.
        destruct (RetryDecorator.backoff sched (models.Ctx request) _ w1) as [[|] w2].
        -- destruct (IH _ _ _ _ _ _ H) as [H1|[H1|[H1|[H1|(-> & -> & ->)]]]].
           ++ now left.
           ++ right; now left.
           ++ right; right; now left.
           ++ right; right; right; now left.
           ++ right; left. split; [reflexivity|]. now exists w, w1, r, e.
        -- inversion H; subst. right; right; right; left. now split.
    + inversion H; subst. left. split; [reflexivity|]. now exists w.
Qed.

End RetryLoop.

(** ** RetryDecorator.Send over a transport that answers 5xx *)

Section Retry5xx.
Variable sched : runtime.Scheduler.
Variable overflow : Q -> Z.
Variable rp : RetryPolicy.t.
Variable c : HTTPClient.t.
Variable request : models.Request.

Let d : RetryDecorator.t :=
  RetryDecorator.NewRetryDecorator (HTTPClient.Send c)
    (RetryPolicy_as_IRetryPolicy overflow rp).

Hypothesis never_cancelled : Go.cancelAt (models.Ctx request) = None.
Hypothesis always_5xx :
  forall tm rq n t, exists r,
    fst (HTTPClient.Do (HTTPClient.httpClient c) tm rq n t) = HTTPClient.Answer r
    /\ 500 <= models.StatusCode r < 600.

Lemma Send_5xx (w : runtime.World) :
  exists r took,
    500 <= models.StatusCode r < 600
    /\ HTTPClient.Send c request w
       = ((Some {| models.HttpResp := r; models.RequestRef := request |},
           Some (HTTPError.to_error (runs.status_error request r))),
          runs.after_trip took w).
Proof.
  destruct (HTTPClient.Do (HTTPClient.httpClient c) (HTTPClient.timeout c) request
              (runtime.roundTrips w) (runtime.clock w)) as [trip took] eqn:E.
  destruct (always_5xx (HTTPClient.timeout c) request
              (runtime.roundTrips w) (runtime.clock w)) as [r [Hr Hs]].
  rewrite E in Hr. simpl in Hr. subst trip.
  exists r, took. split; [exact Hs|].
  apply (HTTPClient_Send_error_status c request w r took E). lia.
Qed.

Lemma status_error_IsServerError (r : models.HttpResponse) :
  500 <= models.StatusCode r < 600 ->
  HTTPError.IsServerError (runs.status_error request r) = true.
Proof.
  intros H. unfold HTTPError.IsServerError. simpl.
  apply andb_true_iff. split; lia.
Qed.

(** One attempt below the limit: the transport is called once, answers 5xx,
    and the loop goes on to the next attempt after the backoff. *)
Lemma loop_5xx (fuel : nat) (attempt : Z) (lastErr : option models.error)
    (w : runtime.World) :
  attempt < RetryPolicy.maxAttempts rp ->
  exists r took,
    500 <= models.StatusCode r < 600
    /\ HTTPClient.Send c request w
       = ((Some {| models.HttpResp := r; models.RequestRef := request |},
           Some (HTTPError.to_error (runs.status_error request r))),
          runs.after_trip took w)
    /\ RetryDecorator.loop sched d request (S fuel) attempt lastErr w
       = RetryDecorator.loop sched d request fuel (attempt + 1)
           (Some (HTTPError.to_error (runs.status_error request r)))
           (runs.after_backoff sched (RetryPolicy.GetDelay overflow rp attempt)
              (runs.after_trip took w)).
Proof.
  intros Hlt. destruct (Send_5xx w) as (r & took & Hs & HSend).
  exists r, took. split; [exact Hs|]. split; [exact HSend|].
  apply (loop_again sched d request fuel attempt lastErr w _ _ _ Hlt never_cancelled HSend).
  apply ShouldRetry_server; [exact Hlt|].
  now apply status_error_IsServerError.
Qed.

End Retry5xx.

(** C2: with [maxAttempts] 3, a request whose context is never done and a
    transport that answers every round trip with a 5xx status,
    [RetryDecorator.Send] makes exactly three round trips and returns, with a
    nil response, the server error of the third. *)
Theorem RetryDecorator_Send_three_attempts
    (sched : runtime.Scheduler) (overflow : Q -> Z) (rp : RetryPolicy.t)
    (c : HTTPClient.t) (request : models.Request) (w : runtime.World) :
  RetryPolicy.maxAttempts rp = 3 ->
  Go.cancelAt (models.Ctx request) = None ->
  (forall tm rq n t, exists r,
      fst (HTTPClient.Do (HTTPClient.httpClient c) tm rq n t) = HTTPClient.Answer r
      /\ 500 <= models.StatusCode r < 600) ->
  let send := RetryDecorator.Send sched
                (RetryDecorator.NewRetryDecorator (HTTPClient.Send c)
                   (RetryPolicy_as_IRetryPolicy overflow rp)) in
  exists (w2 : runtime.World) (e : HTTPError.t),
    runtime.roundTrips w2 = runtime.roundTrips w + 2
    /\ snd (fst (HTTPClient.Send c request w2)) = Some (HTTPError.to_error e)
    /\ HTTPError.IsServerError e = true
    /\ fst (send request w) = (None, Some (HTTPError.to_error e))
    /\ runtime.roundTrips (snd (send request w)) = runtime.roundTrips w + 3.
Proof.
  intros Hmax Hctx H5 send. subst send. unfold RetryDecorator.Send.
  change (interfaces.MaxAttempts
            (RetryDecorator.policy
               (RetryDecorator.NewRetryDecorator (HTTPClient.Send c)
                  (RetryPolicy_as_IRetryPolicy overflow rp))))
    with (RetryPolicy.maxAttempts rp).
  rewrite Hmax. change (Z.to_nat 3) with 3%nat.
  destruct (loop_5xx sched overflow rp c request Hctx H5 2 0 None w ltac:(lia))
    as (r1 & took1 & _ & _ & ->).
  set (w1 := runs.after_backoff sched _ (runs.after_trip took1 w)).
  destruct (loop_5xx sched overflow rp c request Hctx H5 1 (0 + 1) 
              (Some (HTTPError.to_error (runs.status_error request r1))) w1 ltac:(lia))
    as (r2 & took2 & _ & _ & ->).
  set (w2 := runs.after_backoff sched _ (runs.after_trip took2 w1)).
  destruct (loop_5xx sched overflow rp c request Hctx H5 0 (0 + 1 + 1)
              (Some (HTTPError.to_error (runs.status_error request r2))) w2 ltac:(lia))
    as (r3 & took3 & Hs3 & HSend3 & ->).
  rewrite loop_exit
    by (change (interfaces.MaxAttempts _) with (RetryPolicy.maxAttempts rp); lia).
  exists w2, (runs.status_error request r3).
  split; [subst w2 w1; simpl; lia|].
  split; [now rewrite HSend3|].
  split; [now apply status_error_IsServerError|].
  split; [reflexivity|].
  subst w2 w1. simpl. lia.
Qed.

Lemma RetryDecorator_Send_three_attempts_witness :
  fst (scenarios.retry 3 (scenarios.answering 500) scenarios.get scenarios.fresh)
    = (None, Some (HTTPError.to_error
                     (runs.status_error scenarios.get
                        {| models.StatusCode := 500; models.Body := "" |})))
  /\ runtime.roundTrips
       (snd (scenarios.retry 3 (scenarios.answering 500) scenarios.get scenarios.fresh)) = 3.
Proof.
  destruct (RetryDecorator_Send_three_attempts scenarios.late Go.amd64_overflow
              (RetryPolicy.NewRetryPolicy 3) (scenarios.answering 500)
              scenarios.get scenarios.fresh
              ltac:(reflexivity) ltac:(reflexivity)
              ltac:(intros; eexists; split; [reflexivity | simpl; lia]))
    as (w2 & e & _ & _ & _ & _ & Hn).
  split; [reflexivity | exact Hn].
Defined.

(** ** The circuit breaker under the retry loop *)

Lemma set_breaker_same (w : runtime.World) :
  runtime.set_breaker (runtime.breaker w) w = w.
Proof. destruct w; reflexivity. Qed.

(** [HTTPClient.Send] makes one round trip and leaves the breaker alone. *)
Lemma HTTPClient_Send_world (c : HTTPClient.t) (request : models.Request)
    (w : runtime.World) :
  snd (HTTPClient.Send c request w)
    = runs.after_trip
        (snd (HTTPClient.Do (HTTPClient.httpClient c) (HTTPClient.timeout c) request
                (runtime.roundTrips w) (runtime.clock w))) w.
Proof.
  unfold HTTPClient.Send.
  destruct (HTTPClient.Do _ _ _ _ _) as [[r|err] took]; simpl; [|reflexivity].
  destruct (models.StatusCode r >=? 400); reflexivity.
Qed.

(** A rejected call: the circuit-open error, and the wrapped function is not
    run (the world is the one the call found). *)
Lemma CircuitBreaker_Execute_rejected {W : Type} (now : W -> Go.Time)
    (get : W -> CircuitBreaker.t) (set : CircuitBreaker.t -> W -> W)
    (ctx : Go.Context) (fn : W -> models.Result * W) (w : W) :
  fst (CircuitBreaker.canExecute (now w) (get w)) = false ->
  CircuitBreaker.Execute now get set ctx fn w
    = ((None, Some CircuitBreaker.ErrOpen),
       set (snd (CircuitBreaker.canExecute (now w) (get w))) w).
Proof.
  intros H. unfold CircuitBreaker.Execute.
  destruct (CircuitBreaker.canExecute (now w) (get w)) as [ok cb].
  simpl in H. subst ok. reflexivity.
Qed.

Section RetryOverBreaker.
Variable c : HTTPClient.t.
Variable request : models.Request.

Let guarded : interfaces.IHTTPClient :=
  CircuitBreakerDecorator.Send
    (CircuitBreakerDecorator.NewCircuitBreakerDecorator (HTTPClient.Send c)).

Lemma guarded_closed_failure (w w1 : runtime.World)
    (resp : option models.Response) (e : models.error) :
  CircuitBreaker.state (runtime.breaker w) = CircuitBreaker.StateClosed ->
  HTTPClient.Send c request w = ((resp, Some e), w1) ->
  guarded request w
    = ((resp, Some e),
       runtime.set_breaker
         (CircuitBreaker.onFailure (runtime.clock w1) (runtime.breaker w1)) w1).
Proof.
  intros Hst HSend. unfold guarded, CircuitBreakerDecorator.Send, CircuitBreaker.Execute.
  unfold CircuitBreaker.canExecute. rewrite Hst. simpl.
  now rewrite set_breaker_same, HSend.
Qed.

Lemma guarded_open_rejected (w : runtime.World) :
  CircuitBreaker.state (runtime.breaker w) = CircuitBreaker.StateOpen ->
  Go.Since (runtime.clock w) (CircuitBreaker.lastFailureTime (runtime.breaker w))
    <= CircuitBreaker.timeout (runtime.breaker w) ->
  guarded request w = ((None, Some CircuitBreaker.ErrOpen), w).
Proof.
  intros Hst Hle. unfold guarded, CircuitBreakerDecorator.Send.
  rewrite CircuitBreaker_Execute_rejected;
    rewrite (canExecute_open_early _ _ Hst Hle); [|reflexivity].
  simpl. now rewrite set_breaker_same.
Qed.

End RetryOverBreaker.

(** C1, as stated, fails: over a transport whose every connection is refused,
    [retry(3)] around [circuitBreaker(2, 1s)] stops after the first round
    trip, with the breaker still closed, and returns that network error, not
    the circuit-open error. *)
Lemma retry_breaker_refused_connection :
  (forall w, snd (fst (HTTPClient.Send scenarios.refusing scenarios.get w)) <> None)
  /\ fst (scenarios.retry_breaker 3 scenarios.refusing scenarios.get scenarios.fresh)
       = (None, Some (HTTPError.to_error scenarios.refused))
  /\ HTTPError.to_error scenarios.refused <> CircuitBreaker.ErrOpen
  /\ runtime.roundTrips
       (snd (scenarios.retry_breaker 3 scenarios.refusing scenarios.get scenarios.fresh)) = 1
  /\ CircuitBreaker.state
       (runtime.breaker
          (snd (scenarios.retry_breaker 3 scenarios.refusing scenarios.get scenarios.fresh)))
       = CircuitBreaker.StateClosed.
Proof.
  split; [intros w; discriminate|].
  split; [reflexivity|]. split; [discriminate|]. split; reflexivity.
Qed.

(** C1, amended: the retry policy never retries the circuit-open error, at
    any attempt, and a rejected [Execute] returns that error without running
    the wrapped call.  With [maxAttempts] 3 around a fresh breaker with
    [failureThreshold] 2, a context that is never done, and a transport whose
    every call fails with an error the policy retries, when the backoff
    before the third attempt ends no later than [openTimeout] after the
    second failure, the third attempt is rejected by the open breaker: two
    round trips are made and [Send] returns the circuit-open error. *)
Theorem retry_stops_at_open_breaker
    (sched : runtime.Scheduler) (overflow : Q -> Z) (rp : RetryPolicy.t)
    (c : HTTPClient.t) (request : models.Request) (w : runtime.World)
    (openTimeout : Go.Duration) :
  RetryPolicy.maxAttempts rp = 3 ->
  Go.cancelAt (models.Ctx request) = None ->
  runtime.breaker w = CircuitBreaker.NewCircuitBreaker 2 openTimeout ->
  Z.max 0 (RetryPolicy.GetDelay overflow rp 1) + runtime.lag sched <= openTimeout ->
  (forall w', exists e,
      snd (fst (HTTPClient.Send c request w')) = Some e
      /\ RetryPolicy.ShouldRetry rp e 0 = true
      /\ RetryPolicy.ShouldRetry rp e 1 = true) ->
  let send := RetryDecorator.Send sched
                (RetryDecorator.NewRetryDecorator
                   (CircuitBreakerDecorator.Send
                      (CircuitBreakerDecorator.NewCircuitBreakerDecorator (HTTPClient.Send c)))
                   (RetryPolicy_as_IRetryPolicy overflow rp)) in
  (forall attempt, RetryPolicy.ShouldRetry rp CircuitBreaker.ErrOpen attempt = false)
  /\ (forall fn w',
        fst (CircuitBreaker.canExecute (runtime.clock w') (runtime.breaker w')) = false ->
        CircuitBreaker.Execute runtime.clock runtime.breaker runtime.set_breaker
          (models.Ctx request) fn w'
        = ((None, Some CircuitBreaker.ErrOpen),
           runtime.set_breaker
             (snd (CircuitBreaker.canExecute (runtime.clock w') (runtime.breaker w'))) w'))
  /\ fst (send request w) = (None, Some CircuitBreaker.ErrOpen)
  /\ runtime.roundTrips (snd (send request w)) = runtime.roundTrips w + 2
  /\ CircuitBreaker.state (runtime.breaker (snd (send request w))) = CircuitBreaker.StateOpen.
Proof.
  intros Hmax Hctx Hcb Hdelay Hfail send.
  split; [intros attempt; apply ShouldRetry_ErrorString|].
  split; [intros fn w' H; now apply CircuitBreaker_Execute_rejected|].
  subst send. unfold RetryDecorator.Send.
  set (d := RetryDecorator.NewRetryDecorator _ _).
  change (interfaces.MaxAttempts (RetryDecorator.policy d))
    with (RetryPolicy.maxAttempts rp).
  rewrite Hmax. change (Z.to_nat 3) with 3%nat.
  (* first attempt: the breaker is closed and counts one failure *)
  destruct (Hfail w) as (e1 & He1 & Hr1 & _).
  pose proof (HTTPClient_Send_world c request w) as Hw1.
  destruct (HTTPClient.Send c request w) as [[resp1 err1] w1] eqn:S1.
  simpl in He1, Hw1. subst err1.
  rewrite (loop_again sched d request 2 0 None w _ resp1 e1
             ltac:(change (interfaces.MaxAttempts (RetryDecorator.policy d))
                     with (RetryPolicy.maxAttempts rp); lia)
             Hctx
             (guarded_closed_failure c request w w1 resp1 e1
                ltac:(rewrite Hcb; reflexivity) S1)
             Hr1).
  remember (runtime.set_clock _ _) as w2 eqn:Ew2.
  assert (Hb2 : runtime.breaker w2
                = CircuitBreaker.with_lastFailureTime (runtime.clock w1)
                    (CircuitBreaker.with_failureCount 1
                       (CircuitBreaker.NewCircuitBreaker 2 openTimeout))).
  { rewrite Ew2. simpl. rewrite Hw1. simpl. rewrite Hcb. reflexivity. }
  assert (Hn2 : runtime.roundTrips w2 = runtime.roundTrips w + 1).
  { rewrite Ew2. simpl. rewrite Hw1. reflexivity. }
  clear Ew2.
  (* second attempt: the second failure opens the breaker *)
  destruct (Hfail w2) as (e2 & He2 & _ & Hr2).
  pose proof (HTTPClient_Send_world c request w2) as Hw3.
  destruct (HTTPClient.Send c request w2) as [[resp2 err2] w3] eqn:S2.
  simpl in He2, Hw3. subst err2.
  assert (Hst2 : CircuitBreaker.state (runtime.breaker w2) = CircuitBreaker.StateClosed)
    by (rewrite Hb2; reflexivity).
  rewrite (loop_again sched d request 1 (0 + 1) (Some e1) w2 _ resp2 e2
             ltac:(change (interfaces.MaxAttempts (RetryDecorator.policy d))
                     with (RetryPolicy.maxAttempts rp); lia)
             Hctx
             (guarded_closed_failure c request w2 w3 resp2 e2 Hst2 S2)
             Hr2).
  remember (runtime.set_clock _ _) as w4 eqn:Ew4.
  assert (Hb4 : runtime.breaker w4
                = CircuitBreaker.with_failureCount 0
                    (CircuitBreaker.with_state CircuitBreaker.StateOpen
                       (CircuitBreaker.with_lastFailureTime (runtime.clock w3)
                          (CircuitBreaker.with_failureCount 2
                             (CircuitBreaker.NewCircuitBreaker 2 openTimeout))))).
  { rewrite Ew4. simpl. rewrite Hw3. simpl. rewrite Hb2. reflexivity. }
  assert (Hn4 : runtime.roundTrips w4 = runtime.roundTrips w + 2).
  { rewrite Ew4. simpl. rewrite Hw3. simpl. lia. }
  assert (Hc4 : runtime.clock w4
                = runtime.clock w3
                  + Z.max 0 (RetryPolicy.GetDelay overflow rp (0 + 1)) + runtime.lag sched).
  { rewrite Ew4. reflexivity. }
  clear Ew4.
  (* third attempt: rejected by the open breaker, and not retried *)
  rewrite (loop_give_up sched d request 0 (0 + 1 + 1) (Some e2) w4 w4 None
             CircuitBreaker.ErrOpen
             ltac:(change (interfaces.MaxAttempts (RetryDecorator.policy d))
                     with (RetryPolicy.maxAttempts rp); lia)
             (Done_never _ _ Hctx)).
  - simpl. rewrite Hn4, Hb4. repeat split.
  - apply guarded_open_rejected.
    + rewrite Hb4. reflexivity.
    + rewrite Hb4, Hc4. unfold Go.Since. simpl. simpl in Hdelay. lia.
  - apply ShouldRetry_ErrorString.
Qed.

Lemma retry_stops_at_open_breaker_witness :
  fst (scenarios.retry_breaker 3 scenarios.timing_out scenarios.get scenarios.fresh)
    = (None, Some CircuitBreaker.ErrOpen).
Proof.
  refine (proj1 (proj2 (proj2
            (retry_stops_at_open_breaker scenarios.late Go.amd64_overflow
               (RetryPolicy.NewRetryPolicy 3) scenarios.timing_out
               scenarios.get scenarios.fresh Go.Second _ _ _ _ _)))).
  - reflexivity.
  - reflexivity.
  - reflexivity.
  - vm_compute. discriminate.
  - intros w'. eexists. split; [reflexivity|]. split; reflexivity.
Defined.

(** ** What the retry decorator hands back *)

(** [RetryDecorator.Send] never returns a response together with an error,
    whatever the wrapped client returns. *)
Lemma RetryDecorator_Send_response_or_error
    (sched : runtime.Scheduler) (d : RetryDecorator.t)
    (request : models.Request) (w : runtime.World) :
  fst (fst (RetryDecorator.Send sched d request w)) = None
  \/ snd (fst (RetryDecorator.Send sched d request w)) = None.
Proof.
  unfold RetryDecorator.Send.
  destruct (snd (fst (RetryDecorator.loop sched d request
                        (Z.to_nat (interfaces.MaxAttempts (RetryDecorator.policy d)))
                        0 None w))) as [e|] eqn:E; [left | now right].
  apply loop_error_drops_response. rewrite E. discriminate.
Qed.

(** Everything [RetryDecorator.Send] can return: a success of the wrapped
    client, unchanged; an error of the wrapped client, itself unchanged but
    with a nil response; one of its own two cancellation errors; or nothing at
    all, neither response nor error, when it makes no attempt. *)
Lemma RetryDecorator_Send_results
    (sched : runtime.Scheduler) (d : RetryDecorator.t)
    (request : models.Request) (w w' : runtime.World)
    (resp : option models.Response) (err : option models.error) :
  RetryDecorator.Send sched d request w = ((resp, err), w') ->
  (err = None /\ exists wk, RetryDecorator.wrapped d request wk = ((resp, None), w'))
  \/ (resp = None /\ exists wk wk' r e,
        RetryDecorator.wrapped d request wk = ((r, Some e), wk') /\ err = Some e)
  \/ (resp = None /\ err = Some (RetryDecorator.ErrCancelled request))
  \/ (resp = None /\ err = Some (RetryDecorator.ErrCancelledBackoff request))
  \/ (resp = None /\ err = None /\ w' = w).
Proof. apply loop_results. Qed.

(** [Send] is the whole loop: its result is the one of the loop run with any
    larger bound on the iterations. *)
Lemma RetryDecorator_Send_fuel
    (sched : runtime.Scheduler) (d : RetryDecorator.t)
    (request : models.Request) (w : runtime.World) (extra : nat) :
  RetryDecorator.loop sched d request
    (extra + Z.to_nat (interfaces.MaxAttempts (RetryDecorator.policy d))) 0 None w
  = RetryDecorator.Send sched d request w.
Proof.
  induction extra as [|extra IH]; [reflexivity|].
  change (S extra + Z.to_nat (interfaces.MaxAttempts (RetryDecorator.policy d)))%nat
    with (S (extra + Z.to_nat (interfaces.MaxAttempts (RetryDecorator.policy d)))).
  rewrite loop_fuel; [exact IH | lia].
Qed.


(* ================================================================== *)
(** * Further properties of the code *)

(** ** CircuitBreaker: half-open, re-opening, sequential runs *)

Ltac int64_range :=
  unfold Go.in_int64, Go.MinInt64, Go.MaxInt64 in *; lia.

Lemma record_all_successes_half_open (cb : CircuitBreaker.t) (evs : list runs.Recorded) :
  CircuitBreaker.state cb = CircuitBreaker.StateHalfOpen ->
  CircuitBreaker.successCount cb = 0 ->
  Go.in_int64 (CircuitBreaker.successThreshold cb) ->
  Forall (fun ev => snd ev = None) evs ->
  Z.of_nat (List.length evs) < CircuitBreaker.successThreshold cb ->
  CircuitBreaker.state (runs.record_all evs cb) = CircuitBreaker.StateHalfOpen
  /\ CircuitBreaker.successCount (runs.record_all evs cb) = Z.of_nat (List.length evs)
  /\ CircuitBreaker.successThreshold (runs.record_all evs cb)
       = CircuitBreaker.successThreshold cb.
Proof.
  intros Hst Hsc Hrange Hall. induction evs as [|ev evs IH] using rev_ind; intros Hlen.
  - simpl. now rewrite Hst, Hsc.
  - apply Forall_app in Hall. destruct Hall as [Hall Hev].
    inversion Hev as [|? ? Hnone _]; subst.
    rewrite List.length_app in Hlen. simpl in Hlen.
    destruct (IH Hall ltac:(lia)) as (IHst & IHsc & IHth).
    rewrite record_all_snoc, Hnone, List.length_app. simpl List.length.
    destruct (runs.record_all evs cb) as [st fc sc lf ls ft stt tm].
    simpl in *. subst st sc stt.
    unfold CircuitBreaker.onSuccess. simpl.
    rewrite wrap64_id by int64_range.
    destruct (Z.geb_spec (Z.of_nat (List.length evs) + 1) (CircuitBreaker.successThreshold cb));
      [lia|].
    simpl. repeat split. lia.
Qed.

(** X1: a half-open breaker, as the admission check leaves it, stays
    half-open while it records fewer successes than [successThreshold], with
    [successCount] the number recorded; the success that brings the number to
    [successThreshold] closes it, with both counters 0. *)
Theorem HalfOpen_closes_at_successThreshold
    (cb : CircuitBreaker.t) (evs : list runs.Recorded) (ev : runs.Recorded) :
  CircuitBreaker.state cb = CircuitBreaker.StateHalfOpen ->
  CircuitBreaker.successCount cb = 0 ->
  Go.in_int64 (CircuitBreaker.successThreshold cb) ->
  Forall (fun ev => snd ev = None) (evs ++ [ev]) ->
  Z.of_nat (List.length evs) < CircuitBreaker.successThreshold cb ->
  CircuitBreaker.state (runs.record_all evs cb) = CircuitBreaker.StateHalfOpen
  /\ CircuitBreaker.successCount (runs.record_all evs cb) = Z.of_nat (List.length evs)
  /\ (Z.of_nat (List.length evs) + 1 < CircuitBreaker.successThreshold cb ->
        CircuitBreaker.state (runs.record_all (evs ++ [ev]) cb)
          = CircuitBreaker.StateHalfOpen)
  /\ (Z.of_nat (List.length evs) + 1 = CircuitBreaker.successThreshold cb ->
        CircuitBreaker.state (runs.record_all (evs ++ [ev]) cb)
          = CircuitBreaker.StateClosed
        /\ CircuitBreaker.failureCount (runs.record_all (evs ++ [ev]) cb) = 0
        /\ CircuitBreaker.successCount (runs.record_all (evs ++ [ev]) cb) = 0).
Proof.
  intros Hst Hsc Hrange Hall Hlen.
  pose proof Hall as Hall'. apply Forall_app in Hall'. destruct Hall' as [Hevs Hev].
  destruct (record_all_successes_half_open cb evs Hst Hsc Hrange Hevs Hlen)
    as (H1 & H2 & H3).
  split; [exact H1|]. split; [exact H2|]. split.
  - intros Hlt.
    assert (Hlen' : Z.of_nat (List.length (evs ++ [ev])) < CircuitBreaker.successThreshold cb)
      by (rewrite List.length_app; simpl; lia).
    now destruct (record_all_successes_half_open cb (evs ++ [ev]) Hst Hsc Hrange Hall Hlen').
  - intros Heq. inversion Hev as [|? ? Hnone _]; subst.
    rewrite record_all_snoc, Hnone.
    destruct (runs.record_all evs cb) as [st fc sc lf ls ft stt tm].
    simpl in *. subst st sc stt.
    unfold CircuitBreaker.onSuccess. simpl.
    rewrite wrap64_id by int64_range.
    destruct (Z.geb_spec (Z.of_nat (List.length evs) + 1) (CircuitBreaker.successThreshold cb));
      [|lia].
    simpl. repeat split.
Qed.

Lemma HalfOpen_closes_at_successThreshold_witness :
  CircuitBreaker.state
    (runs.record_all ([(1200, None)] ++ [(1300, None)])
       (snd (CircuitBreaker.canExecute 1101
               (CircuitBreaker.onFailure 100
                  (CircuitBreaker.onFailure 90 (CircuitBreaker.NewCircuitBreaker 2 1000))))))
  = CircuitBreaker.StateClosed.
Proof.
  refine (proj1 (proj2 (proj2 (proj2
            (HalfOpen_closes_at_successThreshold
               (snd (CircuitBreaker.canExecute 1101
                       (CircuitBreaker.onFailure 100
                          (CircuitBreaker.onFailure 90
                             (CircuitBreaker.NewCircuitBreaker 2 1000)))))
               [(1200, None)] (1300, None) _ _ _ _ _))) _)).
  - reflexivity.
  - reflexivity.
  - vm_compute. split; discriminate.
  - repeat constructor.
  - reflexivity.
  - reflexivity.
Defined.

(** X2: however the breaker is opened at an instant [t] (a failure while
    half-open, the failure that reaches the threshold while closed, or
    [Trip]), it is open with [failureCount] 0 and [lastFailureTime] [t]:
    every admission check up to [timeout] after [t] is refused and changes
    nothing, and a check later than that is admitted and leaves the breaker
    half-open with [successCount] 0. *)
Theorem opening_starts_a_timeout_window
    (cb cb' : CircuitBreaker.t) (t now : Go.Time) :
  cb' = CircuitBreaker.Trip t cb
  \/ (cb' = CircuitBreaker.onFailure t cb
      /\ CircuitBreaker.state cb <> CircuitBreaker.StateOpen
      /\ CircuitBreaker.state cb' = CircuitBreaker.StateOpen) ->
  CircuitBreaker.state cb' = CircuitBreaker.StateOpen
  /\ CircuitBreaker.failureCount cb' = 0
  /\ CircuitBreaker.lastFailureTime cb' = t
  /\ CircuitBreaker.timeout cb' = CircuitBreaker.timeout cb
  /\ (now - t <= CircuitBreaker.timeout cb ->
        CircuitBreaker.canExecute now cb' = (false, cb'))
  /\ (CircuitBreaker.timeout cb < now - t ->
        fst (CircuitBreaker.canExecute now cb') = true
        /\ CircuitBreaker.state (snd (CircuitBreaker.canExecute now cb'))
             = CircuitBreaker.StateHalfOpen
        /\ CircuitBreaker.successCount (snd (CircuitBreaker.canExecute now cb')) = 0).
Proof.
  intros H.
  assert (Hopen : CircuitBreaker.state cb' = CircuitBreaker.StateOpen
                  /\ CircuitBreaker.failureCount cb' = 0
                  /\ CircuitBreaker.lastFailureTime cb' = t
                  /\ CircuitBreaker.timeout cb' = CircuitBreaker.timeout cb).
  { destruct H as [-> | (-> & Hne & Hst)].
    - repeat split.
    - destruct (onFailure_opens t cb Hne Hst) as [Hl Hf].
      repeat split; try assumption.
      destruct cb as [st fc sc lf ls ft stt tm]. unfold CircuitBreaker.onFailure. simpl.
      destruct st; simpl; try reflexivity.
      destruct (Go.wrap64 (fc + 1) >=? ft); reflexivity. }
  destruct Hopen as (Hst & Hfc & Hlf & Htm).
  repeat split; try assumption.
  - intros Hle. apply canExecute_open_early; [exact Hst|].
    rewrite Hlf, Htm. exact Hle.
  - rewrite canExecute_open_late; [reflexivity | exact Hst |].
    rewrite Hlf, Htm. unfold Go.Since. assumption.
  - rewrite canExecute_open_late; [reflexivity | exact Hst |].
    rewrite Hlf, Htm. unfold Go.Since. assumption.
  - rewrite canExecute_open_late; [reflexivity | exact Hst |].
    rewrite Hlf, Htm. unfold Go.Since. assumption.
Qed.

Lemma opening_starts_a_timeout_window_witness :
  CircuitBreaker.canExecute 1500
    (CircuitBreaker.Trip 1000 (CircuitBreaker.NewCircuitBreaker 5 500))
  = (false, CircuitBreaker.Trip 1000 (CircuitBreaker.NewCircuitBreaker 5 500)).
Proof.
  refine (proj1 (proj2 (proj2 (proj2 (proj2
            (opening_starts_a_timeout_window
               (CircuitBreaker.NewCircuitBreaker 5 500)
               (CircuitBreaker.Trip 1000 (CircuitBreaker.NewCircuitBreaker 5 500))
               1000 1500 _))))) _).
  - left. reflexivity.
  - vm_compute. discriminate.
Defined.

Ltac break_ifs :=
  repeat match goal with
         | |- context [if ?c then _ else _] => destruct c eqn:?; simpl
         end.

Lemma execute_thresholds (call : breaker_runs.Call) (cb : CircuitBreaker.t) :
  CircuitBreaker.failureThreshold (snd (breaker_runs.execute call cb))
    = CircuitBreaker.failureThreshold cb
  /\ CircuitBreaker.successThreshold (snd (breaker_runs.execute call cb))
       = CircuitBreaker.successThreshold cb
  /\ CircuitBreaker.timeout (snd (breaker_runs.execute call cb))
       = CircuitBreaker.timeout cb.
Proof.
  destruct cb as [st fc sc lf ls ft stt tm], call as [s tk [resp err]].
  unfold breaker_runs.execute, CircuitBreaker.Execute, CircuitBreaker.canExecute,
    breaker_runs.work, breaker_runs.cell_get, breaker_runs.cell_set, breaker_runs.cell_now.
  simpl.
  destruct st, err; simpl; unfold CircuitBreaker.onFailure, CircuitBreaker.onSuccess;
    simpl; break_ifs; unfold CircuitBreaker.onFailure, CircuitBreaker.onSuccess; simpl;
    break_ifs; repeat split.
Qed.

Lemma execute_counters (call : breaker_runs.Call) (cb : CircuitBreaker.t) :
  Go.in_int64 (CircuitBreaker.failureThreshold cb) ->
  Go.in_int64 (CircuitBreaker.successThreshold cb) ->
  breaker_runs.counters_inv cb ->
  breaker_runs.counters_inv (snd (breaker_runs.execute call cb)).
Proof.
  intros Hft Hstt Hinv.
  destruct cb as [st fc sc lf ls ft stt tm], call as [s tk [resp err]].
  unfold breaker_runs.counters_inv in *.
  unfold breaker_runs.execute, CircuitBreaker.Execute, CircuitBreaker.canExecute,
    breaker_runs.work, breaker_runs.cell_get, breaker_runs.cell_set, breaker_runs.cell_now.
  simpl in *.
  destruct st; simpl in *;
    [ destruct Hinv as (Hsc & Hfc0 & Hfc); subst sc
    | destruct Hinv as [Hfc Hsc]; subst fc sc
    | destruct Hinv as (Hfc & Hsc0 & Hsc); subst fc ];
    try (destruct (Go.Since s lf >? tm); simpl; [|now split]);
    destruct err; simpl; unfold CircuitBreaker.onFailure, CircuitBreaker.onSuccess; simpl;
    rewrite ?wrap64_id by int64_range;
    repeat match goal with
           | |- context [?a >=? ?b] => destruct (Z.geb_spec a b); simpl
           end;
    repeat split; lia.
Qed.

Lemma execute_all_snoc (calls : list breaker_runs.Call) (call : breaker_runs.Call)
    (cb : CircuitBreaker.t) :
  breaker_runs.execute_all (calls ++ [call]) cb
    = snd (breaker_runs.execute call (breaker_runs.execute_all calls cb)).
Proof. unfold breaker_runs.execute_all. now rewrite fold_left_app. Qed.

(** X3: in every sequential run of [Execute] on a breaker made by
    [NewCircuitBreaker], whatever the calls return and however long they
    take: an open breaker has both counters at 0, a closed one has
    [successCount] 0 and [failureCount] at least 0 and below
    [failureThreshold] (or 0), a half-open one has [failureCount] 0 and
    [successCount] at least 0 and below [successThreshold] (or 0); the
    thresholds and the timeout never change. *)
Theorem Execute_keeps_counters
    (failureThreshold : Z) (timeout : Go.Duration) (calls : list breaker_runs.Call) :
  Go.in_int64 failureThreshold ->
  let cb := breaker_runs.execute_all calls
              (CircuitBreaker.NewCircuitBreaker failureThreshold timeout) in
  breaker_runs.counters_inv cb
  /\ CircuitBreaker.failureThreshold cb = failureThreshold
  /\ CircuitBreaker.successThreshold cb = 2
  /\ CircuitBreaker.timeout cb = timeout.
Proof.
  intros Hft cb. subst cb.
  induction calls as [|call calls IH] using rev_ind.
  - simpl. unfold breaker_runs.counters_inv. simpl. repeat split; lia.
  - rewrite execute_all_snoc. destruct IH as (Hinv & H1 & H2 & H3).
    destruct (execute_thresholds call
                (breaker_runs.execute_all calls
                   (CircuitBreaker.NewCircuitBreaker failureThreshold timeout)))
      as (T1 & T2 & T3).
    split; [|rewrite T1, T2, T3; now repeat split].
    apply execute_counters; [now rewrite H1 | rewrite H2; int64_range | exact Hinv].
Qed.

Lemma Execute_keeps_counters_witness :
  breaker_runs.counters_inv
    (breaker_runs.execute_all
       [{| breaker_runs.start := 0; breaker_runs.took := 5;
           breaker_runs.outcome := (None, Some CircuitBreaker.ErrOpen) |};
        {| breaker_runs.start := 10; breaker_runs.took := 5;
           breaker_runs.outcome := (None, Some CircuitBreaker.ErrOpen) |};
        {| breaker_runs.start := 2000; breaker_runs.took := 5;
           breaker_runs.outcome := (None, None) |}]
       (CircuitBreaker.NewCircuitBreaker 2 1000)).
Proof.
  refine (proj1 (Execute_keeps_counters 2 1000 _ _)).
  vm_compute. split; discriminate.
Defined.

(** ** CircuitBreaker: Reset *)

Lemma recordResult_same_gate (now now' : Go.Time) (err : option models.error)
    (a b : CircuitBreaker.t) :
  breaker_runs.same_gate a b ->
  breaker_runs.same_gate (CircuitBreaker.recordResult now err a)
    (CircuitBreaker.recordResult now' err b).
Proof.
  destruct a as [st fc sc lf ls ft stt tm], b as [st' fc' sc' lf' ls' ft' stt' tm'].
  unfold breaker_runs.same_gate. simpl. intros (-> & -> & -> & -> & -> & ->).
  destruct err; simpl; unfold CircuitBreaker.onFailure, CircuitBreaker.onSuccess; simpl;
    destruct st'; simpl; try (repeat split; fail).
  - destruct (Go.wrap64 (fc' + 1) >=? ft'); simpl; repeat split.
  - destruct (Go.wrap64 (sc' + 1) >=? stt'); simpl; repeat split.
Qed.

(** X4: after [Reset] the breaker gates as a new one does: whatever it went
    through before, recording any further sequence of results leaves it
    with the state and the counters that a breaker fresh from
    [NewCircuitBreaker] with the same threshold and timeout has after the
    same sequence; in particular it is closed and admits right after the
    reset. *)
Theorem Reset_gates_like_new (cb : CircuitBreaker.t) (evs : list runs.Recorded) (now : Go.Time) :
  CircuitBreaker.successThreshold cb = 2 ->
  breaker_runs.same_gate
    (runs.record_all evs (CircuitBreaker.Reset cb))
    (runs.record_all evs
       (CircuitBreaker.NewCircuitBreaker (CircuitBreaker.failureThreshold cb)
          (CircuitBreaker.timeout cb)))
  /\ CircuitBreaker.canExecute now (CircuitBreaker.Reset cb)
       = (true, CircuitBreaker.Reset cb).
Proof.
  intros Hst. split; [|reflexivity].
  induction evs as [|ev evs IH] using rev_ind.
  - unfold breaker_runs.same_gate. simpl. repeat split. exact Hst.
  - rewrite !record_all_snoc. now apply recordResult_same_gate.
Qed.

Lemma Reset_gates_like_new_witness :
  breaker_runs.same_gate
    (runs.record_all [(1200, Some CircuitBreaker.ErrOpen)]
       (CircuitBreaker.Reset
          (CircuitBreaker.Trip 1000 (CircuitBreaker.NewCircuitBreaker 2 500))))
    (runs.record_all [(1200, Some CircuitBreaker.ErrOpen)]
       (CircuitBreaker.NewCircuitBreaker 2 500)).
Proof.
  exact (proj1 (Reset_gates_like_new
                  (CircuitBreaker.Trip 1000 (CircuitBreaker.NewCircuitBreaker 2 500))
                  [(1200, Some CircuitBreaker.ErrOpen)] 0 ltac:(reflexivity))).
Defined.

(** ** RetryPolicy: the list of retryable statuses *)

Lemma listed_In (rp : RetryPolicy.t) (code : Z) :
  RetryPolicy.listed rp code = true <-> In code (RetryPolicy.retryableErrors rp).
Proof.
  unfold RetryPolicy.listed. rewrite existsb_exists. split.
  - intros (c & Hin & Heq). apply Z.eqb_eq in Heq. now subst.
  - intros Hin. exists code. split; [exact Hin | apply Z.eqb_refl].
Qed.

(** X5: [WithRetryableStatusCodes] replaces the list of retryable statuses
    and nothing else.  Afterwards, below the attempt limit, an error that is
    not a timeout is retried exactly when it is a 5xx or its status is among
    the given codes: the 5xx stay retried whatever the codes are, and a 408
    or 429 is retried only if it is given again.  The attempt limit and the
    delays are those of before. *)
Theorem WithRetryableStatusCodes_replaces_list
    (rp : RetryPolicy.t) (codes : list Z) (e : HTTPError.t) (attempt : Z) :
  attempt < RetryPolicy.maxAttempts rp ->
  HTTPError.IsTimeout e = false ->
  (RetryPolicy.ShouldRetry (RetryPolicy.WithRetryableStatusCodes rp codes)
     (HTTPError.to_error e) attempt = true
   <-> HTTPError.IsServerError e = true \/ In (HTTPError.StatusCode e) codes)
  /\ RetryPolicy.MaxAttempts (RetryPolicy.WithRetryableStatusCodes rp codes)
     = RetryPolicy.MaxAttempts rp
  /\ (forall (overflow : Q -> Z) (n : Z),
        RetryPolicy.GetDelay overflow (RetryPolicy.WithRetryableStatusCodes rp codes) n
        = RetryPolicy.GetDelay overflow rp n).
Proof.
  intros Hlt Ht. split; [|split; reflexivity].
  rewrite ShouldRetry_not_timeout by assumption.
  rewrite orb_true_iff, listed_In. reflexivity.
Qed.

Lemma WithRetryableStatusCodes_replaces_list_witness :
  RetryPolicy.ShouldRetry
    (RetryPolicy.WithRetryableStatusCodes (RetryPolicy.NewRetryPolicy 3) [404])
    (HTTPError.to_error
       (runs.status_error scenarios.get {| models.StatusCode := 503; models.Body := "" |}))
    1 = true.
Proof.
  apply (proj1 (WithRetryableStatusCodes_replaces_list (RetryPolicy.NewRetryPolicy 3) [404]
                  (runs.status_error scenarios.get
                     {| models.StatusCode := 503; models.Body := "" |})
                  1 ltac:(reflexivity) ltac:(reflexivity))).
  left. reflexivity.
Defined.

Lemma ShouldRetry_at_limit (rp : RetryPolicy.t) (err : models.error) (attempt : Z) :
  RetryPolicy.maxAttempts rp <= attempt ->
  RetryPolicy.ShouldRetry rp err attempt = false.
Proof.
  intros Hge. unfold RetryPolicy.ShouldRetry.
  now replace (attempt >=? RetryPolicy.maxAttempts rp) with true by lia.
Qed.

(** X6: [AddRetryableStatusCode] only adds: every error that was retried
    is still retried, and the errors that are retried in addition are those
    of the added status, below the attempt limit. *)
Theorem AddRetryableStatusCode_only_adds
    (rp : RetryPolicy.t) (code : Z) (e : HTTPError.t) (attempt : Z) :
  RetryPolicy.ShouldRetry (RetryPolicyOps.AddRetryableStatusCode rp code)
    (HTTPError.to_error e) attempt = true
  <-> RetryPolicy.ShouldRetry rp (HTTPError.to_error e) attempt = true
      \/ (attempt < RetryPolicy.maxAttempts rp /\ HTTPError.StatusCode e = code).
Proof.
  destruct (Z.lt_ge_cases attempt (RetryPolicy.maxAttempts rp)) as [Hlt|Hge].
  - destruct (HTTPError.IsTimeout e) eqn:Ht.
    + rewrite !ShouldRetry_timeout by assumption. tauto.
    + rewrite !ShouldRetry_not_timeout by assumption.
      rewrite !orb_true_iff, !listed_In. simpl. rewrite in_app_iff. simpl.
      split.
      * intros [Hs|[Hin|[Heq|[]]]]; [tauto | tauto | right; split; [exact Hlt | now symmetry]].
      * intros [[Hs|Hin]|[_ Heq]]; [tauto | tauto | right; right; left; now symmetry].
  - rewrite !ShouldRetry_at_limit by assumption. split; [discriminate|].
    intros [H|[H _]]; [discriminate | simpl in *; lia].
Qed.

(** ** RetryPolicy.GetDelay: the shape of the backoff *)

Lemma truncate_Qfloor (x : Q) : (0 <= x)%Q -> Go.truncate x = Qfloor x.
Proof.
  destruct x as [n d]. unfold Qle, Go.truncate, Qfloor. simpl. intros Hn.
  apply Z.quot_div_nonneg; lia.
Qed.

Lemma inject_Z_nonneg (z : Z) : 0 <= z -> (0 <= inject_Z z)%Q.
Proof. intros H. unfold Qle. simpl. lia. Qed.

Lemma truncate_le (x y : Q) : (0 <= x)%Q -> (x <= y)%Q -> Go.truncate x <= Go.truncate y.
Proof.
  intros Hx Hxy. rewrite !truncate_Qfloor by (try assumption; now apply Qle_trans with x).
  now apply Qfloor_resp_le.
Qed.

(** The product [initialDelay * multiplier ^ n] of [GetDelay]. *)
Lemma backoff_product_le (rp : RetryPolicy.t) (n m : Z) :
  0 <= RetryPolicy.initialDelay rp ->
  (1 <= RetryPolicy.multiplier rp)%Q ->
  0 <= n <= m ->
  (0 <= inject_Z (RetryPolicy.initialDelay rp) * Qpower (RetryPolicy.multiplier rp) n)%Q
  /\ (inject_Z (RetryPolicy.initialDelay rp) <=
        inject_Z (RetryPolicy.initialDelay rp) * Qpower (RetryPolicy.multiplier rp) n)%Q
  /\ (inject_Z (RetryPolicy.initialDelay rp) * Qpower (RetryPolicy.multiplier rp) n
      <= inject_Z (RetryPolicy.initialDelay rp) * Qpower (RetryPolicy.multiplier rp) m)%Q.
Proof.
  intros Hi Hm Hnm.
  assert (Hi' : (0 <= inject_Z (RetryPolicy.initialDelay rp))%Q)
    by (now apply inject_Z_nonneg).
  assert (H1 : (1 <= Qpower (RetryPolicy.multiplier rp) n)%Q)
    by (apply Qpower_1_le; [assumption | lia]).
  assert (Hle : (Qpower (RetryPolicy.multiplier rp) n
                 <= Qpower (RetryPolicy.multiplier rp) m)%Q)
    by (apply Qpower_le_compat_l; [lia | assumption]).
  remember (inject_Z (RetryPolicy.initialDelay rp)) as i.
  remember (Qpower (RetryPolicy.multiplier rp) n) as pn.
  remember (Qpower (RetryPolicy.multiplier rp) m) as pm.
  split; [|split]; nra.
Qed.

(** X7: the backoff of a policy never shrinks and never leaves the window,
    for an initial delay between 1 and 2^53 nanoseconds and a multiplier that
    is a power of two 2^j with j >= 0, as the default 2 is: there
    [float64(initialDelay)], [math.Pow] and their product are exact.  For
    attempts 1 <= a <= b, as long as the product for [b] fits a 64-bit
    integer, [GetDelay a <= GetDelay b], both are at most [maxDelay], and
    both are at least the smaller of [initialDelay] and [maxDelay], on every
    platform. *)
Theorem GetDelay_never_shrinks (overflow : Q -> Z) (rp : RetryPolicy.t) (j a b : Z) :
  1 <= RetryPolicy.initialDelay rp <= 2 ^ 53 ->
  0 <= j ->
  (RetryPolicy.multiplier rp == inject_Z (2 ^ j))%Q ->
  1 <= a <= b ->
  b <= Go.MaxInt64 ->
  Go.in_int64 (Go.truncate (inject_Z (RetryPolicy.initialDelay rp)
                            * Qpower (RetryPolicy.multiplier rp) (b - 1))) ->
  Z.min (RetryPolicy.initialDelay rp) (RetryPolicy.maxDelay rp)
    <= RetryPolicy.GetDelay overflow rp a
  /\ RetryPolicy.GetDelay overflow rp a <= RetryPolicy.GetDelay overflow rp b
  /\ RetryPolicy.GetDelay overflow rp b <= RetryPolicy.maxDelay rp.
Proof.
  intros [Hi1 _] Hj Hpow Hab Hb Hrange.
  assert (Hi : 0 <= RetryPolicy.initialDelay rp) by lia.
  assert (Hm : (1 <= RetryPolicy.multiplier rp)%Q).
  { rewrite Hpow. change 1%Q with (inject_Z 1). rewrite <- Zle_Qle.
    pose proof (Z.pow_pos_nonneg 2 j ltac:(lia) Hj). lia. }
  destruct (backoff_product_le rp (a - 1) (b - 1) Hi Hm ltac:(lia)) as (H0 & Hlow & Hle).
  pose proof (truncate_le _ _ H0 Hle) as Htr.
  assert (Hlo : RetryPolicy.initialDelay rp
                <= Go.truncate (inject_Z (RetryPolicy.initialDelay rp)
                                * Qpower (RetryPolicy.multiplier rp) (a - 1))).
  { rewrite <- (truncate_inject_Z (RetryPolicy.initialDelay rp)) at 1.
    apply truncate_le; [now apply inject_Z_nonneg | exact Hlow]. }
  assert (Hra : Go.in_int64 (Go.truncate (inject_Z (RetryPolicy.initialDelay rp)
                                           * Qpower (RetryPolicy.multiplier rp) (a - 1))))
    by int64_range.
  pose proof (GetDelay_in_range overflow rp (a - 1)
                ltac:(unfold Go.MaxInt64 in *; lia) Hra) as Ea.
  pose proof (GetDelay_in_range overflow rp (b - 1)
                ltac:(unfold Go.MaxInt64 in *; lia) Hrange) as Eb.
  replace (a - 1 + 1) with a in Ea by lia.
  replace (b - 1 + 1) with b in Eb by lia.
  rewrite Ea, Eb. lia.
Qed.

Lemma GetDelay_never_shrinks_witness :
  RetryPolicy.GetDelay Go.amd64_overflow (RetryPolicy.NewRetryPolicy 10) 2
    <= RetryPolicy.GetDelay Go.amd64_overflow (RetryPolicy.NewRetryPolicy 10) 9.
Proof.
  refine (proj1 (proj2 (GetDelay_never_shrinks Go.amd64_overflow
                          (RetryPolicy.NewRetryPolicy 10) 1 2 9 _ _ _ _ _ _))).
  - vm_compute. split; discriminate.
  - lia.
  - reflexivity.
  - lia.
  - vm_compute. discriminate.
  - vm_compute. split; discriminate.
Defined.

(** ** RetryDecorator.Send: how many attempts, and when it returns *)



Section RetryBounds.
Variable sched : runtime.Scheduler.
Variable d : RetryDecorator.t.
Variable request : models.Request.

Hypothesis lag_nonneg : 0 <= runtime.lag sched.
Hypothesis one_trip :
  forall w0,
    runtime.roundTrips w0 <= runtime.roundTrips (snd (RetryDecorator.wrapped d request w0))
      <= runtime.roundTrips w0 + 1
    /\ runtime.clock w0 <= runtime.clock (snd (RetryDecorator.wrapped d request w0)).

Lemma backoff_world (ctx : Go.Context) (delay : Go.Duration) (w : runtime.World) :
  runtime.roundTrips (snd (RetryDecorator.backoff sched ctx delay w)) = runtime.roundTrips w
  /\ runtime.clock w <= runtime.clock (snd (RetryDecorator.backoff sched ctx delay w)).
Proof.
  unfold RetryDecorator.backoff. destruct (Go.cancelAt ctx) as [c|]; simpl; [|lia].
  destruct ((c <=? runtime.clock w) && (delay <=? 0));
    [destruct (runtime.pick sched); simpl; lia|].
  destruct (Z.max (runtime.clock w) c <? runtime.clock w + Z.max 0 delay + runtime.lag sched);
    simpl; [lia|].
  destruct (runtime.clock w + Z.max 0 delay + runtime.lag sched <? Z.max (runtime.clock w) c);
    simpl; lia.
Qed.

Lemma loop_bounds (fuel : nat) :
  forall (attempt : Z) (lastErr : option models.error) (w : runtime.World),
    runtime.roundTrips w
      <= runtime.roundTrips (snd (RetryDecorator.loop sched d request fuel attempt lastErr w))
      <= runtime.roundTrips w + Z.of_nat fuel
    /\ runtime.clock w
       <= runtime.clock (snd (RetryDecorator.loop sched d request fuel attempt lastErr w)).
Proof.
  induction fuel as [|fuel IH]; intros attempt lastErr w; [simpl; lia|].
  rewrite loop_unfold.
  destruct (attempt <? interfaces.MaxAttempts (RetryDecorator.policy d)); [|simpl; lia].
  destruct (Go.Done (models.Ctx request) (runtime.clock w)); [simpl; lia|].
  pose proof (one_trip w) as Hw.
  destruct (RetryDecorator.wrapped d request w) as [[resp [e|]] w1]; simpl in Hw;
    [|simpl; lia].
  destruct (negb (interfaces.ShouldRetry (RetryDecorator.policy d) e attempt));
    [simpl; lia|].
  cbv zeta.
  pose proof (backoff_world (models.Ctx request)
                (interfaces.GetDelay (RetryDecorator.policy d) attempt) w1) as Hb.
  destruct (RetryDecorator.backoff sched (models.Ctx request) _ w1) as [[|] w2];
    simpl in Hb; [|simpl; lia].
  specialize (IH (attempt + 1) (Some e) w2). lia.
Qed.

End RetryBounds.

(** X9: [RetryDecorator.Send] calls the wrapped client at most
    [MaxAttempts()] times, whatever the policy answers and however the calls
    end: around a client that makes at most one round trip per call and never
    sets the clock back, with timers that do not fire early, [Send] makes at
    most [max 0 MaxAttempts()] round trips, and the clock does not go back. *)
Theorem RetryDecorator_Send_at_most_MaxAttempts
    (sched : runtime.Scheduler) (d : RetryDecorator.t)
    (request : models.Request) (w : runtime.World) :
  0 <= runtime.lag sched ->
  (forall w0,
     runtime.roundTrips w0 <= runtime.roundTrips (snd (RetryDecorator.wrapped d request w0))
       <= runtime.roundTrips w0 + 1
     /\ runtime.clock w0 <= runtime.clock (snd (RetryDecorator.wrapped d request w0))) ->
  runtime.roundTrips w
    <= runtime.roundTrips (snd (RetryDecorator.Send sched d request w))
    <= runtime.roundTrips w + Z.max 0 (interfaces.MaxAttempts (RetryDecorator.policy d))
  /\ runtime.clock w <= runtime.clock (snd (RetryDecorator.Send sched d request w)).
Proof.
  intros Hlag Hone. unfold RetryDecorator.Send.
  pose proof (loop_bounds sched d request Hlag Hone
                (Z.to_nat (interfaces.MaxAttempts (RetryDecorator.policy d))) 0 None w) as H.
  lia.
Qed.

Lemma HTTPClient_Send_one_trip (c : HTTPClient.t) (request : models.Request)
    (w : runtime.World) :
  runtime.roundTrips w <= runtime.roundTrips (snd (HTTPClient.Send c request w))
    <= runtime.roundTrips w + 1
  /\ runtime.clock w <= runtime.clock (snd (HTTPClient.Send c request w)).
Proof. rewrite HTTPClient_Send_world. simpl. lia. Qed.

Lemma RetryDecorator_Send_at_most_MaxAttempts_witness :
  runtime.roundTrips
    (snd (scenarios.retry 3 scenarios.timing_out scenarios.get scenarios.fresh)) <= 0 + 3.
Proof.
  refine (proj2 (proj1 (RetryDecorator_Send_at_most_MaxAttempts scenarios.late
                          (RetryDecorator.NewRetryDecorator
                             (HTTPClient.Send scenarios.timing_out)
                             (RetryPolicy_as_IRetryPolicy Go.amd64_overflow
                                (RetryPolicy.NewRetryPolicy 3)))
                          scenarios.get scenarios.fresh _ _))).
  - vm_compute. discriminate.
  - intros w0. apply HTTPClient_Send_one_trip.
Defined.

Lemma loop_5xx_all (sched : runtime.Scheduler) (overflow : Q -> Z) (rp : RetryPolicy.t)
    (c : HTTPClient.t) (request : models.Request) :
  Go.cancelAt (models.Ctx request) = None ->
  (forall tm rq n t, exists r,
      fst (HTTPClient.Do (HTTPClient.httpClient c) tm rq n t) = HTTPClient.Answer r
      /\ 500 <= models.StatusCode r < 600) ->
  forall (k : nat) (attempt : Z) (lastErr : option models.error) (w : runtime.World),
    attempt + Z.of_nat k + 1 = RetryPolicy.maxAttempts rp ->
    exists (w_last : runtime.World) (r : models.HttpResponse) (took : Go.Duration),
      runtime.roundTrips w_last = runtime.roundTrips w + Z.of_nat k
      /\ 500 <= models.StatusCode r < 600
      /\ HTTPClient.Send c request w_last
         = ((Some {| models.HttpResp := r; models.RequestRef := request |},
             Some (HTTPError.to_error (runs.status_error request r))),
            runs.after_trip took w_last)
      /\ RetryDecorator.loop sched
           (RetryDecorator.NewRetryDecorator (HTTPClient.Send c)
              (RetryPolicy_as_IRetryPolicy overflow rp))
           request (S k) attempt lastErr w
         = ((None, Some (HTTPError.to_error (runs.status_error request r))),
            runs.after_backoff sched
              (RetryPolicy.GetDelay overflow rp (RetryPolicy.maxAttempts rp - 1))
              (runs.after_trip took w_last)).
Proof.
  intros Hctx H5. induction k as [|k IH]; intros attempt lastErr w Hk.
  - destruct (loop_5xx sched overflow rp c request Hctx H5 0 attempt lastErr w ltac:(lia))
      as (r & took & Hs & HSend & Hloop).
    exists w, r, took. split; [simpl; lia|]. split; [exact Hs|]. split; [exact HSend|].
    rewrite Hloop. simpl. replace (RetryPolicy.maxAttempts rp - 1) with attempt by lia.
    reflexivity.
  - destruct (loop_5xx sched overflow rp c request Hctx H5 (S k) attempt lastErr w
                ltac:(lia)) as (r1 & took1 & _ & _ & Hloop).
    rewrite Hloop.
    destruct (IH (attempt + 1)
                (Some (HTTPError.to_error (runs.status_error request r1)))
                (runs.after_backoff sched (RetryPolicy.GetDelay overflow rp attempt)
                   (runs.after_trip took1 w)) ltac:(lia))
      as (w_last & r & took & Hn & Hs & HSend & Hrest).
    exists w_last, r, took. split; [simpl in Hn; lia|]. split; [exact Hs|].
    split; [exact HSend | exact Hrest].
Qed.

(** X10: over a transport that answers every round trip with a 5xx status,
    with a context that is never done, [RetryDecorator.Send] uses up every
    attempt of the policy, whatever their number n >= 1: it makes exactly n
    round trips and returns the server error of the last with a nil response.
    After that last attempt it still waits the backoff [GetDelay(n-1)]
    before it returns, although no attempt follows. *)
Theorem RetryDecorator_Send_uses_every_attempt
    (sched : runtime.Scheduler) (overflow : Q -> Z) (rp : RetryPolicy.t)
    (c : HTTPClient.t) (request : models.Request) (w : runtime.World) :
  0 < RetryPolicy.maxAttempts rp ->
  Go.cancelAt (models.Ctx request) = None ->
  (forall tm rq n t, exists r,
      fst (HTTPClient.Do (HTTPClient.httpClient c) tm rq n t) = HTTPClient.Answer r
      /\ 500 <= models.StatusCode r < 600) ->
  exists (w_last : runtime.World) (r : models.HttpResponse) (took : Go.Duration),
    runtime.roundTrips w_last = runtime.roundTrips w + RetryPolicy.maxAttempts rp - 1
    /\ 500 <= models.StatusCode r < 600
    /\ HTTPClient.Send c request w_last
       = ((Some {| models.HttpResp := r; models.RequestRef := request |},
           Some (HTTPError.to_error (runs.status_error request r))),
          runs.after_trip took w_last)
    /\ RetryDecorator.Send sched
         (RetryDecorator.NewRetryDecorator (HTTPClient.Send c)
            (RetryPolicy_as_IRetryPolicy overflow rp))
         request w
       = ((None, Some (HTTPError.to_error (runs.status_error request r))),
          runs.after_backoff sched
            (RetryPolicy.GetDelay overflow rp (RetryPolicy.maxAttempts rp - 1))
            (runs.after_trip took w_last)).
Proof.
  intros Hpos Hctx H5. unfold RetryDecorator.Send.
  change (interfaces.MaxAttempts
            (RetryDecorator.policy
               (RetryDecorator.NewRetryDecorator (HTTPClient.Send c)
                  (RetryPolicy_as_IRetryPolicy overflow rp))))
    with (RetryPolicy.maxAttempts rp).
  destruct (loop_5xx_all sched overflow rp c request Hctx H5
              (Z.to_nat (RetryPolicy.maxAttempts rp - 1)) 0 None w ltac:(lia))
    as (w_last & r & took & Hn & Hs & HSend & Hloop).
  exists w_last, r, took. split; [lia|]. split; [exact Hs|]. split; [exact HSend|].
  replace (Z.to_nat (RetryPolicy.maxAttempts rp))
    with (S (Z.to_nat (RetryPolicy.maxAttempts rp - 1))) by lia.
  exact Hloop.
Qed.

Lemma RetryDecorator_Send_uses_every_attempt_witness :
  exists (w_last : runtime.World) (r : models.HttpResponse) (took : Go.Duration),
    runtime.roundTrips w_last = 0 + 5 - 1
    /\ 500 <= models.StatusCode r < 600
    /\ HTTPClient.Send (scenarios.answering 503) scenarios.get w_last
       = ((Some {| models.HttpResp := r; models.RequestRef := scenarios.get |},
           Some (HTTPError.to_error (runs.status_error scenarios.get r))),
          runs.after_trip took w_last)
    /\ scenarios.retry 5 (scenarios.answering 503) scenarios.get scenarios.fresh
       = ((None, Some (HTTPError.to_error (runs.status_error scenarios.get r))),
          runs.after_backoff scenarios.late
            (RetryPolicy.GetDelay Go.amd64_overflow (RetryPolicy.NewRetryPolicy 5) (5 - 1))
            (runs.after_trip took w_last)).
Proof.
  apply (RetryDecorator_Send_uses_every_attempt scenarios.late Go.amd64_overflow
           (RetryPolicy.NewRetryPolicy 5) (scenarios.answering 503)
           scenarios.get scenarios.fresh).
  - reflexivity.
  - reflexivity.
  - intros. eexists. split; [reflexivity | simpl; lia].
Defined.

(** ** RetryDecorator.Send: cancellation *)

Lemma IsTimeout_ErrCancelled (request : models.Request) (h : HTTPError.t) :
  HTTPError.of_error (RetryDecorator.ErrCancelled request) = Some h ->
  HTTPError.IsTimeout h
    = match Go.cause (models.Ctx request) with
      | Go.ByDeadline => true
      | Go.ByCancel => false
      end
  /\ HTTPError.StatusCode h = 0.
Proof.
  unfold RetryDecorator.ErrCancelled. simpl. intros H. inversion H; subst; clear H.
  unfold HTTPError.IsTimeout, models.ctxErr. simpl.
  destruct (Go.cause (models.Ctx request)); split; reflexivity.
Qed.

(** X11: when the context of the request is already done, [Send] makes no
    attempt: it returns its own error "request cancelled during retry" around
    [ctx.Err()], with a nil response, and the wrapped client is not
    called.  To a [RetryPolicy] that error is a timeout, and so retryable,
    exactly when the context ended by its deadline; after a plain [cancel()]
    it is retried only by a policy that lists the status 0. *)
Theorem RetryDecorator_Send_context_done
    (sched : runtime.Scheduler) (d : RetryDecorator.t)
    (request : models.Request) (w : runtime.World) :
  0 < interfaces.MaxAttempts (RetryDecorator.policy d) ->
  Go.Done (models.Ctx request) (runtime.clock w) = true ->
  RetryDecorator.Send sched d request w
    = ((None, Some (RetryDecorator.ErrCancelled request)), w)
  /\ (forall (rp : RetryPolicy.t) (attempt : Z),
        attempt < RetryPolicy.maxAttempts rp ->
        RetryPolicy.ShouldRetry rp (RetryDecorator.ErrCancelled request) attempt
        = match Go.cause (models.Ctx request) with
          | Go.ByDeadline => true
          | Go.ByCancel => RetryPolicy.listed rp 0
          end).
Proof.
  intros Hpos Hdone. split.
  - unfold RetryDecorator.Send.
    destruct (Z.to_nat (interfaces.MaxAttempts (RetryDecorator.policy d))) as [|fuel] eqn:E;
      [lia|].
    rewrite loop_unfold.
    replace (0 <? interfaces.MaxAttempts (RetryDecorator.policy d)) with true by lia.
    now rewrite Hdone.
  - intros rp attempt Hlt.
    set (h := {| HTTPError.Request := Some request; HTTPError.Response := None;
                 HTTPError.StatusCode := 0;
                 HTTPError.Message := "request cancelled during retry";
                 HTTPError.Err := Some (models.ctxErr (models.Ctx request)) |}).
    change (RetryDecorator.ErrCancelled request) with (HTTPError.to_error h).
    destruct (IsTimeout_ErrCancelled request h eq_refl) as [Ht _].
    destruct (Go.cause (models.Ctx request)).
    + rewrite ShouldRetry_not_timeout by assumption. reflexivity.
    + now apply ShouldRetry_timeout.
Qed.

Lemma RetryDecorator_Send_context_done_witness :
  let request := {| models.Method := "GET"; models.URL := "http://upstream/health";
                    models.Ctx := {| Go.cancelAt := Some 0; Go.cause := Go.ByDeadline |} |} in
  scenarios.retry 3 (scenarios.answering 200) request scenarios.fresh
    = ((None, Some (RetryDecorator.ErrCancelled request)), scenarios.fresh).
Proof.
  intros request.
  apply (proj1 (RetryDecorator_Send_context_done scenarios.late
                  (RetryDecorator.NewRetryDecorator
                     (HTTPClient.Send (scenarios.answering 200))
                     (RetryPolicy_as_IRetryPolicy Go.amd64_overflow
                        (RetryPolicy.NewRetryPolicy 3)))
                  request scenarios.fresh ltac:(reflexivity) ltac:(reflexivity))).
Defined.

(** X12: when the context ends while [Send] waits to retry, [Send] returns
    at that instant, not when the timer fires, with its own error "request
    cancelled during retry backoff" around [ctx.Err()] and a nil response.
    When two attempts fail with errors the policy retries, the context is not
    yet done when the second wait begins, and it ends before the timer of that
    wait fires: the clock [Send] returns at is that of the end of the context,
    neither the response nor the error of an attempt that failed is part of
    what it returns, and no third attempt is made. *)
Theorem RetryDecorator_Send_cancelled_in_backoff
    (sched : runtime.Scheduler) (d : RetryDecorator.t)
    (request : models.Request) (w w1 w3 : runtime.World)
    (resp0 resp1 : option models.Response) (e0 e1 : models.error) (c : Go.Time) :
  1 < interfaces.MaxAttempts (RetryDecorator.policy d) ->
  Go.cancelAt (models.Ctx request) = Some c ->
  0 <= runtime.lag sched ->
  runtime.clock w < c ->
  RetryDecorator.wrapped d request w = ((resp0, Some e0), w1) ->
  interfaces.ShouldRetry (RetryDecorator.policy d) e0 0 = true ->
  let w2 := runtime.set_clock
              (runtime.clock w1
               + Z.max 0 (interfaces.GetDelay (RetryDecorator.policy d) 0)
               + runtime.lag sched) w1 in
  runtime.clock w2 < c ->
  RetryDecorator.wrapped d request w2 = ((resp1, Some e1), w3) ->
  interfaces.ShouldRetry (RetryDecorator.policy d) e1 1 = true ->
  runtime.clock w3 < c ->
  c < runtime.clock w3 + Z.max 0 (interfaces.GetDelay (RetryDecorator.policy d) 1)
      + runtime.lag sched ->
  RetryDecorator.Send sched d request w
    = ((None, Some (RetryDecorator.ErrCancelledBackoff request)), runtime.set_clock c w3)
  /\ runtime.roundTrips (runtime.set_clock c w3) = runtime.roundTrips w3.
Proof.
  intros Hpos Hc Hlag Hnot Hw Hretry w2 Hnot2 Hw2 Hretry2 Hnot3 Hbefore.
  split; [|reflexivity].
  unfold RetryDecorator.Send.
  destruct (Z.to_nat (interfaces.MaxAttempts (RetryDecorator.policy d)))
    as [|[|fuel]] eqn:E; [lia | lia |].
  rewrite loop_unfold.
  replace (0 <? interfaces.MaxAttempts (RetryDecorator.policy d)) with true by lia.
  unfold Go.Done. rewrite Hc.
  replace (c <=? runtime.clock w) with false by lia.
  rewrite Hw, Hretry. cbv zeta. simpl negb. cbv iota.
  assert (Hfirst : RetryDecorator.backoff sched (models.Ctx request)
                     (interfaces.GetDelay (RetryDecorator.policy d) 0) w1 = (true, w2)).
  { unfold RetryDecorator.backoff. rewrite Hc. unfold w2 in Hnot2 |- *. simpl in Hnot2.
    replace (c <=? runtime.clock w1) with false by lia. simpl andb. cbv iota.
    replace (Z.max (runtime.clock w1) c
               <? runtime.clock w1
                  + Z.max 0 (interfaces.GetDelay (RetryDecorator.policy d) 0)
                  + runtime.lag sched) with false by lia.
    replace (runtime.clock w1
               + Z.max 0 (interfaces.GetDelay (RetryDecorator.policy d) 0)
               + runtime.lag sched <? Z.max (runtime.clock w1) c) with true by lia.
    reflexivity. }
  rewrite Hfirst. rewrite loop_unfold.
  replace (0 + 1 <? interfaces.MaxAttempts (RetryDecorator.policy d)) with true by lia.
  unfold Go.Done. rewrite Hc.
  replace (c <=? runtime.clock w2) with false by lia.
  rewrite Hw2. change (0 + 1) with 1. rewrite Hretry2. cbv zeta. simpl negb. cbv iota.
  unfold RetryDecorator.backoff. rewrite Hc.
  replace (c <=? runtime.clock w3) with false by lia. simpl andb. cbv iota.
  replace (Z.max (runtime.clock w3) c
             <? runtime.clock w3
                + Z.max 0 (interfaces.GetDelay (RetryDecorator.policy d) 1)
                + runtime.lag sched) with true by lia.
  replace (Z.max (runtime.clock w3) c) with c by lia.
  reflexivity.
Qed.

Lemma RetryDecorator_Send_cancelled_in_backoff_witness :
  let request := {| models.Method := "GET"; models.URL := "http://upstream/health";
                    models.Ctx := {| Go.cancelAt := Some (120 * Go.Millisecond);
                                     Go.cause := Go.ByCancel |} |} in
  scenarios.retry 3 scenarios.timing_out request scenarios.fresh
    = ((None, Some (RetryDecorator.ErrCancelledBackoff request)),
       runtime.set_clock (120 * Go.Millisecond)
         (snd (HTTPClient.Send scenarios.timing_out request
                 (runtime.set_clock (runtime.clock
                    (snd (HTTPClient.Send scenarios.timing_out request scenarios.fresh))
                    + runtime.lag scenarios.late)
                    (snd (HTTPClient.Send scenarios.timing_out request scenarios.fresh)))))).
Proof.
  intros request.
  refine (proj1 (RetryDecorator_Send_cancelled_in_backoff scenarios.late
            (RetryDecorator.NewRetryDecorator
               (HTTPClient.Send scenarios.timing_out)
               (RetryPolicy_as_IRetryPolicy Go.amd64_overflow
                  (RetryPolicy.NewRetryPolicy 3)))
            request scenarios.fresh
            (snd (HTTPClient.Send scenarios.timing_out request scenarios.fresh)) _
            None None _ _ (120 * Go.Millisecond) _ _ _ _ _ _ _ _ _ _ _)).
  - reflexivity.
  - reflexivity.
  - vm_compute. discriminate.
  - reflexivity.
  - reflexivity.
  - reflexivity.
  - reflexivity.
  - reflexivity.
  - reflexivity.
  - reflexivity.
  - reflexivity.
Defined.

(** ** HTTPClient.Send: what it returns *)

(** A call of [HTTPClient.Send] makes one round trip; a response that
    comes without an error has a status below 400, and the call never
    returns neither a response nor an error. *)
Lemma HTTPClient_Send_shape (c : HTTPClient.t) (request : models.Request)
    (w : runtime.World) :
  let '((resp, err), w') := HTTPClient.Send c request w in
  runtime.roundTrips w' = runtime.roundTrips w + 1
  /\ match resp, err with
     | Some r, None => Response.IsError r = false
     | None, None => False
     | _, _ => True
     end.
Proof.
  unfold HTTPClient.Send.
  destruct (HTTPClient.Do _ _ _ _ _) as [[r|inner] took]; simpl.
  - destruct (models.StatusCode r >=? 400) eqn:E; simpl; split; try reflexivity; trivial.
  - split; [reflexivity | trivial].
Qed.

(** X13: every call of [HTTPClient.Send] ends in one of five ways, and
    makes one round trip unless a guard stops it.  A nil request, and a
    request whose [HTTPRequest()] is nil, give no response and an [HTTPError]
    that names the fault, with no request, no response, status 0 and no
    wrapped error, and nothing is sent.  Otherwise one round trip is made.  A
    round trip that fails gives no response and an [HTTPError] with status 0
    around the error of the [http.Client].  An answer with a status of 400 or
    more gives the response together with an [HTTPError] that holds the same
    response and status and wraps no error; its [IsClientError] agrees with
    that of the response, and its [IsServerError] does so only below 600,
    where the response still counts a status as a server error.  Any other
    answer gives the response and no error.  [Send] never returns
    neither. *)
Theorem HTTPClient_Send_outcomes (c : HTTPClient.t)
    (request : HTTPClientOps.IHTTPRequest) (w : runtime.World) :
  let '((resp, err), w') := HTTPClientOps.Send c request w in
  (resp, err) <> (None, None)
  /\ runtime.clock w <= runtime.clock w'
  /\ runtime.breaker w' = runtime.breaker w
  /\ match request with
     | HTTPClientOps.Nil =>
         w' = w /\ resp = None
         /\ err = Some (models.HTTPError None None 0 "request cannot be nil" None)
     | HTTPClientOps.WithoutHTTPRequest _ =>
         w' = w /\ resp = None
         /\ err = Some (models.HTTPError None None 0
                          "invalid request: HTTPRequest is nil" None)
     | HTTPClientOps.WithHTTPRequest request =>
         runtime.roundTrips w' = runtime.roundTrips w + 1
         /\ match resp, err with
            | Some r, None =>
                Response.IsError r = false /\ models.RequestRef r = request
            | Some r, Some e =>
                exists h, HTTPError.of_error e = Some h
                  /\ Response.IsError r = true
                  /\ models.RequestRef r = request
                  /\ HTTPError.GetResponse h = Some r
                  /\ HTTPError.StatusCode h = Response.StatusCode r
                  /\ HTTPError.Err h = None
                  /\ HTTPError.IsClientError h = Response.IsClientError r
                  /\ HTTPError.IsServerError h
                     = Response.IsServerError r && (Response.StatusCode r <? 600)
            | None, Some e =>
                exists h inner, HTTPError.of_error e = Some h
                  /\ HTTPError.GetResponse h = None
                  /\ HTTPError.StatusCode h = 0
                  /\ HTTPError.Err h = Some inner
                  /\ fst (HTTPClient.Do (HTTPClient.httpClient c) (HTTPClient.timeout c)
                            request (runtime.roundTrips w) (runtime.clock w))
                     = HTTPClient.Failure inner
                  /\ HTTPError.IsTimeout h
                     = match models.As_netError inner with Some t => t | None => false end
            | None, None => False
            end
     end.
Proof.
  destruct request as [|request|request]; simpl.
  - split; [discriminate|]. split; [lia|]. repeat split.
  - split; [discriminate|]. split; [lia|]. repeat split.
  - unfold HTTPClient.Send.
    destruct (HTTPClient.Do _ _ _ _ _) as [[r|inner] took]; simpl.
    + destruct (models.StatusCode r >=? 400) eqn:E; simpl.
      * split; [discriminate|]. split; [lia|]. split; [reflexivity|].
        split; [reflexivity|].
        eexists. split; [reflexivity|].
        unfold Response.IsError, Response.IsClientError, Response.IsServerError,
          Response.StatusCode, HTTPError.IsClientError, HTTPError.IsServerError. simpl.
        repeat split; try assumption; try reflexivity.
      * split; [discriminate|]. split; [lia|]. split; [reflexivity|].
        split; [reflexivity|]. split; [exact E | reflexivity].
    + split; [discriminate|]. split; [lia|]. split; [reflexivity|].
      split; [reflexivity|].
      eexists. exists inner. repeat split.
Qed.

(** ** CircuitBreakerDecorator.Send over HTTPClient.Send *)

Lemma guarded_error_status (c : HTTPClient.t) (request : models.Request)
    (w : runtime.World) :
  CircuitBreaker.state (runtime.breaker w) = CircuitBreaker.StateClosed ->
  (forall tm rq n t, exists r,
      fst (HTTPClient.Do (HTTPClient.httpClient c) tm rq n t) = HTTPClient.Answer r
      /\ 400 <= models.StatusCode r) ->
  exists (r : models.HttpResponse) (took : Go.Duration),
    400 <= models.StatusCode r
    /\ CircuitBreakerDecorator.Send
         (CircuitBreakerDecorator.NewCircuitBreakerDecorator (HTTPClient.Send c)) request w
       = ((Some {| models.HttpResp := r; models.RequestRef := request |},
           Some (HTTPError.to_error (runs.status_error request r))),
          runtime.set_breaker
            (CircuitBreaker.onFailure (runtime.clock w + Z.max 0 took) (runtime.breaker w))
            (runs.after_trip took w)).
Proof.
  intros Hst Hall.
  destruct (HTTPClient.Do (HTTPClient.httpClient c) (HTTPClient.timeout c) request
              (runtime.roundTrips w) (runtime.clock w)) as [trip took] eqn:E.
  destruct (Hall (HTTPClient.timeout c) request (runtime.roundTrips w) (runtime.clock w))
    as (r & Hr & Hs).
  rewrite E in Hr. simpl in Hr. subst trip.
  exists r, took. split; [exact Hs|].
  apply (guarded_closed_failure c request w (runs.after_trip took w)
           (Some {| models.HttpResp := r; models.RequestRef := request |})
           (HTTPError.to_error (runs.status_error request r)) Hst).
  now apply HTTPClient_Send_error_status.
Qed.

Lemma send_all_error_statuses (c : HTTPClient.t) (threshold : Z) :
  Go.in_int64 threshold ->
  (forall tm rq n t, exists r,
      fst (HTTPClient.Do (HTTPClient.httpClient c) tm rq n t) = HTTPClient.Answer r
      /\ 400 <= models.StatusCode r) ->
  forall (requests : list models.Request) (w : runtime.World),
    CircuitBreaker.state (runtime.breaker w) = CircuitBreaker.StateClosed ->
    CircuitBreaker.failureThreshold (runtime.breaker w) = threshold ->
    0 <= CircuitBreaker.failureCount (runtime.breaker w) ->
    requests <> [] ->
    CircuitBreaker.failureCount (runtime.breaker w) + Z.of_nat (List.length requests)
      = threshold ->
    let out := chain_runs.send_all
                 (CircuitBreakerDecorator.Send
                    (CircuitBreakerDecorator.NewCircuitBreakerDecorator (HTTPClient.Send c)))
                 requests w in
    Forall chain_runs.response_and_error (fst out)
    /\ runtime.roundTrips (snd out)
       = runtime.roundTrips w + Z.of_nat (List.length requests)
    /\ CircuitBreaker.state (runtime.breaker (snd out)) = CircuitBreaker.StateOpen
    /\ CircuitBreaker.lastFailureTime (runtime.breaker (snd out)) = runtime.clock (snd out)
    /\ CircuitBreaker.timeout (runtime.breaker (snd out))
       = CircuitBreaker.timeout (runtime.breaker w).
Proof.
  intros Hrange Hall. induction requests as [|request rest IH]; intros w Hst Hth H0 Hne Hlen;
    [contradiction|].
  cbn [chain_runs.send_all].
  destruct (guarded_error_status c request w Hst Hall) as (r & took & Hs & ->).
  remember (runtime.set_breaker _ _) as w1 eqn:Ew1.
  destruct (runtime.breaker w) as [st fc sc lf ls ft stt tm] eqn:Ecb.
  simpl in Hst, Hth, H0, Hlen. subst st ft.
  assert (Hfc : Go.wrap64 (fc + 1) = fc + 1).
  { apply wrap64_id. simpl List.length in Hlen. int64_range. }
  destruct rest as [|request2 rest].
  - (* the last call: the failure that reaches the threshold *)
    simpl. simpl List.length in Hlen.
    subst w1. unfold CircuitBreaker.onFailure. simpl. rewrite Hfc.
    replace (fc + 1 >=? threshold) with true by lia. simpl.
    split; [constructor; [now eexists; eexists | constructor]|].
    repeat split.
  - assert (Hb1 : runtime.breaker w1
                  = {| CircuitBreaker.state := CircuitBreaker.StateClosed;
                       CircuitBreaker.failureCount := fc + 1;
                       CircuitBreaker.successCount := sc;
                       CircuitBreaker.lastFailureTime := runtime.clock w + Z.max 0 took;
                       CircuitBreaker.lastSuccessTime := ls;
                       CircuitBreaker.failureThreshold := threshold;
                       CircuitBreaker.successThreshold := stt;
                       CircuitBreaker.timeout := tm |}).
    { subst w1. unfold CircuitBreaker.onFailure. simpl. rewrite Hfc.
      simpl List.length in Hlen.
      replace (fc + 1 >=? threshold) with false by lia. reflexivity. }
    assert (Hn1 : runtime.roundTrips w1 = runtime.roundTrips w + 1)
      by (subst w1; reflexivity).
    clear Ew1.
    specialize (IH w1 ltac:(rewrite Hb1; reflexivity) ltac:(rewrite Hb1; reflexivity)
                  ltac:(rewrite Hb1; simpl; lia) ltac:(discriminate)
                  ltac:(rewrite Hb1; simpl CircuitBreaker.failureCount;
                        simpl List.length in *; lia)).
    cbv zeta in IH.
    destruct (chain_runs.send_all _ (request2 :: rest) w1) as [rs w2].
    simpl fst in *. simpl snd in *.
    destruct IH as (Hall' & Hn & Hopen & Hlf & Htm).
    split; [constructor; [now eexists; eexists | exact Hall']|].
    split; [rewrite Hn, Hn1; simpl List.length; lia|].
    split; [exact Hopen|]. split; [exact Hlf|].
    rewrite Htm, Hb1. reflexivity.
Qed.

(** X14: the circuit breaker decorator counts every error of the wrapped
    client as a failure, the 4xx answers included.  Around [HTTPClient.Send]
    with a fresh breaker of threshold n >= 1, n requests that are each
    answered with a status of 400 or more are all sent, each comes back with
    its response and its error, and they leave the breaker open; a further
    request made when no more than [timeout] has passed since the last of
    them is rejected with the circuit-open error and makes no round trip,
    and one made later than that is sent. *)
Theorem CircuitBreakerDecorator_opens_on_error_statuses
    (c : HTTPClient.t) (threshold : Z) (openTimeout : Go.Duration)
    (requests : list models.Request) (next : models.Request) (w : runtime.World) :
  1 <= threshold <= Go.MaxInt64 ->
  0 <= openTimeout ->
  runtime.breaker w = CircuitBreaker.NewCircuitBreaker threshold openTimeout ->
  Z.of_nat (List.length requests) = threshold ->
  (forall tm rq n t, exists r,
      fst (HTTPClient.Do (HTTPClient.httpClient c) tm rq n t) = HTTPClient.Answer r
      /\ 400 <= models.StatusCode r) ->
  let guarded := CircuitBreakerDecorator.Send
                   (CircuitBreakerDecorator.NewCircuitBreakerDecorator (HTTPClient.Send c)) in
  let out := chain_runs.send_all guarded requests w in
  let later := fun elapsed : Go.Duration =>
                 runtime.set_clock (runtime.clock (snd out) + elapsed) (snd out) in
  Forall chain_runs.response_and_error (fst out)
  /\ runtime.roundTrips (snd out) = runtime.roundTrips w + threshold
  /\ CircuitBreaker.state (runtime.breaker (snd out)) = CircuitBreaker.StateOpen
  /\ (forall elapsed : Go.Duration,
        0 <= elapsed <= openTimeout ->
        guarded next (later elapsed) = ((None, Some CircuitBreaker.ErrOpen), later elapsed))
  /\ (forall elapsed : Go.Duration,
        openTimeout < elapsed ->
        chain_runs.response_and_error (fst (guarded next (later elapsed)))
        /\ runtime.roundTrips (snd (guarded next (later elapsed)))
           = runtime.roundTrips (snd out) + 1).
Proof.
  intros Hth Htm Hcb Hlen Hall guarded out later.
  destruct (send_all_error_statuses c threshold ltac:(int64_range) Hall requests w
              ltac:(rewrite Hcb; reflexivity) ltac:(rewrite Hcb; reflexivity)
              ltac:(rewrite Hcb; simpl; lia)
              ltac:(destruct requests; [simpl in Hlen; lia | discriminate])
              ltac:(rewrite Hcb; simpl; lia))
    as (Hres & Hn & Hopen & Hlf & Hto).
  fold guarded in Hres, Hn, Hopen, Hlf, Hto. fold out in Hres, Hn, Hopen, Hlf, Hto.
  rewrite Hcb in Hto. simpl in Hto.
  split; [exact Hres|]. split; [rewrite Hn; lia|]. split; [exact Hopen|].
  split.
  - intros elapsed He. apply guarded_open_rejected; [exact Hopen|].
    unfold later. simpl. rewrite Hlf, Hto. unfold Go.Since. lia.
  - intros elapsed He.
    assert (Hlate : CircuitBreaker.canExecute (runtime.clock (later elapsed))
                      (runtime.breaker (later elapsed))
                    = (true, CircuitBreaker.with_successCount 0
                               (CircuitBreaker.with_state CircuitBreaker.StateHalfOpen
                                  (runtime.breaker (later elapsed))))).
    { apply canExecute_open_late; [exact Hopen|].
      unfold later. simpl. rewrite Hlf, Hto. unfold Go.Since. lia. }
    unfold guarded, CircuitBreakerDecorator.Send, CircuitBreaker.Execute.
    rewrite Hlate. cbn [negb CircuitBreakerDecorator.wrapped
                        CircuitBreakerDecorator.NewCircuitBreakerDecorator].
    remember (runtime.set_breaker _ (later elapsed)) as w1 eqn:Ew1.
    assert (Hn1 : runtime.roundTrips w1 = runtime.roundTrips (snd out))
      by (subst w1; reflexivity).
    pose proof (HTTPClient_Send_world c next w1) as Hw.
    destruct (Hall (HTTPClient.timeout c) next (runtime.roundTrips w1) (runtime.clock w1))
      as (r & Hr & Hs).
    unfold HTTPClient.Send in Hw |- *.
    destruct (HTTPClient.Do (HTTPClient.httpClient c) (HTTPClient.timeout c) next
                (runtime.roundTrips w1) (runtime.clock w1)) as [trip took].
    simpl in Hr. subst trip.
    replace (models.StatusCode r >=? 400) with true in * by lia.
    simpl. split; [now eexists; eexists | lia].
Qed.

Lemma CircuitBreakerDecorator_opens_on_error_statuses_witness :
  let guarded := CircuitBreakerDecorator.Send
                   (CircuitBreakerDecorator.NewCircuitBreakerDecorator
                      (HTTPClient.Send (scenarios.answering 404))) in
  let out := chain_runs.send_all guarded [scenarios.get; scenarios.get] scenarios.fresh in
  guarded scenarios.get (runtime.set_clock (runtime.clock (snd out) + Go.Second) (snd out))
  = ((None, Some CircuitBreaker.ErrOpen),
     runtime.set_clock (runtime.clock (snd out) + Go.Second) (snd out)).
Proof.
  intros guarded out.
  refine (proj1 (proj2 (proj2 (proj2
            (CircuitBreakerDecorator_opens_on_error_statuses (scenarios.answering 404)
               2 Go.Second [scenarios.get; scenarios.get] scenarios.get scenarios.fresh
               _ _ _ _ _)))) Go.Second _).
  - vm_compute. split; discriminate.
  - vm_compute. discriminate.
  - reflexivity.
  - reflexivity.
  - intros. eexists. split; [reflexivity | simpl; lia].
  - vm_compute. split; discriminate.
Defined.

(** ** RateLimiter: burst and rate *)

Lemma Seconds_zero : Go.Seconds 0 = float64.Finite 0.
Proof. vm_compute. reflexivity. Qed.

(** A refill at the instant of the last one leaves a whole number of
    tokens as it is. *)
Lemma refill_same_instant (fused : bool) (rate : Q) (now : Go.Time)
    (rl : RateLimiter.t) (n : Z) :
  RateLimiter.lastRefillTime rl = now ->
  RateLimiter.rate rl = float64.Finite rate ->
  float64.exactly (RateLimiter.tokens rl) (inject_Z n) ->
  0 <= n <= RateLimiter.burst rl ->
  RateLimiter.burst rl <= 2 ^ 53 ->
  RateLimiter.tokens (RateLimiter.refill fused now rl)
  = float64.Finite (float64.round64 (inject_Z n)).
Proof.
  intros Hl Hr (t & Ht & Htq) Hn Hb.
  rewrite refill_tokens. cbv zeta.
  rewrite Hl, Hr, Ht. unfold Go.Since. rewrite Z.sub_diag, Seconds_zero.
  destruct (of_int_exact n ltac:(lia)) as [HN HNq].
  destruct (of_int_exact (RateLimiter.burst rl) ltac:(lia)) as [HB HBq].
  assert (Hsum : (if fused
                  then float64.fma (float64.Finite 0) (float64.Finite rate) (float64.Finite t)
                  else float64.add (float64.Finite t)
                         (float64.mul (float64.Finite 0) (float64.Finite rate)))
                 = float64.Finite (float64.round64 (inject_Z n))).
  { rewrite <- HN. unfold float64.of_int. destruct fused.
    - simpl. apply of_Q_comp. rewrite Htq. ring.
    - unfold float64.mul.
      assert (E0 : float64.of_Q (0 * rate) = float64.Finite 0).
      { rewrite (of_Q_comp (0 * rate) 0) by ring. reflexivity. }
      rewrite E0. unfold float64.add. apply of_Q_comp. rewrite Htq. ring. }
  rewrite Hsum, HB.
  replace (float64.gt (float64.Finite (float64.round64 (inject_Z n)))
             (float64.Finite (float64.round64 (inject_Z (RateLimiter.burst rl)))))
    with false; [reflexivity|].
  symmetry. apply gt_Finite_false. rewrite HNq, HBq. rewrite <- Zle_Qle. lia.
Qed.

Lemma allow_all_at_once (fused : bool) (rate : Q) (now : Go.Time) (k : nat) :
  forall rl : RateLimiter.t,
    RateLimiter.lastRefillTime rl = now ->
    RateLimiter.rate rl = float64.Finite rate ->
    float64.exactly (RateLimiter.tokens rl) (inject_Z (Z.of_nat k)) ->
    Z.of_nat k <= RateLimiter.burst rl <= 2 ^ 53 ->
    fst (runs.allow_all fused (repeat now (k + 1)) rl) = repeat true k ++ [false].
Proof.
  induction k as [|k IH]; intros rl Hl Hr Htk Hb.
  - pose proof (refill_same_instant fused rate now rl 0 Hl Hr Htk ltac:(lia) ltac:(lia))
      as Hfill.
    simpl. unfold RateLimiter.Allow. rewrite Hfill.
    replace (float64.ge (float64.Finite (float64.round64 (inject_Z 0))) (float64.Finite 1))
      with false by reflexivity.
    reflexivity.
  - pose proof (refill_same_instant fused rate now rl (Z.of_nat (S k)) Hl Hr Htk
                  ltac:(lia) ltac:(lia)) as Hfill.
    destruct (of_int_exact (Z.of_nat (S k)) ltac:(lia)) as [_ HNq].
    assert (Hone : float64.ge (float64.Finite (float64.round64 (inject_Z (Z.of_nat (S k)))))
                     (float64.Finite 1) = true).
    { apply ge_Finite. rewrite HNq. change 1%Q with (inject_Z 1). rewrite <- Zle_Qle. lia. }
    change (repeat now (S k + 1)) with (now :: repeat now (k + 1)).
    cbn [runs.allow_all]. unfold RateLimiter.Allow. rewrite Hfill, Hone.
    set (rl1 := {| RateLimiter.rate := RateLimiter.rate (RateLimiter.refill fused now rl);
                   RateLimiter.burst := RateLimiter.burst (RateLimiter.refill fused now rl);
                   RateLimiter.tokens :=
                     float64.sub (float64.Finite (float64.round64 (inject_Z (Z.of_nat (S k)))))
                       (float64.Finite 1);
                   RateLimiter.lastRefillTime :=
                     RateLimiter.lastRefillTime (RateLimiter.refill fused now rl) |}).
    assert (Htk1 : float64.exactly (RateLimiter.tokens rl1) (inject_Z (Z.of_nat k))).
    { destruct (of_int_exact (Z.of_nat k) ltac:(lia)) as [HK HKq].
      exists (float64.round64 (inject_Z (Z.of_nat k))). split; [|exact HKq].
      unfold rl1. cbn [RateLimiter.tokens]. rewrite <- HK.
      unfold float64.sub, float64.opp, float64.add, float64.of_int.
      apply of_Q_comp. rewrite HNq. rewrite Nat2Z.inj_succ. unfold Z.succ.
      rewrite inject_Z_plus. change (inject_Z 1) with 1%Q. ring. }
    specialize (IH rl1 eq_refl Hr Htk1 ltac:(unfold rl1; cbn [RateLimiter.burst
                  RateLimiter.refill]; lia)).
    destruct (runs.allow_all fused (repeat now (k + 1)) rl1) as [oks rl2].
    cbn [fst] in IH |- *. rewrite IH. reflexivity.
Qed.

(** X16: a new limiter with a burst b between 0 and 2^53 admits exactly b
    calls made at the instant of its creation and refuses the next one,
    whatever its rate is among the finite ones. *)
Theorem RateLimiter_admits_burst_at_once
    (fused : bool) (rate : Q) (burst : Z) (now : Go.Time) :
  0 <= burst <= 2 ^ 53 ->
  fst (runs.allow_all fused (repeat now (Z.to_nat burst + 1))
         (RateLimiter.NewRateLimiter now (float64.Finite rate) burst))
  = repeat true (Z.to_nat burst) ++ [false].
Proof.
  intros Hb.
  destruct (of_int_exact burst ltac:(lia)) as [HB HBq].
  apply (allow_all_at_once fused rate now (Z.to_nat burst)).
  - reflexivity.
  - reflexivity.
  - exists (float64.round64 (inject_Z burst)). split; [exact HB|].
    rewrite Z2Nat.id by lia. exact HBq.
  - simpl. rewrite Z2Nat.id by lia. lia.
Qed.

Lemma RateLimiter_admits_burst_at_once_witness :
  fst (runs.allow_all true (repeat 7 (Z.to_nat 3 + 1))
         (RateLimiter.NewRateLimiter 7 (float64.Finite (-1)) 3))
  = repeat true (Z.to_nat 3) ++ [false].
Proof.
  apply (RateLimiter_admits_burst_at_once true (-1) 3 7). vm_compute. split; discriminate.
Defined.

Lemma of_Q_at_least_one (q : Q) :
  (1 <= float64.round64 q)%Q ->
  float64.of_Q q = float64.PosInf
  \/ exists s : Q, float64.of_Q q = float64.Finite s /\ (1 <= s)%Q.
Proof.
  intros H. unfold float64.of_Q.
  destruct (float64.Qltb float64.MaxFloat64 (float64.round64 q)); [now left|].
  assert (E : float64.Qltb (float64.round64 q) (- float64.MaxFloat64) = false).
  { apply Qltb_false. pose proof MaxFloat64_pos. lra. }
  rewrite E. right. exists (float64.round64 q). now split.
Qed.

Lemma round64_at_least_one (q : Q) : (1 <= q)%Q -> (1 <= float64.round64 q)%Q.
Proof.
  intros H. assert (R1 : (float64.round64 1 == 1)%Q) by (vm_compute; reflexivity).
  rewrite <- R1. now apply round64_mono.
Qed.

(** X17: a limiter does not starve a caller: for a finite rate that is not
    negative and a burst between 1 and 2^53, in every state the limiter
    reaches through [Allow] under a clock that never goes back, a call of
    [Allow] made once the float64 product of the seconds since the last
    refill and the rate is at least 1 is admitted. *)
Theorem RateLimiter_admits_after_a_period
    (fused : bool) (rate : Q) (burst : Z) (t0 : Go.Time) (instants : list Go.Time)
    (now : Go.Time) :
  (0 <= rate)%Q -> 1 <= burst <= 2 ^ 53 ->
  runs.nondecreasing t0 (instants ++ [now]) ->
  now - t0 <= Go.MaxInt64 ->
  let rl := snd (runs.allow_all fused instants
                   (RateLimiter.NewRateLimiter t0 (float64.Finite rate) burst)) in
  float64.ge
    (float64.mul (Go.Seconds (Go.Since now (RateLimiter.lastRefillTime rl)))
       (float64.Finite rate))
    (float64.Finite 1) = true ->
  fst (RateLimiter.Allow fused now rl) = true.
Proof.
  intros Hrate Hburst Hnd Hfit rl Hprod.
  destruct (nondecreasing_app t0 now instants Hnd) as [Hnd' Hlast].
  pose proof (allow_all_inv fused rate burst t0 instants Hrate ltac:(lia) t0 _ Hnd'
                ltac:(lia) (NewRateLimiter_inv rate burst ltac:(lia) t0)) as Hinv.
  fold rl in Hinv.
  destruct Hinv as (Hr & Hb & Hl & t & Ht & Ht0 & Ht1 & Htr).
  destruct (Seconds_finite (Go.Since now (RateLimiter.lastRefillTime rl))
              ltac:(unfold Go.Since; lia)) as (e & He & He0).
  rewrite He in Hprod.
  assert (Hp : (1 <= float64.round64 (e * rate))%Q).
  { unfold float64.mul, float64.of_Q in Hprod.
    destruct (float64.Qltb float64.MaxFloat64 (float64.round64 (e * rate))) eqn:E1.
    - apply Qltb_true in E1.
      assert (B : (1 <= float64.MaxFloat64)%Q) by (vm_compute; discriminate). lra.
    - destruct (float64.Qltb (float64.round64 (e * rate)) (- float64.MaxFloat64));
        [discriminate Hprod|].
      now apply ge_Finite in Hprod. }
  assert (Hsum : (if fused
                  then float64.fma (float64.Finite e) (float64.Finite rate) (float64.Finite t)
                  else float64.add (float64.Finite t)
                         (float64.mul (float64.Finite e) (float64.Finite rate)))
                 = float64.PosInf
                 \/ exists s : Q,
                      (if fused
                       then float64.fma (float64.Finite e) (float64.Finite rate)
                              (float64.Finite t)
                       else float64.add (float64.Finite t)
                              (float64.mul (float64.Finite e) (float64.Finite rate)))
                      = float64.Finite s /\ (1 <= s)%Q).
  { destruct fused.
    - simpl. apply of_Q_at_least_one.
      apply Qle_trans with (float64.round64 (e * rate)); [exact Hp|].
      apply round64_mono. lra.
    - unfold float64.mul.
      destruct (of_Q_at_least_one _ Hp) as [E | (p & E & Hp1)]; rewrite E.
      + now left.
      + unfold float64.add. apply of_Q_at_least_one, round64_at_least_one. lra. }
  destruct (of_int_exact burst ltac:(lia)) as [HB HBq].
  assert (Hb1 : (1 <= float64.round64 (inject_Z burst))%Q).
  { rewrite HBq. change 1%Q with (inject_Z 1). rewrite <- Zle_Qle. lia. }
  unfold RateLimiter.Allow. rewrite refill_tokens. cbv zeta.
  rewrite He, Hr, Hb, Ht, HB.
  destruct Hsum as [E | (s & E & Hs)]; rewrite E.
  - replace (float64.gt float64.PosInf
               (float64.Finite (float64.round64 (inject_Z burst)))) with true
      by reflexivity.
    apply ge_Finite in Hb1. now rewrite Hb1.
  - destruct (float64.gt (float64.Finite s)
                (float64.Finite (float64.round64 (inject_Z burst)))).
    + apply ge_Finite in Hb1. now rewrite Hb1.
    + apply ge_Finite in Hs. now rewrite Hs.
Qed.

Lemma RateLimiter_admits_after_a_period_witness :
  fst (RateLimiter.Allow false (2 * Go.Second)
         (snd (runs.allow_all false [0; 0]
                 (RateLimiter.NewRateLimiter 0 (float64.Finite (1 # 2)) 1)))) = true.
Proof.
  refine (RateLimiter_admits_after_a_period false (1 # 2) 1 0 [0; 0] (2 * Go.Second)
            _ _ _ _ _).
  - discriminate.
  - vm_compute. split; discriminate.
  - vm_compute. intuition discriminate.
  - vm_compute. discriminate.
  - vm_compute. reflexivity.
Defined.

(** ** Bulkhead: counters and slots *)

Lemma iter_acquire_counters (k : nat) (b : Bulkhead.t) :
  0 <= Bulkhead.activeCount b ->
  Bulkhead.activeCount b + Z.of_nat k <= Go.MaxInt64 ->
  Bulkhead.activeCount (Nat.iter k Bulkhead.acquire b)
    = Bulkhead.activeCount b + Z.of_nat k
  /\ Bulkhead.maxConcurrency (Nat.iter k Bulkhead.acquire b) = Bulkhead.maxConcurrency b.
Proof.
  intros H0. induction k as [|k IH]; intros Hmax.
  - simpl. split; [lia | reflexivity].
  - change (Nat.iter (S k) Bulkhead.acquire b)
      with (Bulkhead.acquire (Nat.iter k Bulkhead.acquire b)).
    destruct (IH ltac:(lia)) as [Ha Hm].
    unfold Bulkhead.acquire at 1 3. simpl. rewrite Ha, Hm.
    split; [|reflexivity]. rewrite wrap64_id by int64_range. lia.
Qed.

(** X18: a bulkhead made with a capacity n >= 1 counts the calls it holds:
    with k <= n calls in flight [ActiveRequests] is k and [AvailableSlots] is
    n - k, and [AvailableSlots] tells what [Execute] does next under a context
    that is not done: with no slot available the call is turned away with the
    capacity error and its function does not run; with a slot available
    the function runs with one more slot taken. *)
Theorem Bulkhead_counts_calls_in_flight (n : Z) (k : nat) :
  1 <= n <= Go.MaxInt64 ->
  Z.of_nat k <= n ->
  let b := Nat.iter k Bulkhead.acquire (Bulkhead.NewBulkhead n) in
  Bulkhead.MaxConcurrency b = n
  /\ Bulkhead.ActiveRequests b = Z.of_nat k
  /\ Bulkhead.AvailableSlots b = n - Z.of_nat k
  /\ (forall (pick : bool) (t : Go.Time) (fn : runs.Cell -> Bulkhead.Outcome * runs.Cell),
        (Bulkhead.AvailableSlots b <= 0 ->
           Bulkhead.Execute runs.cell_now runs.cell_get runs.cell_set pick Go.Background fn
             (b, t)
           = (Bulkhead.Returned (None, Some Bulkhead.ErrFull), (b, t)))
        /\ (0 < Bulkhead.AvailableSlots b ->
              Bulkhead.Execute runs.cell_now runs.cell_get runs.cell_set pick Go.Background fn
                (b, t)
              = let '(out, c) := fn (Bulkhead.acquire b, t) in
                match out with
                | Bulkhead.Blocked => (Bulkhead.Blocked, c)
                | _ =>
                    if Bulkhead.len (Bulkhead.semaphore (fst c)) <=? 0
                    then (Bulkhead.Blocked, c)
                    else (out, (Bulkhead.release (fst c), snd c))
                end)).
Proof.
  intros Hn Hk b.
  assert (Hnew : Bulkhead.NewBulkhead n
                 = {| Bulkhead.semaphore := {| Bulkhead.len := 0; Bulkhead.cap := n |};
                      Bulkhead.maxConcurrency := n; Bulkhead.activeCount := 0 |}).
  { unfold Bulkhead.NewBulkhead. now replace (n <=? 0) with false by lia. }
  destruct (iter_acquire_counters k (Bulkhead.NewBulkhead n)
              ltac:(rewrite Hnew; simpl; lia) ltac:(rewrite Hnew; simpl; lia)) as [Ha Hm].
  pose proof (iter_acquire_semaphore k (Bulkhead.NewBulkhead n)) as Hs.
  fold b in Ha, Hm, Hs. rewrite Hnew in Ha, Hm, Hs. simpl in Ha, Hm, Hs.
  assert (Hav : Bulkhead.AvailableSlots b = n - Z.of_nat k).
  { unfold Bulkhead.AvailableSlots, Bulkhead.ActiveRequests. rewrite Ha, Hm.
    apply wrap64_id. int64_range. }
  split; [exact Hm|]. split; [exact Ha|]. split; [exact Hav|].
  intros pick t fn. rewrite Hav. split; intros Hslots.
  - rewrite Execute_full; [reflexivity|].
    unfold runs.cell_get. simpl fst. rewrite Hs. simpl. lia.
  - rewrite Execute_admitted.
    + reflexivity.
    + unfold runs.cell_get. simpl fst. rewrite Hs. simpl. lia.
    + left. reflexivity.
Qed.

Lemma Bulkhead_counts_calls_in_flight_witness :
  Bulkhead.AvailableSlots (Nat.iter 2 Bulkhead.acquire (Bulkhead.NewBulkhead 3)) = 3 - 2.
Proof.
  refine (proj1 (proj2 (proj2 (Bulkhead_counts_calls_in_flight 3 2 _ _)))).
  - vm_compute. split; discriminate.
  - vm_compute. discriminate.
Defined.

(** X19: [Execute] leaks no slot: whenever the wrapped function returns or
    panics and hands the bulkhead back as it got it, the bulkhead after
    [Execute] is the one before it, semaphore and [activeCount] alike,
    whether the call was admitted, turned away or cancelled.  So a
    function that itself goes through the bulkhead can be wrapped again. *)
Theorem Bulkhead_Execute_gives_slot_back {W : Type}
    (now : W -> Go.Time) (get : W -> Bulkhead.t) (set : Bulkhead.t -> W -> W)
    (pick : bool) (ctx : Go.Context) (fn : W -> Bulkhead.Outcome * W) (w : W) :
  (forall b w0, get (set b w0) = b) ->
  get (snd (fn (set (Bulkhead.acquire (get w)) w))) = Bulkhead.acquire (get w) ->
  fst (fn (set (Bulkhead.acquire (get w)) w)) <> Bulkhead.Blocked ->
  Go.in_int64 (Bulkhead.activeCount (get w)) ->
  0 <= Bulkhead.len (Bulkhead.semaphore (get w)) ->
  get (snd (Bulkhead.Execute now get set pick ctx fn w)) = get w
  /\ fst (Bulkhead.Execute now get set pick ctx fn w) <> Bulkhead.Blocked.
Proof.
  intros Hlens Hback Hout Hrange Hlen. unfold Bulkhead.Execute.
  destruct ((Bulkhead.len (Bulkhead.semaphore (get w))
               <? Bulkhead.cap (Bulkhead.semaphore (get w)))
            && (negb (Go.Done ctx (now w)) || pick)).
  - destruct (fn (set (Bulkhead.acquire (get w)) w)) as [out w'].
    simpl in Hback, Hout.
    assert (Hpos : (Bulkhead.len (Bulkhead.semaphore (get w')) <=? 0) = false)
      by (rewrite Hback; simpl; lia).
    destruct out; [| |contradiction]; rewrite Hpos; simpl;
      (split; [|discriminate]); now rewrite Hlens, Hback, release_acquire.
  - destruct (Go.Done ctx (now w)); simpl; (split; [reflexivity | discriminate]).
Qed.

Lemma Bulkhead_Execute_gives_slot_back_witness :
  runs.cell_get
    (snd (scenarios.guarded (scenarios.guarded scenarios.crash) (Bulkhead.NewBulkhead 2, 0)))
    = Bulkhead.NewBulkhead 2.
Proof.
  refine (proj1 (Bulkhead_Execute_gives_slot_back runs.cell_now runs.cell_get runs.cell_set
                   true Go.Background (scenarios.guarded scenarios.crash)
                   (Bulkhead.NewBulkhead 2, 0) _ _ _ _ _)).
  - reflexivity.
  - reflexivity.
  - discriminate.
  - vm_compute. split; discriminate.
  - vm_compute. discriminate.
Defined.

(** ** Pipeline *)

(** X20: a pipeline stops at the first step that fails.  When the steps
    [first] end with an error (of the client, or because a builder returned a
    nil request), the pipeline [first ++ rest] gives the same result and
    leaves the same world: no builder of [rest] is asked and none of its
    requests is sent.  When they end without an error, the pipeline goes on
    with [rest] from the last response. *)
Theorem Pipeline_stops_at_first_error
    (client : interfaces.IHTTPClient) (first rest : list async.Builder)
    (w : runtime.World) :
  (async.Error (fst (async.Pipeline client first w)) <> None ->
     async.Pipeline client (first ++ rest) w = async.Pipeline client first w)
  /\ (async.Error (fst (async.Pipeline client first w)) = None ->
        async.Pipeline client (first ++ rest) w
        = async.steps client rest
            (async.Response (fst (async.Pipeline client first w)))
            (snd (async.Pipeline client first w))).
Proof.
  unfold async.Pipeline. generalize (@None models.Response) as prevResp. revert w.
  induction first as [|builder first IH]; intros w prevResp.
  - simpl. split; [intros H; now contradiction H | reflexivity].
  - simpl. destruct (builder prevResp) as [request|].
    + destruct (client request w) as [[resp [e|]] w1].
      * simpl. split; [reflexivity | discriminate].
      * apply IH.
    + simpl. split; [reflexivity | discriminate].
Qed.

Lemma steps_success (c : HTTPClient.t) (builders : list async.Builder) :
  forall (prevResp : option models.Response) (w : runtime.World),
    async.Error (fst (async.steps (HTTPClient.Send c) builders prevResp w)) = None ->
    async.Request (fst (async.steps (HTTPClient.Send c) builders prevResp w)) = None
    /\ async.Duration (fst (async.steps (HTTPClient.Send c) builders prevResp w)) = 0
    /\ runtime.roundTrips (snd (async.steps (HTTPClient.Send c) builders prevResp w))
       = runtime.roundTrips w + Z.of_nat (List.length builders)
    /\ (builders <> [] ->
        exists r, async.Response (fst (async.steps (HTTPClient.Send c) builders prevResp w))
                  = Some r
                  /\ Response.IsError r = false).
Proof.
  induction builders as [|builder rest IH]; intros prevResp w Hok.
  - simpl. repeat split; [lia | intros H; now contradiction H].
  - simpl in Hok |- *. destruct (builder prevResp) as [request|]; [|discriminate Hok].
    pose proof (HTTPClient_Send_shape c request w) as Hout.
    destruct (HTTPClient.Send c request w) as [[resp [e|]] w1]; [discriminate Hok|].
    destruct Hout as (Hn & Hres).
    destruct (IH resp w1 Hok) as (H1 & H2 & H3 & H4).
    split; [exact H1|]. split; [exact H2|].
    split; [rewrite H3, Hn; lia|]. intros _.
    destruct rest as [|b2 rest].
    + simpl. destruct resp as [r|]; [|contradiction].
      exists r. split; [reflexivity | exact Hres].
    + apply H4. discriminate.
Qed.

(** A pipeline that succeeds has succeeded up to its last builder, and
    ends with the step of that builder. *)
Lemma steps_last (client : interfaces.IHTTPClient) (init : list async.Builder)
    (b : async.Builder) :
  forall (prevResp : option models.Response) (w : runtime.World),
    async.Error (fst (async.steps client (init ++ [b]) prevResp w)) = None ->
    async.Error (fst (async.steps client init prevResp w)) = None
    /\ async.steps client (init ++ [b]) prevResp w
       = async.steps client [b]
           (async.Response (fst (async.steps client init prevResp w)))
           (snd (async.steps client init prevResp w)).
Proof.
  induction init as [|builder init IH]; intros prevResp w Hok.
  - split; reflexivity.
  - simpl in Hok |- *. destruct (builder prevResp) as [request|]; [|discriminate Hok].
    destruct (client request w) as [[resp [e|]] w1]; [discriminate Hok|].
    apply IH. exact Hok.
Qed.

(** X21: what a pipeline over [HTTPClient.Send] reports when every step
    succeeds: it has made one round trip per builder, and its one result
    carries no request, a duration of 0 and the response of the last step:
    the pipeline of the builders before the last has succeeded, the last
    builder has made a request from the response of that pipeline, and the
    response reported, whose status is below 400, and the world left are those
    [HTTPClient.Send] returned for that request.  With no builder at all the
    result is empty: no request, no response, no error. *)
Theorem Pipeline_success_result
    (c : HTTPClient.t) (builders : list async.Builder) (w : runtime.World) :
  async.Error (fst (async.Pipeline (HTTPClient.Send c) builders w)) = None ->
  async.Request (fst (async.Pipeline (HTTPClient.Send c) builders w)) = None
  /\ async.Duration (fst (async.Pipeline (HTTPClient.Send c) builders w)) = 0
  /\ runtime.roundTrips (snd (async.Pipeline (HTTPClient.Send c) builders w))
     = runtime.roundTrips w + Z.of_nat (List.length builders)
  /\ (forall (init : list async.Builder) (last : async.Builder),
        builders = init ++ [last] ->
        let before := async.Pipeline (HTTPClient.Send c) init w in
        async.Error (fst before) = None
        /\ exists (request : models.Request) (r : models.Response),
             last (async.Response (fst before)) = Some request
             /\ HTTPClient.Send c request (snd before)
                = ((Some r, None), snd (async.Pipeline (HTTPClient.Send c) builders w))
             /\ async.Response (fst (async.Pipeline (HTTPClient.Send c) builders w)) = Some r
             /\ Response.IsError r = false)
  /\ (builders = [] ->
      async.Response (fst (async.Pipeline (HTTPClient.Send c) builders w)) = None).
Proof.
  intros Hok. destruct (steps_success c builders None w Hok) as (H1 & H2 & H3 & _).
  split; [exact H1|]. split; [exact H2|]. split; [exact H3|]. split.
  - intros init last ->. intros before.
    unfold async.Pipeline in Hok |- *.
    destruct (steps_last (HTTPClient.Send c) init last None w Hok) as [Hinit Heq].
    split; [exact Hinit|].
    rewrite Heq in Hok |- *. fold (async.Pipeline (HTTPClient.Send c) init w) in Hok |- *.
    fold before in Hok |- *.
    simpl in Hok |- *.
    destruct (last (async.Response (fst before))) as [request|]; [|discriminate Hok].
    pose proof (HTTPClient_Send_shape c request (snd before)) as Hshape.
    destruct (HTTPClient.Send c request (snd before)) as [[resp [e|]] w1] eqn:ESend;
      [discriminate Hok|].
    destruct Hshape as [_ Hshape]. destruct resp as [r|]; [|contradiction].
    exists request, r. simpl. repeat split; assumption.
  - intros ->. reflexivity.
Qed.

Lemma Pipeline_success_result_witness :
  let c := scenarios.answering 200 in
  let builders := [fun _ : option models.Response => Some scenarios.get;
                   fun prev : option models.Response =>
                     match prev with
                     | Some r => Some (models.RequestRef r)
                     | None => None
                     end] in
  async.Error (fst (async.Pipeline (HTTPClient.Send c) [hd (fun _ => None) builders]
                      scenarios.fresh)) = None
  /\ exists (request : models.Request) (r : models.Response),
       request = scenarios.get
       /\ HTTPClient.Send c request
            (snd (async.Pipeline (HTTPClient.Send c) [hd (fun _ => None) builders]
                    scenarios.fresh))
          = ((Some r, None), snd (async.Pipeline (HTTPClient.Send c) builders scenarios.fresh))
       /\ async.Response (fst (async.Pipeline (HTTPClient.Send c) builders scenarios.fresh))
          = Some r.
Proof.
  intros c builders.
  destruct (proj1 (proj2 (proj2 (proj2
              (Pipeline_success_result c builders scenarios.fresh ltac:(reflexivity)))))
              [hd (fun _ => None) builders] (nth 1 builders (fun _ => None))
              ltac:(reflexivity))
    as (Hbefore & request & r & Hreq & HSend & Hresp & _).
  split; [exact Hbefore|].
  exists request, r. split; [|split; assumption].
  vm_compute in Hreq. now inversion Hreq.
Defined.

(** ** FanOut *)

Lemma fan_in_all_failed (arrivals : list async.AsyncResult) :
  forall n : nat,
    (List.length arrivals <= n)%nat ->
    Forall (fun r => async.Error r <> None) arrivals ->
    async.fan_in n arrivals = async.Forever.
Proof.
  induction arrivals as [|r rest IH]; intros n Hlen Hall.
  - destruct n; reflexivity.
  - inversion Hall as [|? ? Hr Hrest]; subst.
    destruct n as [|n]; [simpl in Hlen; lia|].
    simpl. destruct (async.Error r); [|contradiction].
    apply IH; [simpl in Hlen; lia | exact Hrest].
Qed.

Lemma fan_in_first_success (failed : list async.AsyncResult) :
  forall (n : nat) (r : async.AsyncResult) (later : list async.AsyncResult),
    (List.length failed < n)%nat ->
    Forall (fun r => async.Error r <> None) failed ->
    async.Error r = None ->
    async.fan_in n (failed ++ r :: later) = async.Got r.
Proof.
  induction failed as [|f failed IH]; intros n r later Hlen Hall Hr.
  - destruct n as [|n]; [lia|]. simpl. now rewrite Hr.
  - inversion Hall as [|? ? Hf Hrest]; subst.
    destruct n as [|n]; [simpl in Hlen; lia|].
    simpl. destruct (async.Error f); [|contradiction].
    apply IH; [simpl in Hlen; lia | exact Hrest | exact Hr].
Qed.

(** X22: [FanOut] returns only a success.  When the goroutines send at most
    one result per request, the result [FanOut] returns is the first one to
    arrive without an error, whatever arrived before it and whatever arrives
    later; when every result that arrives carries an error, and so when there
    is no request at all, [FanOut] never returns: after the loop it waits for
    one more result, which no goroutine is left to send. *)
Theorem FanOut_returns_only_a_success
    (requests : list models.Request) (arrivals : list async.AsyncResult) :
  (List.length arrivals <= List.length requests)%nat ->
  (forall r, async.FanOut requests arrivals = async.Got r ->
     async.Error r = None
     /\ exists failed later,
          arrivals = failed ++ r :: later
          /\ Forall (fun f => async.Error f <> None) failed)
  /\ (Forall (fun r => async.Error r <> None) arrivals ->
        async.FanOut requests arrivals = async.Forever)
  /\ (forall failed r later,
        arrivals = failed ++ r :: later ->
        Forall (fun f => async.Error f <> None) failed ->
        async.Error r = None ->
        async.FanOut requests arrivals = async.Got r).
Proof.
  intros Hlen. unfold async.FanOut. split; [|split].
  - generalize (List.length requests) as n, Hlen. clear Hlen.
    induction arrivals as [|a rest IH]; intros n Hlen r Hgot.
    + destruct n; discriminate Hgot.
    + destruct n as [|n]; [simpl in Hlen; lia|].
      simpl in Hgot. destruct (async.Error a) as [e|] eqn:Ea.
      * destruct (IH n ltac:(simpl in Hlen; lia) r Hgot) as (Hr & failed & later & -> & Hf).
        split; [exact Hr|]. exists (a :: failed), later. split; [reflexivity|].
        constructor; [rewrite Ea; discriminate | exact Hf].
      * inversion Hgot; subst. split; [exact Ea|].
        exists [], rest. split; [reflexivity | constructor].
  - intros Hall. now apply fan_in_all_failed.
  - intros failed r later -> Hf Hr. apply fan_in_first_success; try assumption.
    rewrite List.length_app in Hlen. simpl in Hlen. lia.
Qed.

Lemma FanOut_returns_only_a_success_witness :
  let failure := {| async.Request := Some scenarios.get; async.Response := None;
                    async.Error := Some CircuitBreaker.ErrOpen; async.Duration := 5 |} in
  async.FanOut [scenarios.get; scenarios.get] [failure; failure] = async.Forever.
Proof.
  intros failure.
  refine (proj1 (proj2 (FanOut_returns_only_a_success [scenarios.get; scenarios.get]
                          [failure; failure] _)) _).
  - simpl. lia.
  - repeat constructor; discriminate.
Defined.

(** ** MiddlewareDecorator.Send and MiddlewareChain *)

Section MiddlewareHooks.
Context {S : Type}.

Lemma before_hooks_app (pre rest : list (middleware.IMiddleware S)) :
  forall (ctx ctx1 : context.t) (request : models.Request) (s s1 : S),
    middleware.before_hooks pre ctx request s = ((ctx1, None), s1) ->
    middleware.before_hooks (pre ++ rest) ctx request s
      = middleware.before_hooks rest ctx1 request s1.
Proof.
  induction pre as [|mw pre IH]; intros ctx ctx1 request s s1 H.
  - simpl in H. inversion H; subst. reflexivity.
  - simpl in H |- *.
    destruct (middleware.Before mw ctx request s) as [[newCtx [e|]] s0];
      [discriminate H|].
    now apply IH.
Qed.

Lemma chain_before_app (pre rest : list (middleware.IMiddleware S)) :
  forall (ctx : context.t) (request : models.Request) (s : S),
    middleware.chain_before (pre ++ rest) ctx request s
      = let '((ctx1, err), s1) := middleware.chain_before pre ctx request s in
        match err with
        | Some e => ((ctx1, Some e), s1)
        | None => middleware.chain_before rest ctx1 request s1
        end.
Proof.
  induction pre as [|mw pre IH]; intros ctx request s.
  - reflexivity.
  - simpl. destruct (middleware.Before mw ctx request s) as [[ctx1 [e|]] s1];
      [reflexivity | apply IH].
Qed.

End MiddlewareHooks.

(** X23: a [Before] hook that fails stops the request.  When the hooks
    before it have succeeded and the hook of the middleware [m] returns an
    error, [MiddlewareDecorator.Send] returns that error with a nil response
    and leaves the state as that hook left it: the hooks after it and the
    wrapped client do not run, and no [After] hook runs, not even those of the
    middlewares whose [Before] hook has run. *)
Theorem MiddlewareDecorator_Send_failed_Before {S : Type}
    (wrapped : models.Request -> S -> models.Result * S)
    (pre post : list (middleware.IMiddleware S)) (m : middleware.IMiddleware S)
    (vals : list (string * context.any)) (request : models.Request)
    (s s1 s2 : S) (ctx1 ctx2 : context.t) (e : models.error) :
  middleware.before_hooks pre
    {| context.base := models.Ctx request; context.values := vals |} request s
    = ((ctx1, None), s1) ->
  middleware.Before m ctx1 request s1 = ((ctx2, Some e), s2) ->
  MiddlewareDecorator.Send
    (MiddlewareDecorator.NewMiddlewareDecorator wrapped (pre ++ m :: post))
    vals request s
  = ((None, Some e), s2).
Proof.
  intros Hpre Hm. unfold MiddlewareDecorator.Send. simpl.
  rewrite (before_hooks_app pre (m :: post) _ ctx1 request s s1 Hpre).
  simpl. now rewrite Hm.
Qed.

Lemma MiddlewareDecorator_Send_failed_Before_witness :
  let rejecting : middleware.IMiddleware metrics_runs.State :=
    {| middleware.Before := fun ctx _ s => ((ctx, Some (models.ErrorString "denied")), s);
       middleware.After := fun _ _ _ _ s => (None, s) |} in
  let metrics := MetricsMiddleware.as_IMiddleware metrics_runs.state_now
                   metrics_runs.state_get metrics_runs.state_set in
  MiddlewareDecorator.Send
    (MiddlewareDecorator.NewMiddlewareDecorator
       (metrics_runs.lift (HTTPClient.Send (scenarios.answering 200)))
       ([metrics] ++ rejecting :: [metrics]))
    [] scenarios.get (MetricsMiddleware.NewMetricsMiddleware, scenarios.fresh)
  = ((None, Some (models.ErrorString "denied")),
     (MetricsMiddleware.NewMetricsMiddleware, scenarios.fresh)).
Proof.
  intros rejecting metrics.
  refine (MiddlewareDecorator_Send_failed_Before
            (metrics_runs.lift (HTTPClient.Send (scenarios.answering 200)))
            [metrics] [metrics] rejecting [] scenarios.get
            (MetricsMiddleware.NewMetricsMiddleware, scenarios.fresh) _ _ _ _ _ _ _).
  - reflexivity.
  - reflexivity.
Defined.

(** X24: [MiddlewareChain.Add] puts the middleware last: the [Before] hook
    of the longer chain is that of the chain and then, unless it failed, that
    of the added middleware on the context the chain built; its [After] hook
    starts with that of the added middleware and goes on with the chain, in
    reverse order, only when that hook returned no error. *)
Theorem MiddlewareChain_Add_last_before_first_after {S : Type}
    (mc : MiddlewareChain.t S) (mw : middleware.IMiddleware S)
    (ctx : context.t) (request : models.Request)
    (response : option models.Response) (err : option models.error) (s : S) :
  MiddlewareChain.Before (MiddlewareChain.Add mc mw) ctx request s
    = (let '((ctx1, failed), s1) := MiddlewareChain.Before mc ctx request s in
       match failed with
       | Some e => ((ctx1, Some e), s1)
       | None => middleware.Before mw ctx1 request s1
       end)
  /\ MiddlewareChain.After (MiddlewareChain.Add mc mw) ctx request response err s
     = (let '(failed, s1) := middleware.After mw ctx request response err s in
        match failed with
        | Some e => (Some e, s1)
        | None => MiddlewareChain.After mc ctx request response err s1
        end).
Proof.
  unfold MiddlewareChain.Before, MiddlewareChain.After, MiddlewareChain.Add. simpl. split.
  - rewrite chain_before_app.
    destruct (middleware.chain_before (MiddlewareChain.middlewares mc) ctx request s)
      as [[ctx1 [e|]] s1]; [reflexivity|].
    simpl. destruct (middleware.Before mw ctx1 request s1) as [[ctx2 [e|]] s2]; reflexivity.
  - rewrite rev_app_distr. reflexivity.
Qed.

(** ** MetricsMiddleware *)

Lemma metered_Send (client : interfaces.IHTTPClient)
    (vals : list (string * context.any)) (request : models.Request)
    (mm : MetricsMiddleware.t) (w : runtime.World) :
  MiddlewareDecorator.Send (metrics_runs.metered client) vals request (mm, w)
  = (fst (client request w),
     (snd (MetricsMiddleware.After metrics_runs.state_now metrics_runs.state_get
             metrics_runs.state_set
             (context.WithValue
                {| context.base := models.Ctx request; context.values := vals |}
                "metrics_start" (context.TimeOf (runtime.clock w)))
             request (fst (fst (client request w))) (snd (fst (client request w)))
             (mm, snd (client request w))))).
Proof.
  unfold MiddlewareDecorator.Send, metrics_runs.metered, metrics_runs.lift. simpl.
  destruct (client request w) as [[resp err] w1]. simpl.
  unfold MetricsMiddleware.After, context.Value. simpl.
  destruct err; reflexivity.
Qed.

Lemma metered_send_all (client : interfaces.IHTTPClient)
    (vals : models.Request -> list (string * context.any))
    (requests : list models.Request) :
  forall (mm : MetricsMiddleware.t) (w : runtime.World),
    0 <= MetricsMiddleware.successCount mm ->
    0 <= MetricsMiddleware.errorCount mm ->
    MetricsMiddleware.successCount mm + MetricsMiddleware.errorCount mm
      = MetricsMiddleware.totalRequests mm ->
    MetricsMiddleware.totalRequests mm + Z.of_nat (List.length requests) <= Go.MaxInt64 ->
    let out := metrics_runs.send_all (metrics_runs.metered client) vals requests (mm, w) in
    fst out = fst (chain_runs.send_all client requests w)
    /\ snd (snd out) = snd (chain_runs.send_all client requests w)
    /\ MetricsMiddleware.totalRequests (fst (snd out))
       = MetricsMiddleware.totalRequests mm + Z.of_nat (List.length requests)
    /\ MetricsMiddleware.errorCount (fst (snd out))
       = MetricsMiddleware.errorCount mm + metrics_runs.failures (fst out)
    /\ MetricsMiddleware.successCount (fst (snd out))
       = MetricsMiddleware.successCount mm
         + (Z.of_nat (List.length requests) - metrics_runs.failures (fst out)).
Proof.
  induction requests as [|request rest IH]; intros mm w Hs He Hsum Hmax.
  - simpl. unfold metrics_runs.failures. simpl. repeat split; lia.
  - cbn [metrics_runs.send_all chain_runs.send_all].
    rewrite metered_Send.
    destruct (client request w) as [[resp err] w1]. cbn [fst snd].
    unfold MetricsMiddleware.After, context.Value. cbn [context.values context.WithValue
      context.lookup String.eqb Ascii.eqb Bool.eqb].
    unfold metrics_runs.state_get, metrics_runs.state_set, metrics_runs.state_now.
    cbn [fst snd].
    simpl List.length in Hmax.
    rewrite (wrap64_id (MetricsMiddleware.totalRequests mm + 1)) by int64_range.
    destruct err as [e|].
    + rewrite (wrap64_id (MetricsMiddleware.errorCount mm + 1)) by int64_range.
      cbn [fst snd].
      match goal with
      | |- context [metrics_runs.send_all _ vals rest (?m, w1)] =>
          specialize (IH m w1)
      end.
      cbn [MetricsMiddleware.totalRequests MetricsMiddleware.successCount
           MetricsMiddleware.errorCount] in IH.
      specialize (IH ltac:(lia) ltac:(lia) ltac:(lia) ltac:(lia)). cbv zeta in IH.
      destruct (metrics_runs.send_all _ vals rest _) as [rs [mm2 w2]].
      destruct (chain_runs.send_all client rest w1) as [rs' w2'].
      cbn [fst snd] in *. destruct IH as (-> & -> & Ht & Hec & Hsc).
      split; [reflexivity|]. split; [reflexivity|].
      rewrite Ht, Hec, Hsc. unfold metrics_runs.failures. simpl filter.
      simpl List.length. repeat split; lia.
    + rewrite (wrap64_id (MetricsMiddleware.successCount mm + 1)) by int64_range.
      cbn [fst snd].
      match goal with
      | |- context [metrics_runs.send_all _ vals rest (?m, w1)] =>
          specialize (IH m w1)
      end.
      cbn [MetricsMiddleware.totalRequests MetricsMiddleware.successCount
           MetricsMiddleware.errorCount] in IH.
      specialize (IH ltac:(lia) ltac:(lia) ltac:(lia) ltac:(lia)). cbv zeta in IH.
      destruct (metrics_runs.send_all _ vals rest _) as [rs [mm2 w2]].
      destruct (chain_runs.send_all client rest w1) as [rs' w2'].
      cbn [fst snd] in *. destruct IH as (-> & -> & Ht & Hec & Hsc).
      split; [reflexivity|]. split; [reflexivity|].
      rewrite Ht, Hec, Hsc. unfold metrics_runs.failures. simpl filter.
      simpl List.length. repeat split; lia.
Qed.

Lemma failures_bounds (results : list models.Result) :
  0 <= metrics_runs.failures results <= Z.of_nat (List.length results).
Proof.
  unfold metrics_runs.failures. split; [lia|].
  apply Nat2Z.inj_le. apply filter_length_le.
Qed.

Lemma send_all_length (client : interfaces.IHTTPClient) (requests : list models.Request) :
  forall w, List.length (fst (chain_runs.send_all client requests w)) = List.length requests.
Proof.
  induction requests as [|request rest IH]; intros w; [reflexivity|].
  simpl. destruct (client request w) as [r w1]. specialize (IH w1).
  destruct (chain_runs.send_all client rest w1) as [rs w2]. simpl in *. now rewrite IH.
Qed.

(** X25: the metrics middleware, as the one middleware of a
    [MiddlewareDecorator], counts every request that is sent and changes
    nothing else: the results and the world are those of the client alone,
    and after n requests (n within a 64-bit integer) sent one after the other
    [totalRequests] is n, [errorCount] is the number of results with an error
    and [successCount] is the number of the others; so in [GetMetrics] the
    total is the sum of the two and the success rate is between 0 and 100. *)
Theorem MetricsMiddleware_counts_every_request
    (client : interfaces.IHTTPClient)
    (vals : models.Request -> list (string * context.any))
    (requests : list models.Request) (w : runtime.World) :
  Z.of_nat (List.length requests) <= Go.MaxInt64 ->
  let out := metrics_runs.send_all (metrics_runs.metered client) vals requests
               (MetricsMiddleware.NewMetricsMiddleware, w) in
  let data := MetricsMiddleware.GetMetrics (fst (snd out)) in
  fst out = fst (chain_runs.send_all client requests w)
  /\ snd (snd out) = snd (chain_runs.send_all client requests w)
  /\ MetricsMiddleware.TotalRequests data = Z.of_nat (List.length requests)
  /\ MetricsMiddleware.ErrorCount data = metrics_runs.failures (fst out)
  /\ MetricsMiddleware.SuccessCount data
     = Z.of_nat (List.length requests) - metrics_runs.failures (fst out)
  /\ (0 <= MetricsMiddleware.SuccessRate data
      /\ MetricsMiddleware.SuccessRate data <= 100)%Q.
Proof.
  intros Hmax out data.
  destruct (metered_send_all client vals requests MetricsMiddleware.NewMetricsMiddleware w
              ltac:(simpl; lia) ltac:(simpl; lia) ltac:(reflexivity) ltac:(simpl; lia))
    as (Hres & Hw & Ht & He & Hs).
  fold out in Hres, Hw, Ht, He, Hs. simpl in Ht, He, Hs.
  split; [exact Hres|]. split; [exact Hw|].
  subst data. unfold MetricsMiddleware.GetMetrics. simpl.
  split; [exact Ht|]. split; [exact He|]. split; [exact Hs|].
  pose proof (failures_bounds (fst out)) as Hf.
  assert (Hlen : List.length (fst out) = List.length requests)
    by (rewrite Hres; apply send_all_length).
  rewrite Hlen in Hf. rewrite Ht, Hs.
  remember (metrics_runs.failures (fst out)) as f.
  remember (Z.of_nat (List.length requests)) as n.
  destruct (Z.gtb_spec n 0) as [Hpos|Hzero]; [|split; discriminate].
  assert (Hn : (0 < inject_Z n)%Q) by (change 0%Q with (inject_Z 0); now rewrite <- Zlt_Qlt).
  assert (H0 : (0 <= inject_Z (n - f))%Q) by (apply inject_Z_nonneg; lia).
  assert (H1 : (inject_Z (n - f) <= inject_Z n)%Q) by (rewrite <- Zle_Qle; lia).
  split.
  - apply Qmult_le_0_compat; [|discriminate].
    apply Qle_shift_div_l; [exact Hn|]. now rewrite Qmult_0_l.
  - assert (Hdiv : (inject_Z (n - f) / inject_Z n <= 1)%Q)
      by (apply Qle_shift_div_r; [exact Hn | now rewrite Qmult_1_l]).
    remember (inject_Z (n - f) / inject_Z n)%Q as q. lra.
Qed.

Lemma MetricsMiddleware_counts_every_request_witness :
  MetricsMiddleware.ErrorCount
    (MetricsMiddleware.GetMetrics
       (fst (snd (metrics_runs.send_all
                    (metrics_runs.metered (HTTPClient.Send (scenarios.answering 503)))
                    (fun _ => []) [scenarios.get; scenarios.get]
                    (MetricsMiddleware.NewMetricsMiddleware, scenarios.fresh)))))
  = metrics_runs.failures
      (fst (metrics_runs.send_all
              (metrics_runs.metered (HTTPClient.Send (scenarios.answering 503)))
              (fun _ => []) [scenarios.get; scenarios.get]
              (MetricsMiddleware.NewMetricsMiddleware, scenarios.fresh))).
Proof.
  refine (proj1 (proj2 (proj2 (proj2
            (MetricsMiddleware_counts_every_request
               (HTTPClient.Send (scenarios.answering 503)) (fun _ => [])
               [scenarios.get; scenarios.get] scenarios.fresh _))))).
  vm_compute. discriminate.
Defined.

(** ** RateLimiter.Wait *)

Lemma Wait_unfold (fused : bool) (convert : float64.t -> Z) (sched : runtime.Scheduler)
    (fuel : nat) (ctx : Go.Context) (now : Go.Time) (rl : RateLimiter.t) :
  RateLimiterOps.Wait fused convert sched (S fuel) ctx now rl
  = let '(ok, rl) := RateLimiter.Allow fused now rl in
    if ok then (RateLimiterOps.Allowed, (rl, now))
    else
      let '(waitTime, rl) := RateLimiterOps.calculateWaitTime fused convert now rl in
      let '(fired, now) := RateLimiterOps.sleep sched ctx waitTime now in
      if fired then RateLimiterOps.Wait fused convert sched fuel ctx now rl
      else (RateLimiterOps.Cancelled (models.ctxErr ctx), (rl, now)).
Proof. reflexivity. Qed.

Lemma Wait_cancelled (fused : bool) (convert : float64.t -> Z) (sched : runtime.Scheduler)
    (ctx : Go.Context) (fuel : nat) :
  forall (now now' : Go.Time) (rl rl' : RateLimiter.t) (err : models.error),
    RateLimiterOps.Wait fused convert sched fuel ctx now rl
      = (RateLimiterOps.Cancelled err, (rl', now')) ->
    err = models.ctxErr ctx /\ exists c, Go.cancelAt ctx = Some c /\ c <= now'.
Proof.
  induction fuel as [|fuel IH]; intros now now' rl rl' err H; [discriminate H|].
  rewrite Wait_unfold in H.
  destruct (RateLimiter.Allow fused now rl) as [[|] rl1]; [discriminate H|].
  destruct (RateLimiterOps.calculateWaitTime fused convert now rl1)
    as [waitTime rl2].
  unfold RateLimiterOps.sleep in H.
  destruct (Go.cancelAt ctx) as [c|] eqn:Hc.
  - destruct ((c <=? now) && (waitTime <=? 0)).
    { destruct (runtime.pick sched).
      - destruct (IH _ _ _ _ _ H) as [He (c' & Hc' & Hle)]. split; [exact He|].
        exists c'. now split.
      - inversion H; subst. split; [reflexivity|]. exists c. split; [reflexivity | lia]. }
    destruct (Z.ltb_spec (Z.max now c) (now + Z.max 0 waitTime + runtime.lag sched)).
    + inversion H; subst. split; [reflexivity|]. exists c. split; [reflexivity | lia].
    + destruct (Z.ltb_spec (now + Z.max 0 waitTime + runtime.lag sched) (Z.max now c)).
      * destruct (IH _ _ _ _ _ H) as [He (c' & Hc' & Hle)]. split; [exact He|].
        exists c'. now split.
      * destruct (runtime.pick sched).
        -- destruct (IH _ _ _ _ _ H) as [He (c' & Hc' & Hle)]. split; [exact He|].
           exists c'. now split.
        -- inversion H; subst. split; [reflexivity|]. exists c. split; [reflexivity|].
           lia.
  - destruct (IH _ _ _ _ _ H) as [_ (c' & Hc' & _)]. discriminate Hc'.
Qed.

(** X27: the rate limiter decorator never turns a request away because of
    the rate.  Whatever the rate, the burst and the state of the limiter,
    every result [Send] returns is one of three: the error "request cancelled
    before rate limiting", when the context was done at the call, and then
    the limiter and the world are untouched; the error "rate limit exceeded"
    around [ctx.Err()], only when the context ended during the wait; or what
    the wrapped client returned. *)
Theorem RateLimiterDecorator_Send_results
    (fused : bool) (convert : float64.t -> Z) (sched : runtime.Scheduler) (fuel : nat)
    (d : RateLimiterDecorator.t) (request : models.Request)
    (rl rl' : RateLimiter.t) (w w' : runtime.World) (r : models.Result) :
  RateLimiterDecorator.Send fused convert sched fuel d request (rl, w)
    = (Some r, (rl', w')) ->
  (Go.Done (models.Ctx request) (runtime.clock w) = true
   /\ r = (None, Some (RateLimiterDecorator.ErrCancelled request))
   /\ rl' = rl /\ w' = w)
  \/ (Go.Done (models.Ctx request) (runtime.clock w) = false
      /\ Go.Done (models.Ctx request) (runtime.clock w') = true
      /\ r = (None, Some (RateLimiterDecorator.ErrRateLimit request
                            (models.ctxErr (models.Ctx request))))
      /\ runtime.roundTrips w' = runtime.roundTrips w)
  \/ (Go.Done (models.Ctx request) (runtime.clock w) = false
      /\ exists start : Go.Time,
           RateLimiterOps.Wait fused convert sched fuel (models.Ctx request)
             (runtime.clock w) rl = (RateLimiterOps.Allowed, (rl', start))
           /\ RateLimiterDecorator.wrapped d request (runtime.set_clock start w) = (r, w')).
Proof.
  unfold RateLimiterDecorator.Send. intros H.
  destruct (Go.Done (models.Ctx request) (runtime.clock w)) eqn:Hdone.
  - inversion H; subst. left. repeat split.
  - right.
    destruct (RateLimiterOps.Wait fused convert sched fuel (models.Ctx request)
                (runtime.clock w) rl) as [[|err|] [rl1 start]] eqn:HWait.
    + right. split; [reflexivity|]. exists start.
      destruct (RateLimiterDecorator.wrapped d request (runtime.set_clock start w))
        as [r1 w1].
      inversion H; subst. split; reflexivity.
    + left. destruct (Wait_cancelled _ _ _ _ _ _ _ _ _ _ HWait) as [-> (c & Hc & Hle)].
      inversion H; subst. split; [reflexivity|]. split.
      * unfold Go.Done. rewrite Hc. simpl. lia.
      * split; reflexivity.
    + discriminate H.
Qed.

Lemma RateLimiterDecorator_Send_results_witness :
  let request := {| models.Method := "GET"; models.URL := "http://upstream/health";
                    models.Ctx := {| Go.cancelAt := Some 5; Go.cause := Go.ByCancel |} |} in
  let empty := snd (RateLimiter.Allow false 0
                      (RateLimiter.NewRateLimiter 0 (float64.Finite (1 # 2)) 1)) in
  let d := RateLimiterDecorator.NewRateLimiterDecorator
             (HTTPClient.Send (scenarios.answering 200)) in
  fst (RateLimiterDecorator.Send false Go.amd64_convert scenarios.late 2 d request
         (empty, scenarios.fresh))
  = Some (None, Some (RateLimiterDecorator.ErrRateLimit request models.Canceled)).
Proof.
  intros request empty d.
  destruct (RateLimiterDecorator.Send false Go.amd64_convert scenarios.late 2 d
              request (empty, scenarios.fresh)) as [[r|] [rl' w']] eqn:E;
    [|vm_compute in E; discriminate E].
  destruct (RateLimiterDecorator_Send_results false Go.amd64_convert
              scenarios.late 2 d request empty rl' scenarios.fresh w' r E)
    as [(Hdone & _) | [(_ & _ & -> & _) | (_ & start & HWait & _)]].
  - vm_compute in Hdone. discriminate Hdone.
  - reflexivity.
  - vm_compute in HWait. discriminate HWait.
Defined.

(** ** LoggingDecorator.Send *)


(** ** RetryDecorator.Send: the first success *)

Lemma HTTPClient_Send_success (c : HTTPClient.t) (request : models.Request)
    (w : runtime.World) (r : models.HttpResponse) (took : Go.Duration) :
  HTTPClient.Do (HTTPClient.httpClient c) (HTTPClient.timeout c) request
    (runtime.roundTrips w) (runtime.clock w) = (HTTPClient.Answer r, took) ->
  models.StatusCode r < 400 ->
  HTTPClient.Send c request w
    = ((Some {| models.HttpResp := r; models.RequestRef := request |}, None),
       runs.after_trip took w).
Proof.
  intros HDo Hst. unfold HTTPClient.Send. rewrite HDo.
  replace (models.StatusCode r >=? 400) with false by lia. reflexivity.
Qed.

Lemma loop_first_success (sched : runtime.Scheduler) (overflow : Q -> Z)
    (rp : RetryPolicy.t) (c : HTTPClient.t) (request : models.Request) (last : Z) :
  Go.cancelAt (models.Ctx request) = None ->
  (forall tm t, exists r,
      fst (HTTPClient.Do (HTTPClient.httpClient c) tm request last t) = HTTPClient.Answer r
      /\ models.StatusCode r < 400) ->
  forall (k : nat) (attempt : Z) (lastErr : option models.error) (w : runtime.World)
         (fuel : nat),
    runtime.roundTrips w + Z.of_nat k = last ->
    attempt + Z.of_nat k < RetryPolicy.maxAttempts rp ->
    (k < fuel)%nat ->
    (forall tm t n, runtime.roundTrips w <= n < last ->
       exists r,
         fst (HTTPClient.Do (HTTPClient.httpClient c) tm request n t) = HTTPClient.Answer r
         /\ 500 <= models.StatusCode r < 600) ->
    exists (w_k : runtime.World) (r : models.HttpResponse) (took : Go.Duration),
      runtime.roundTrips w_k = last
      /\ models.StatusCode r < 400
      /\ RetryDecorator.loop sched
           (RetryDecorator.NewRetryDecorator (HTTPClient.Send c)
              (RetryPolicy_as_IRetryPolicy overflow rp))
           request fuel attempt lastErr w
         = ((Some {| models.HttpResp := r; models.RequestRef := request |}, None),
            runs.after_trip took w_k).
Proof.
  intros Hctx Hlast. induction k as [|k IH]; intros attempt lastErr w fuel Hn Hlt Hfuel H5.
  - destruct fuel as [|fuel]; [lia|].
    destruct (HTTPClient.Do (HTTPClient.httpClient c) (HTTPClient.timeout c) request
                (runtime.roundTrips w) (runtime.clock w)) as [trip took] eqn:E.
    destruct (Hlast (HTTPClient.timeout c) (runtime.clock w)) as (r & Hr & Hs).
    replace last with (runtime.roundTrips w) in Hr by lia.
    rewrite E in Hr. simpl in Hr. subst trip.
    exists w, r, took. split; [lia|]. split; [exact Hs|].
    apply loop_success.
    + simpl. unfold RetryPolicy.MaxAttempts. lia.
    + now apply Done_never.
    + now apply HTTPClient_Send_success.
  - destruct fuel as [|fuel]; [lia|].
    destruct (HTTPClient.Do (HTTPClient.httpClient c) (HTTPClient.timeout c) request
                (runtime.roundTrips w) (runtime.clock w)) as [trip took] eqn:E.
    destruct (H5 (HTTPClient.timeout c) (runtime.clock w) (runtime.roundTrips w)
                ltac:(lia)) as (r1 & Hr1 & Hs1).
    rewrite E in Hr1. simpl in Hr1. subst trip.
    rewrite (loop_again sched
               (RetryDecorator.NewRetryDecorator (HTTPClient.Send c)
                  (RetryPolicy_as_IRetryPolicy overflow rp))
               request fuel attempt lastErr w (runs.after_trip took w)
               (Some {| models.HttpResp := r1; models.RequestRef := request |})
               (HTTPError.to_error (runs.status_error request r1))
               ltac:(simpl; unfold RetryPolicy.MaxAttempts; lia) Hctx
               (HTTPClient_Send_error_status c request w r1 took E ltac:(lia))
               (ShouldRetry_server rp _ attempt ltac:(lia)
                  (status_error_IsServerError request r1 Hs1))).
    apply IH.
    + simpl. lia.
    + lia.
    + lia.
    + intros tm t n Hn'. apply H5. simpl in Hn'. lia.
Qed.

(** X29: [RetryDecorator.Send] returns the first success.  Over a transport
    that answers the next k round trips with a 5xx status and the one after
    them with a status below 400, with k below [maxAttempts] and a context
    that is never done, [Send] makes exactly k + 1 round trips and returns the
    response of the last with a nil error: the errors of the failed attempts
    leave no trace in the result. *)
Theorem RetryDecorator_Send_returns_first_success
    (sched : runtime.Scheduler) (overflow : Q -> Z) (rp : RetryPolicy.t)
    (c : HTTPClient.t) (request : models.Request) (w : runtime.World) (k : nat) :
  Z.of_nat k < RetryPolicy.maxAttempts rp ->
  Go.cancelAt (models.Ctx request) = None ->
  (forall tm t n, runtime.roundTrips w <= n < runtime.roundTrips w + Z.of_nat k ->
     exists r,
       fst (HTTPClient.Do (HTTPClient.httpClient c) tm request n t) = HTTPClient.Answer r
       /\ 500 <= models.StatusCode r < 600) ->
  (forall tm t, exists r,
      fst (HTTPClient.Do (HTTPClient.httpClient c) tm request
             (runtime.roundTrips w + Z.of_nat k) t) = HTTPClient.Answer r
      /\ models.StatusCode r < 400) ->
  exists (w_k : runtime.World) (r : models.HttpResponse) (took : Go.Duration),
    runtime.roundTrips w_k = runtime.roundTrips w + Z.of_nat k
    /\ models.StatusCode r < 400
    /\ RetryDecorator.Send sched
         (RetryDecorator.NewRetryDecorator (HTTPClient.Send c)
            (RetryPolicy_as_IRetryPolicy overflow rp))
         request w
       = ((Some {| models.HttpResp := r; models.RequestRef := request |}, None),
          runs.after_trip took w_k)
    /\ runtime.roundTrips (runs.after_trip took w_k)
       = runtime.roundTrips w + Z.of_nat k + 1.
Proof.
  intros Hk Hctx H5 Hlast. unfold RetryDecorator.Send.
  destruct (loop_first_success sched overflow rp c request
              (runtime.roundTrips w + Z.of_nat k) Hctx Hlast k 0 None w
              (Z.to_nat (RetryPolicy.maxAttempts rp))
              ltac:(reflexivity) ltac:(lia) ltac:(lia) H5)
    as (w_k & r & took & Hn & Hs & Hloop).
  exists w_k, r, took. split; [exact Hn|]. split; [exact Hs|].
  split; [exact Hloop|]. simpl. lia.
Qed.

Lemma RetryDecorator_Send_returns_first_success_witness :
  let flaky :=
    {| HTTPClient.httpClient :=
         {| HTTPClient.Do := fun _ _ n _ =>
              (HTTPClient.Answer
                 {| models.StatusCode := if n <? 2 then 503 else 200; models.Body := "" |},
               5 * Go.Millisecond) |};
       HTTPClient.timeout := 30 * Go.Second |} in
  exists (w_k : runtime.World) (r : models.HttpResponse) (took : Go.Duration),
    runtime.roundTrips w_k = 0 + 2
    /\ models.StatusCode r < 400
    /\ scenarios.retry 3 flaky scenarios.get scenarios.fresh
       = ((Some {| models.HttpResp := r; models.RequestRef := scenarios.get |}, None),
          runs.after_trip took w_k)
    /\ runtime.roundTrips (runs.after_trip took w_k) = 0 + 2 + 1.
Proof.
  intros flaky.
  refine (RetryDecorator_Send_returns_first_success scenarios.late Go.amd64_overflow
            (RetryPolicy.NewRetryPolicy 3) flaky scenarios.get scenarios.fresh 2 _ _ _ _).
  - reflexivity.
  - reflexivity.
  - intros tm t n Hn. eexists. split; [reflexivity|]. simpl in Hn |- *.
    replace (n <? 2) with true by lia. lia.
  - intros tm t. eexists. split; [reflexivity|]. simpl. lia.
Defined.

(** ** SendWithHandler *)

(** X30: a decorator changes what [SendWithHandler] returns.  For a round
    trip that is answered, through a closed circuit breaker: on an error
    status that the handler can handle and turns into an error of its own,
    [HTTPClient.SendWithHandler] returns the handler's error, and the
    decorator around the same client returns the [HTTPError] of [Send]
    instead, without asking the handler; on a success that the handler
    cannot handle, the client returns the error "handler cannot process this
    response" and the decorator returns what [Handle] makes of the
    response. *)
Theorem SendWithHandler_differs_under_decorator {V : Type}
    (c : HTTPClient.t) (handler : handlers.IResponseHandler V)
    (request : models.Request) (w : runtime.World)
    (r : models.HttpResponse) (took : Go.Duration) :
  HTTPClient.Do (HTTPClient.httpClient c) (HTTPClient.timeout c) request
    (runtime.roundTrips w) (runtime.clock w) = (HTTPClient.Answer r, took) ->
  CircuitBreaker.state (runtime.breaker w) = CircuitBreaker.StateClosed ->
  let resp := Some {| models.HttpResp := r; models.RequestRef := request |} in
  let d := CircuitBreakerDecorator.NewCircuitBreakerDecorator (HTTPClient.Send c) in
  (forall handlerErr,
     400 <= models.StatusCode r ->
     handlers.CanHandle handler resp = true ->
     handlers.HandleError handler resp = Some handlerErr ->
     fst (handlers.HTTPClient_SendWithHandler c request handler w) = (None, Some handlerErr)
     /\ fst (handlers.CircuitBreakerDecorator_SendWithHandler d request handler w)
        = (None, Some (HTTPError.to_error (runs.status_error request r))))
  /\ (models.StatusCode r < 400 ->
      handlers.CanHandle handler resp = false ->
      fst (handlers.HTTPClient_SendWithHandler c request handler w)
        = (None, Some (handlers.ErrCannotHandle request resp))
      /\ fst (handlers.CircuitBreakerDecorator_SendWithHandler d request handler w)
         = handlers.Handle handler resp).
Proof.
  intros HDo Hst resp d. split.
  - intros handlerErr Hs Hcan Herr.
    pose proof (HTTPClient_Send_error_status c request w r took HDo Hs) as HSend.
    split.
    + unfold handlers.HTTPClient_SendWithHandler. rewrite HSend.
      fold resp. now rewrite Hcan, Herr.
    + unfold handlers.CircuitBreakerDecorator_SendWithHandler. subst d.
      now rewrite (guarded_closed_failure c request w _ _ _ Hst HSend).
  - intros Hs Hcan.
    pose proof (HTTPClient_Send_success c request w r took HDo Hs) as HSend.
    split.
    + unfold handlers.HTTPClient_SendWithHandler. rewrite HSend.
      fold resp. now rewrite Hcan.
    + unfold handlers.CircuitBreakerDecorator_SendWithHandler, d,
        CircuitBreakerDecorator.Send, CircuitBreaker.Execute, CircuitBreaker.canExecute.
      rewrite Hst. simpl. rewrite set_breaker_same, HSend. reflexivity.
Qed.

Lemma SendWithHandler_differs_under_decorator_witness :
  let strict : handlers.IResponseHandler string :=
    {| handlers.Handle := fun _ => (Some "ok"%string, None);
       handlers.HandleError := fun _ => Some (models.ErrorString "not found");
       handlers.CanHandle := fun _ => true |} in
  fst (handlers.HTTPClient_SendWithHandler (scenarios.answering 404) scenarios.get strict
         scenarios.fresh)
    = (None, Some (models.ErrorString "not found"))
  /\ fst (handlers.CircuitBreakerDecorator_SendWithHandler
            (CircuitBreakerDecorator.NewCircuitBreakerDecorator
               (HTTPClient.Send (scenarios.answering 404)))
            scenarios.get strict scenarios.fresh)
     = (None, Some (HTTPError.to_error
                      (runs.status_error scenarios.get
                         {| models.StatusCode := 404; models.Body := "" |}))).
Proof.
  intros strict.
  refine (proj1 (SendWithHandler_differs_under_decorator (scenarios.answering 404) strict
                   scenarios.get scenarios.fresh
                   {| models.StatusCode := 404; models.Body := "" |} (5 * Go.Millisecond)
                   _ _) (models.ErrorString "not found") _ _ _).
  - reflexivity.
  - reflexivity.
  - simpl. lia.
  - reflexivity.
  - reflexivity.
Defined.
